(** * Property Q&A system: the embedding index and the retrieval pipeline

    A shallow embedding of the two services that carry the control flow of
    the repository:

    - [services/vector_database/main.py]: the embedding index
      ([cosine_similarity], [create_embedding], [search_properties],
      [find_similar_properties]);
    - [services/rag_service/main.py]: the orchestrator
      ([process_text_query], [process_voice_query]).

    Python floats are IEEE 754 binary64 numbers; they are modelled by the
    Standard Library's [spec_float] with the binary64 parameters, so that
    NaN, the infinities and rounding are those of the running program and
    every definition computes.  A handler is modelled up to the value it
    returns or the exception it raises, before the web framework encodes
    either.  HTTP calls to the other services are answered by an
    environment of response functions; a call either raises (transport
    failure) or yields a status code and a decoded body. *)

From Stdlib Require Import ZArith List String Bool Lia Sorted Permutation.
From Stdlib Require Import DecimalString.
From Stdlib Require Import Floats.PrimFloat Floats.FloatOps Floats.SpecFloat.
Import ListNotations.

Local Open Scope string_scope.
Local Open Scope list_scope.
Local Open Scope Z_scope.

Set Implicit Arguments.

(* ================================================================== *)
(** * Python values used by both services *)
(* ================================================================== *)

Module Py.

(** A Python [float]: binary64. *)
Definition float := spec_float.

Definition fadd : float -> float -> float := SFadd 53 1024.
Definition fsub : float -> float -> float := SFsub 53 1024.
Definition fmul : float -> float -> float := SFmul 53 1024.
Definition fdiv : float -> float -> float := SFdiv 53 1024.
Definition fsqrt : float -> float := SFsqrt 53 1024.

(** [x < y], [x <= y] and [x == y] on floats; all three are [False] as soon
    as one side is NaN. *)
Definition fltb : float -> float -> bool := SFltb.
Definition fleb : float -> float -> bool := SFleb.
Definition feqb : float -> float -> bool := SFeqb.

Definition is_nan (x : float) : bool :=
  match x with S754_nan => true | _ => false end.

Definition is_zero (x : float) : bool :=
  match x with S754_zero _ => true | _ => false end.

(** [math.isfinite]: neither NaN nor an infinity. *)
Definition is_finite (x : float) : bool :=
  match x with
  | S754_zero _ | S754_finite _ _ _ => true
  | S754_infinity _ | S754_nan => false
  end.

Definition f0 : float := S754_zero false.
Definition f1 : float := Eval vm_compute in Prim2SF 1%float.
Definition f3 : float := Eval vm_compute in Prim2SF 3%float.


(** The literals of the degraded-mode result sets, rounded to binary64 as
    the Python parser rounds them. *)
#[local] Set Warnings "-inexact-float".
Definition f0_95 : float := Eval vm_compute in Prim2SF 0.95%float.
Definition f0_87 : float := Eval vm_compute in Prim2SF 0.87%float.
Definition f0_82 : float := Eval vm_compute in Prim2SF 0.82%float.
Definition f0_89 : float := Eval vm_compute in Prim2SF 0.89%float.
Definition f0_84 : float := Eval vm_compute in Prim2SF 0.84%float.
#[local] Set Warnings "+inexact-float".

(** [l[:stop]] for an integer [stop]: a negative [stop] counts from the
    end of the list. *)
Definition slice_to (A : Type) (l : list A) (stop : Z) : list A :=
  if stop <? 0
  then firstn (Z.to_nat (Z.max 0 (Z.of_nat (List.length l) + stop))) l
  else firstn (Z.to_nat stop) l.

(** The exceptions that the modelled code raises or lets through. *)
Inductive exn : Type :=
| HTTPException (status_code : Z) (detail : string)
| ValueError (msg : string)
| TransportError (msg : string).

(** The outcome of running a handler: a returned value or a raised
    exception. *)
Inductive result (A : Type) : Type :=
| Ok (a : A)
| Raise (e : exn).

Arguments Raise {A} e.

End Py.

Import Py.

(* ================================================================== *)
(** * The embedding index: [services/vector_database/main.py] *)
(* ================================================================== *)

Module VectorDatabase.

(** A vector as [model.encode] returns it and as the [embedding] column
    stores it.  The column holds the JSON text of the list of numbers;
    [json.dumps] and [json.loads] give every binary64 value back, so the
    column is modelled by the vector itself. *)
Definition vector := list float.

(** The global [model]: [None] when the sentence transformer failed to
    load, otherwise the function computed by [model.encode([text])[0]]. *)
Definition model_t := option (string -> vector).

(** A row of the table [property_embeddings]. *)
Module PropertyEmbedding.
Record t : Type := mk
  { id : Z; property_id : Z; text : string; embedding : vector }.
End PropertyEmbedding.

Module EmbedRequest.
Record t : Type := mk { property_id : Z; text : string }.
End EmbedRequest.

Module EmbedResponse.
Record t : Type := mk { property_id : Z; embedding_id : Z; vector_size : Z }.
End EmbedResponse.

Module SearchRequest.
Record t : Type := mk { query : string; limit : Z }.
End SearchRequest.

Module SearchResult.
Record t : Type := mk { property_id : Z; text : string; similarity : float }.
End SearchResult.

Module SimilarityRequest.
Record t : Type := mk { property_id : Z; limit : Z }.
End SimilarityRequest.

(** The database session.  [rows] is the table in the order in which a
    scan returns it, which is the order of insertion; [next_id] is the
    value the primary-key sequence hands out next. *)
Record Session : Type := mkSession
  { rows : list PropertyEmbedding.t; next_id : Z }.

(** [np.dot(a, b)] on two one-dimensional arrays: a [ValueError] when the
    lengths differ, the sum of the products otherwise.  The sum is taken
    from left to right in binary64; the order in which numpy adds and the
    single precision of an encoder's arrays are not modelled, and no
    statement below depends on them: where a rounded value matters, the
    sums of the vectors at hand are exact. *)
Fixpoint dot_from (acc : float) (a b : vector) : option float :=
  match a, b with
  | [], [] => Some acc
  | x :: a', y :: b' => dot_from (fadd acc (fmul x y)) a' b'
  | _, _ => None
  end.

Definition np_dot (a b : vector) : option float := dot_from f0 a b.

(** [np.linalg.norm(a)]: the square root of [a.dot(a)]. *)
Fixpoint sum_squares (acc : float) (a : vector) : float :=
  match a with
  | [] => acc
  | x :: a' => sum_squares (fadd acc (fmul x x)) a'
  end.

Definition np_linalg_norm (a : vector) : float := fsqrt (sum_squares f0 a).

(** [cosine_similarity(a, b)]: the quotient is formed whatever the
    divisor is; [None] stands for the [ValueError] of [np.dot]. *)
Definition cosine_similarity (a b : vector) : option float :=
  match np_dot a b with
  | None => None
  | Some d => Some (fdiv d (fmul (np_linalg_norm a) (np_linalg_norm b)))
  end.

(** [results.sort(key=lambda x: x.similarity, reverse=True)]: a stable
    sort, so an element moves behind a neighbour only when its key is
    strictly smaller.  On keys without NaN this is the one stable
    descending arrangement of the list ([stable_sort_unique] below), and
    that is the domain on which this function stands for [list.sort]:
    among keys that hold a NaN the comparison [<] is not an order, the
    arrangement that the interpreter produces then depends on its merge
    strategy, and only that it is a permutation of the list is common to
    both.  The statements about the order of an answer therefore assume
    that the similarities are numbers; those about its entries and its
    length use the permutation alone. *)
Fixpoint insert_desc (x : SearchResult.t) (l : list SearchResult.t)
  : list SearchResult.t :=
  match l with
  | [] => [x]
  | y :: l' =>
      if fltb (SearchResult.similarity x) (SearchResult.similarity y)
      then y :: insert_desc x l'
      else x :: l
  end.

Definition sort_desc (l : list SearchResult.t) : list SearchResult.t :=
  fold_right insert_desc [] l.

(** The loop shared by [search_properties] and [find_similar_properties]:
    one [SearchResult] per scanned row, appended in scan order. *)
Fixpoint score_rows (ref : vector) (embeddings : list PropertyEmbedding.t)
  (results : list SearchResult.t) : result (list SearchResult.t) :=
  match embeddings with
  | [] => Ok results
  | emb :: rest =>
      match cosine_similarity ref (PropertyEmbedding.embedding emb) with
      | None => Raise (ValueError "shapes not aligned")
      | Some similarity =>
          score_rows ref rest
            (results ++ [SearchResult.mk (PropertyEmbedding.property_id emb)
                           (PropertyEmbedding.text emb) similarity])
      end
  end.

(** [POST /embed]. *)
Definition create_embedding (model : model_t) (request : EmbedRequest.t)
  (db : Session) : result EmbedResponse.t * Session :=
  match model with
  | None => (Raise (HTTPException 503 "Embedding model not available"), db)
  | Some encode =>
      let embedding := encode (EmbedRequest.text request) in
      let db_embedding :=
        PropertyEmbedding.mk (next_id db) (EmbedRequest.property_id request)
          (EmbedRequest.text request) embedding in
      (Ok (EmbedResponse.mk (EmbedRequest.property_id request)
             (PropertyEmbedding.id db_embedding)
             (Z.of_nat (List.length embedding))),
       mkSession (rows db ++ [db_embedding]) (next_id db + 1))
  end.

Definition search_mock_results : list SearchResult.t :=
  [ SearchResult.mk 1 "3-bedroom villa with swimming pool" f0_95;
    SearchResult.mk 2 "Luxury apartment in Downtown Dubai" f0_87;
    SearchResult.mk 3 "Modern villa in Dubai Hills Estate" f0_82 ].

(** [POST /search]. *)
Definition search_properties (model : model_t) (request : SearchRequest.t)
  (db : Session) : result (list SearchResult.t) :=
  match model with
  | None => Ok (slice_to search_mock_results (SearchRequest.limit request))
  | Some encode =>
      let query_embedding := encode (SearchRequest.query request) in
      let embeddings := rows db in
      match score_rows query_embedding embeddings [] with
      | Raise e => Raise e
      | Ok results =>
          Ok (slice_to (sort_desc results) (SearchRequest.limit request))
      end
  end.

Definition similarity_mock_results : list SearchResult.t :=
  [ SearchResult.mk 2 "Similar luxury property" f0_89;
    SearchResult.mk 3 "Comparable villa" f0_84 ].

(** [db.query(PropertyEmbedding).filter(property_id == pid).first()]. *)
Definition first_embedding (db : Session) (pid : Z)
  : option PropertyEmbedding.t :=
  find (fun e => PropertyEmbedding.property_id e =? pid) (rows db).

(** [db.query(PropertyEmbedding).filter(property_id != pid).all()]. *)
Definition other_embeddings (db : Session) (pid : Z)
  : list PropertyEmbedding.t :=
  filter (fun e => negb (PropertyEmbedding.property_id e =? pid)) (rows db).

(** [POST /similarity]. *)
Definition find_similar_properties (model : model_t)
  (request : SimilarityRequest.t) (db : Session)
  : result (list SearchResult.t) :=
  match first_embedding db (SimilarityRequest.property_id request) with
  | None => Raise (HTTPException 404 "Property embedding not found")
  | Some ref_embedding =>
      match model with
      | None =>
          Ok (slice_to similarity_mock_results
                (SimilarityRequest.limit request))
      | Some _ =>
          let ref_vector := PropertyEmbedding.embedding ref_embedding in
          let all_embeddings :=
            other_embeddings db (SimilarityRequest.property_id request) in
          match score_rows ref_vector all_embeddings [] with
          | Raise e => Raise e
          | Ok results =>
              Ok (slice_to (sort_desc results)
                    (SimilarityRequest.limit request))
          end
      end
  end.

End VectorDatabase.

(* ================================================================== *)
(** * The orchestrator: [services/rag_service/main.py] *)
(* ================================================================== *)

Module RagService.

Import VectorDatabase.

(** A listing as [GET /properties] of the listing store returns it
    (its [PropertyModel]); the orchestrator handles it as a dict. *)
Module Property.
Record t : Type := mk
  { id : Z; title : string; price : float; currency : string;
    bedrooms : Z; bathrooms : Z; area : float; property_type : string;
    location : string; description : string; amenities : list string;
    url : option string }.
End Property.

(** The dict [{**prop, "similarity_score": s}]: a listing has no key
    [similarity_score] of its own, so the merge adds one field. *)
Module ScoredProperty.
Record t : Type := mk { prop : Property.t; similarity_score : float }.
End ScoredProperty.

(** An entry of [context].  [details] is the f-string
    ["{bedrooms}BR, {bathrooms}BA, {area}sqft in {location}"], kept as the
    four values it interpolates. *)
Module Context.
Record t : Type := mk
  { property_id : Z; title : string; price : float;
    details : Z * Z * float * string }.
End Context.

Module QueryRequest.
Record t : Type := mk
  { query : string; include_similar : bool; max_results : Z }.
(** [QueryRequest(query=q)]: the declared defaults. *)
Definition of_query (q : string) : t := mk q true 5.
End QueryRequest.

Module QueryResponse.
Record t : Type := mk
  { query : string; answer : string;
    matching_properties : list ScoredProperty.t;
    similar_properties : list ScoredProperty.t;
    processing_time : float }.
(** The fields of the response model, in declaration order. *)
Definition fields : list string :=
  [ "query"; "answer"; "matching_properties"; "similar_properties";
    "processing_time" ].
End QueryResponse.

Module VoiceQueryResponse.
Record t : Type := mk
  { transcription : string; query : string; answer : string;
    matching_properties : list ScoredProperty.t;
    confidence : float; processing_time : float }.
Definition fields : list string :=
  [ "transcription"; "query"; "answer"; "matching_properties";
    "confidence"; "processing_time" ].
End VoiceQueryResponse.

(** The body of the response generator: a dict read with
    [.get("response", default)]. *)
Module LLMResult.
Record t : Type := mk { response : option string }.
End LLMResult.

(** The uploaded file as the handler receives it; its content type is
    missing when the part was sent without one. *)
Module UploadFile.
Record t : Type := mk
  { filename : string; content : string; content_type : option string }.
End UploadFile.

Module UploadResult.
Record t : Type := mk { file_id : string }.
End UploadResult.

Module TranscriptionResult.
Record t : Type := mk { transcription : string; confidence : float }.
End TranscriptionResult.

(** An [httpx] response: its status code and its decoded JSON body (read
    by the code only when the status is 200). *)
Module Response.
Record t (A : Type) : Type := mk { status_code : Z; json : A }.
End Response.

(** The requests the orchestrator sends, for the trace of a run. *)
Inductive Call : Type :=
| GetProperties
| PostSearch (query : string) (limit : Z)
| PostProcessQuery (query : string) (context : list Context.t)
| PostSimilarity (property_id limit : Z)
| PostUploadAudio (file : UploadFile.t)
| PostTranscribeFile (file_id : string)
| PostTranscribe.

(** The other services as seen from one request: what each call answers.
    [Raise] is a transport failure ([httpx] raises when the peer cannot be
    reached); [time_time n] is the [n]-th reading of the clock. *)
Record Services : Type := mkServices
  { get_properties : result (Response.t (list Property.t));
    post_search : string -> Z -> result (Response.t (list SearchResult.t));
    post_process_query :
      string -> list Context.t -> result (Response.t LLMResult.t);
    post_similarity : Z -> Z -> result (Response.t (list SearchResult.t));
    post_upload_audio : UploadFile.t -> result (Response.t UploadResult.t);
    post_transcribe_file :
      string -> result (Response.t TranscriptionResult.t);
    post_transcribe : result (Response.t TranscriptionResult.t);
    time_time : nat -> float }.

(** What a run has done so far: the calls sent, oldest first, and the
    number of clock readings. *)
Record World : Type := mkWorld { calls : list Call; clock : nat }.

Definition world0 : World := mkWorld [] 0.

(** Handlers run in a state-and-exception monad over [World]. *)
Definition M (A : Type) : Type := World -> result A * World.

Definition ret (A : Type) (a : A) : M A := fun w => (Ok a, w).

Definition raise (A : Type) (e : exn) : M A := fun w => (Raise e, w).

Arguments raise {A} e.

Definition bind (A B : Type) (m : M A) (k : A -> M B) : M B :=
  fun w =>
    match m w with
    | (Ok a, w') => k a w'
    | (Raise e, w') => (Raise e, w')
    end.

(** [try: m except Exception as e: handler e]. *)
Definition try_except (A : Type) (m : M A) (handler : exn -> M A) : M A :=
  fun w =>
    match m w with
    | (Ok a, w') => (Ok a, w')
    | (Raise e, w') => handler e w'
    end.

Notation "x <- m ;; k" := (bind m (fun x => k))
  (at level 61, m at next level, right associativity).

(** An awaited request: logged, then answered by the environment. *)
Definition http (A : Type) (c : Call) (answer : result (Response.t A))
  : M (Response.t A) :=
  fun w => (answer, mkWorld (calls w ++ [c]) (clock w)).

Definition now (svc : Services) : M float :=
  fun w => (Ok (time_time svc (clock w)), mkWorld (calls w) (S (clock w))).

(** [str(e)]; for an [HTTPException] the status code, a colon and the
    detail. *)
Definition str_status (code : Z) : string :=
  NilZero.string_of_int (Z.to_int code).

Definition str (e : exn) : string :=
  match e with
  | HTTPException code detail => (str_status code ++ ": " ++ detail)%string
  | ValueError msg => msg
  | TransportError msg => msg
  end.

Definition scored (p : Property.t) (result : SearchResult.t)
  : ScoredProperty.t :=
  ScoredProperty.mk p (SearchResult.similarity result).

Definition context_entry (p : Property.t) : Context.t :=
  Context.mk (Property.id p) (Property.title p) (Property.price p)
    (Property.bedrooms p, Property.bathrooms p, Property.area p,
     Property.location p).

(** Step 3, the inner loop [for prop in properties]: at the first listing
    with the identifier of [result], append to both lists and [break]. *)
Fixpoint match_result (result : SearchResult.t) (properties : list Property.t)
  (matching_properties : list ScoredProperty.t) (context : list Context.t)
  : list ScoredProperty.t * list Context.t :=
  match properties with
  | [] => (matching_properties, context)
  | p :: rest =>
      if Property.id p =? SearchResult.property_id result
      then (matching_properties ++ [scored p result],
            context ++ [context_entry p])
      else match_result result rest matching_properties context
  end.

(** Step 3, the outer loop [for result in search_results]. *)
Fixpoint match_results (search_results : list SearchResult.t)
  (properties : list Property.t)
  (matching_properties : list ScoredProperty.t) (context : list Context.t)
  : list ScoredProperty.t * list Context.t :=
  match search_results with
  | [] => (matching_properties, context)
  | result :: rest =>
      let '(matching_properties', context') :=
        match_result result properties matching_properties context in
      match_results rest properties matching_properties' context'
  end.

(** Step 5, the loop [for p in properties] for one [sim_result]. *)
Fixpoint match_similar (sim_result : SearchResult.t)
  (properties : list Property.t) (similar_properties : list ScoredProperty.t)
  : list ScoredProperty.t :=
  match properties with
  | [] => similar_properties
  | p :: rest =>
      if Property.id p =? SearchResult.property_id sim_result
      then similar_properties ++ [scored p sim_result]
      else match_similar sim_result rest similar_properties
  end.

(** Step 5, the loop [for sim_result in similar_results]. *)
Fixpoint match_similars (similar_results : list SearchResult.t)
  (properties : list Property.t) (similar_properties : list ScoredProperty.t)
  : list ScoredProperty.t :=
  match similar_results with
  | [] => similar_properties
  | sim_result :: rest =>
      match_similars rest properties
        (match_similar sim_result properties similar_properties)
  end.

(** Step 5, the loop [for prop in matching_properties[:2]]. *)
Fixpoint expand_similar (svc : Services) (top : list ScoredProperty.t)
  (properties : list Property.t) (similar_properties : list ScoredProperty.t)
  : M (list ScoredProperty.t) :=
  match top with
  | [] => ret similar_properties
  | sp :: rest =>
      let pid := Property.id (ScoredProperty.prop sp) in
      similar_response <-
        http (PostSimilarity pid 3) (post_similarity svc pid 3) ;;
      if Response.status_code similar_response =? 200
      then expand_similar svc rest properties
             (match_similars (Response.json similar_response) properties
                similar_properties)
      else expand_similar svc rest properties similar_properties
  end.

Definition apology : string :=
  "Sorry, I couldn't process your query at the moment.".

(** [POST /query]. *)
Definition process_text_query (svc : Services) (request : QueryRequest.t)
  : M QueryResponse.t :=
  start_time <- now svc ;;
  try_except
    (properties_response <- http GetProperties (get_properties svc) ;;
     let properties :=
       if Response.status_code properties_response =? 200
       then Response.json properties_response else [] in
     search_response <-
       http (PostSearch (QueryRequest.query request)
               (QueryRequest.max_results request))
         (post_search svc (QueryRequest.query request)
            (QueryRequest.max_results request)) ;;
     let search_results :=
       if Response.status_code search_response =? 200
       then Response.json search_response else [] in
     let '(matching_properties, context) :=
       match_results search_results properties [] [] in
     llm_response <-
       http (PostProcessQuery (QueryRequest.query request) context)
         (post_process_query svc (QueryRequest.query request) context) ;;
     let llm_result :=
       if Response.status_code llm_response =? 200
       then Response.json llm_response
       else LLMResult.mk (Some apology) in
     similar_properties <-
       (if QueryRequest.include_similar request
           && negb (Nat.eqb (List.length matching_properties) 0)
        then expand_similar svc (slice_to matching_properties 2)
               properties []
        else ret []) ;;
     end_time <- now svc ;;
     ret (QueryResponse.mk (QueryRequest.query request)
            (match LLMResult.response llm_result with
             | Some r => r
             | None => "No response available"
             end)
            matching_properties
            (slice_to similar_properties 5)
            (fsub end_time start_time)))
    (fun e =>
       raise (HTTPException 500 ("Error processing query: " ++ str e)%string)).

(** [POST /voice-query]. *)
Definition process_voice_query (svc : Services) (file : UploadFile.t)
  : M VoiceQueryResponse.t :=
  start_time <- now svc ;;
  try_except
    (upload_response <-
       http (PostUploadAudio file) (post_upload_audio svc file) ;;
     if negb (Response.status_code upload_response =? 200)
     then raise (HTTPException 400 "Failed to upload audio file")
     else
       let upload_result := Response.json upload_response in
       transcription_response <-
         http (PostTranscribeFile (UploadResult.file_id upload_result))
           (post_transcribe_file svc (UploadResult.file_id upload_result)) ;;
       if negb (Response.status_code transcription_response =? 200)
       then raise (HTTPException 400 "Failed to transcribe audio")
       else
         let transcription_result := Response.json transcription_response in
         let transcribed_text :=
           TranscriptionResult.transcription transcription_result in
         let confidence :=
           TranscriptionResult.confidence transcription_result in
         text_query_result <-
           process_text_query svc (QueryRequest.of_query transcribed_text) ;;
         end_time <- now svc ;;
         ret (VoiceQueryResponse.mk transcribed_text transcribed_text
                (QueryResponse.answer text_query_result)
                (QueryResponse.matching_properties text_query_result)
                confidence
                (fsub end_time start_time)))
    (fun e =>
       raise (HTTPException 500
                ("Error processing voice query: " ++ str e)%string)).

(** [POST /voice-query-simple]. *)
Definition process_voice_query_simple (svc : Services)
  : M VoiceQueryResponse.t :=
  start_time <- now svc ;;
  try_except
    (transcription_response <-
       http PostTranscribe (post_transcribe svc) ;;
     if negb (Response.status_code transcription_response =? 200)
     then raise (HTTPException 400 "Failed to get transcription")
     else
       let transcription_result := Response.json transcription_response in
       let transcribed_text :=
         TranscriptionResult.transcription transcription_result in
       text_query_result <-
         process_text_query svc (QueryRequest.of_query transcribed_text) ;;
       end_time <- now svc ;;
       ret (VoiceQueryResponse.mk transcribed_text transcribed_text
              (QueryResponse.answer text_query_result)
              (QueryResponse.matching_properties text_query_result)
              (TranscriptionResult.confidence transcription_result)
              (fsub end_time start_time)))
    (fun e =>
       raise (HTTPException 500
                ("Error processing voice query: " ++ str e)%string)).

End RagService.

Unset Implicit Arguments.

(* ================================================================== *)
(** * The health aggregation of the orchestrator:
      [health_check] of [services/rag_service/main.py] *)
(* ================================================================== *)

Module RagHealth.

Import RagService.

(** The JSON values of a health report. *)
Inductive JsonValue : Type :=
| JStr (s : string)
| JInt (z : Z)
| JBool (b : bool).

Definition Dict : Type := list (string * JsonValue).

(** [d[key] = value] on a dict kept in insertion order: the value of a
    key that is present is replaced in place, a new key goes last. *)
Fixpoint dict_set (V : Type) (d : list (string * V)) (key : string)
  (value : V) : list (string * V) :=
  match d with
  | [] => [(key, value)]
  | (k, v) :: rest =>
      if String.eqb k key then (k, value) :: rest
      else (k, v) :: dict_set V rest key value
  end.

(** [d.get(key)]. *)
Fixpoint dict_get (V : Type) (d : list (string * V)) (key : string)
  : option V :=
  match d with
  | [] => None
  | (k, v) :: rest => if String.eqb k key then Some v else dict_get V rest key
  end.

(** The base addresses read from the environment at start-up. *)
Record Config : Type := mkConfig
  { WEB_SCRAPER_URL : string;
    AUDIO_TRANSCRIPTION_URL : string;
    VECTOR_DATABASE_URL : string;
    LLM_INTEGRATION_URL : string }.

(** The defaults of [os.getenv]. *)
Definition default_config : Config :=
  mkConfig "http://localhost:8001" "http://localhost:8002"
    "http://localhost:8003" "http://localhost:8004".

(** The dict [services], in the order in which the loop visits it. *)
Definition services (cfg : Config) : list (string * string) :=
  [ ("web_scraper", WEB_SCRAPER_URL cfg);
    ("audio_transcription", AUDIO_TRANSCRIPTION_URL cfg);
    ("vector_database", VECTOR_DATABASE_URL cfg);
    ("llm_integration", LLM_INTEGRATION_URL cfg) ].

(** The body of the loop for one service: the [try] block and its
    handler.  [get] answers [client.get(url, timeout=5.0)]; it raises on a
    transport failure or a timeout. *)
Definition probe (get : string -> result (Response.t Dict))
  (service_url : string) : Dict :=
  match get (service_url ++ "/health")%string with
  | Ok response =>
      if Response.status_code response =? 200
      then Response.json response
      else [ ("status", JStr "unhealthy");
             ("error",
              JStr ("HTTP " ++ str_status (Response.status_code response))
                     %string) ]
  | Raise e => [ ("status", JStr "unreachable"); ("error", JStr (str e)) ]
  end.

Fixpoint probe_services (get : string -> result (Response.t Dict))
  (todo : list (string * string)) (service_status : list (string * Dict))
  : list (string * Dict) :=
  match todo with
  | [] => service_status
  | (service_name, service_url) :: rest =>
      probe_services get rest
        (dict_set Dict service_status service_name (probe get service_url))
  end.

(** [GET /health] of the orchestrator. *)
Definition health_check (cfg : Config)
  (get : string -> result (Response.t Dict)) : list (string * Dict) :=
  probe_services get (services cfg)
    [ ("rag_service", [ ("status", JStr "healthy"); ("port", JInt 8005) ]) ].

End RagHealth.

(* ================================================================== *)
(** * The listing store: [services/web_scraper/main.py] *)
(* ================================================================== *)

Module WebScraper.

Import RagService.

(** A row of the table [properties].  The column [amenities] holds the
    JSON text of a list of strings, or nothing; it is modelled by the
    list, [None] standing for a column that is NULL or empty. *)
Module PropertyDB.
Record t : Type := mk
  { id : Z; title : string; price : float; currency : string;
    bedrooms : Z; bathrooms : Z; area : float; property_type : string;
    location : string; description : string;
    amenities : option (list string); url : option string;
    scraped_at : Z }.
End PropertyDB.

Module ScrapeRequest.
Record t : Type := mk { url : string }.
End ScrapeRequest.

(** An entry of [mock_properties]. *)
Module MockProperty.
Record t : Type := mk
  { title : string; price : float; bedrooms : Z; bathrooms : Z;
    area : float; property_type : string; location : string;
    description : string; amenities : list string }.
End MockProperty.

(** The database session: the table in scan order and the next value of
    the primary-key sequence. *)
Record Store : Type := mkStore
  { properties : list PropertyDB.t; next_property_id : Z }.

Definition f1850000 : float := Eval vm_compute in Prim2SF 1850000%float.
Definition f1200000 : float := Eval vm_compute in Prim2SF 1200000%float.
Definition f2500 : float := Eval vm_compute in Prim2SF 2500%float.
Definition f1200 : float := Eval vm_compute in Prim2SF 1200%float.

Definition mock_villa : MockProperty.t :=
  MockProperty.mk "Luxurious 3BR Villa in Dubai Hills" f1850000 3 4 f2500
    "Villa" "Dubai Hills Estate"
    "Beautiful 3-bedroom villa with modern amenities, private garden, and swimming pool. Located in the prestigious Dubai Hills Estate with golf course views."
    [ "Swimming Pool"; "Private Garden"; "Golf Course View"; "Maid's Room";
      "Covered Parking" ].

Definition mock_apartment : MockProperty.t :=
  MockProperty.mk "Modern 2BR Apartment in Downtown Dubai" f1200000 2 2 f1200
    "Apartment" "Downtown Dubai"
    "Stunning 2-bedroom apartment with Burj Khalifa views. Premium finishes and access to world-class amenities."
    [ "Burj Khalifa View"; "Gym"; "Swimming Pool"; "Concierge";
      "Valet Parking" ].

Definition mock_properties : list MockProperty.t :=
  [ mock_villa; mock_apartment ].

(** [random.choice(l)], [pick] being the draw. *)
Definition random_choice (A : Type) (pick : nat) (l : list A) (d : A) : A :=
  nth (Nat.modulo pick (List.length l)) l d.

(** The [PropertyModel] built from a row, as the three handlers build
    it: [json.loads(amenities) if amenities else []]. *)
Definition to_model (row : PropertyDB.t) : Property.t :=
  Property.mk (PropertyDB.id row) (PropertyDB.title row)
    (PropertyDB.price row) (PropertyDB.currency row)
    (PropertyDB.bedrooms row) (PropertyDB.bathrooms row)
    (PropertyDB.area row) (PropertyDB.property_type row)
    (PropertyDB.location row) (PropertyDB.description row)
    (match PropertyDB.amenities row with Some l => l | None => [] end)
    (PropertyDB.url row).

(** [POST /scrape]: the page is not fetched; one of the two mock
    listings is stored under the next key, with the column default
    ["AED"] for the currency and the requested address. *)
Definition scrape_property (pick : nat) (utcnow : Z)
  (request : ScrapeRequest.t) (db : Store) : Property.t * Store :=
  let property_data := random_choice MockProperty.t pick mock_properties
                         mock_villa in
  let db_property :=
    PropertyDB.mk (next_property_id db)
      (MockProperty.title property_data)
      (MockProperty.price property_data)
      "AED"
      (MockProperty.bedrooms property_data)
      (MockProperty.bathrooms property_data)
      (MockProperty.area property_data)
      (MockProperty.property_type property_data)
      (MockProperty.location property_data)
      (MockProperty.description property_data)
      (Some (MockProperty.amenities property_data))
      (Some (ScrapeRequest.url request))
      utcnow in
  (to_model db_property,
   mkStore (properties db ++ [db_property]) (next_property_id db + 1)).

(** [GET /properties/{property_id}]. *)
Definition get_property (property_id : Z) (db : Store) : result Property.t :=
  match find (fun row => PropertyDB.id row =? property_id) (properties db) with
  | None => Raise (HTTPException 404 "Property not found")
  | Some property_obj => Ok (to_model property_obj)
  end.

(** [GET /properties]. *)
Definition get_all_properties (db : Store) : list Property.t :=
  map to_model (properties db).

End WebScraper.

(* ================================================================== *)
(** * The transcription stage: [services/audio_transcription/main.py] *)
(* ================================================================== *)

Module AudioTranscription.

Import RagService.

#[local] Set Warnings "-inexact-float".
Definition f0_95 : float := Eval vm_compute in Prim2SF 0.95%float.
Definition f0_92 : float := Eval vm_compute in Prim2SF 0.92%float.
Definition f3_2 : float := Eval vm_compute in Prim2SF 3.2%float.
Definition f4_1 : float := Eval vm_compute in Prim2SF 4.1%float.
#[local] Set Warnings "+inexact-float".

Module TranscriptionRequest.
Record t : Type := mk { audio_url : option string; language : string }.
End TranscriptionRequest.

Module TranscriptionResponse.
Record t : Type := mk
  { transcription : string; confidence : float; language : string;
    duration : float }.
End TranscriptionResponse.

Module UploadResponse.
Record t : Type := mk { file_id : string; filename : string; size : Z }.
End UploadResponse.

(** The uploaded file as the handler sees it: the content type may be
    missing. *)
Module Upload.
Record t : Type := mk
  { filename : string; content : string; content_type : option string }.
End Upload.

(** The directory [/app/uploads]: the files written, by path. *)
Definition Files : Type := list (string * string).

(** [open(path, "wb").write(content)]: a file of that path is replaced. *)
Fixpoint write_file (files : Files) (path content : string) : Files :=
  match files with
  | [] => [(path, content)]
  | (p, c) :: rest =>
      if String.eqb p path then (p, content) :: rest
      else (p, c) :: write_file rest path content
  end.

Definition mock_transcriptions : list string :=
  [ "Show me 3-bedroom villas in Dubai under AED 2 million with swimming pool";
    "I'm looking for a 2-bedroom apartment in Downtown Dubai with Burj Khalifa view";
    "Find me properties in Dubai Hills Estate with private garden";
    "What are the available 4-bedroom houses in Emirates Hills";
    "Show me luxury apartments in Palm Jumeirah with sea view";
    "I need a studio apartment in Dubai Marina under 800k";
    "Find properties with gym and swimming pool amenities";
    "What's available in Jumeirah Village Circle for families" ].

(** [POST /transcribe]; [pick] is the draw of [random.choice]. *)
Definition transcribe_audio (pick : nat) (request : TranscriptionRequest.t)
  : TranscriptionResponse.t :=
  let transcription :=
    nth (Nat.modulo pick (List.length mock_transcriptions))
      mock_transcriptions "" in
  TranscriptionResponse.mk transcription f0_95
    (TranscriptionRequest.language request) f3_2.

Definition dot : Ascii.ascii := Ascii.ascii_of_nat 46.
Definition slash : Ascii.ascii := Ascii.ascii_of_nat 47.

(** The part of a string behind its last [sep], the whole string when
    there is none. *)
Fixpoint after_last (sep : Ascii.ascii) (s : string) : string :=
  match s with
  | EmptyString => EmptyString
  | String c rest =>
      if existsb (Ascii.eqb sep) (list_ascii_of_string rest)
      then after_last sep rest
      else if Ascii.eqb c sep then rest else s
  end.

Fixpoint strip_dots (s : string) : string :=
  match s with
  | String c rest => if Ascii.eqb c dot then strip_dots rest else s
  | EmptyString => EmptyString
  end.

(** [os.path.splitext(p)[1]] for POSIX paths: the part of the last path
    component from its last dot on, the leading dots of the component
    not counting. *)
Definition splitext_ext (p : string) : string :=
  let name := strip_dots (after_last slash p) in
  if existsb (Ascii.eqb dot) (list_ascii_of_string name)
  then String dot (after_last dot name)
  else EmptyString.

(** [POST /upload-audio]; [uuid] is the text of [uuid.uuid4()]. *)
Definition upload_audio_file (uuid : string) (file : Upload.t)
  (files : Files) : result UploadResponse.t * Files :=
  let is_audio :=
    match Upload.content_type file with
    | None => false
    | Some content_type =>
        negb (String.eqb content_type "")
        && String.prefix "audio/" content_type
    end in
  if negb is_audio
  then (Raise (HTTPException 400 "File must be an audio file"), files)
  else
    let file_id := uuid in
    let file_extension := splitext_ext (Upload.filename file) in
    let stored_filename := (file_id ++ file_extension)%string in
    let file_path := ("/app/uploads/" ++ stored_filename)%string in
    let content := Upload.content file in
    (Ok (UploadResponse.mk file_id (Upload.filename file)
           (Z.of_nat (String.length content))),
     write_file files file_path content).

(** [POST /transcribe-file/{file_id}]. *)
Definition transcribe_uploaded_file (file_id : string) (language : string)
  : TranscriptionResponse.t :=
  let mock_transcription :=
    "Show me 3-bedroom villas in Dubai under AED 2 million with swimming pool"
  in
  TranscriptionResponse.mk mock_transcription f0_92 language f4_1.

End AudioTranscription.

(* ================================================================== *)
(** * The response generator: [services/llm_integration/main.py] *)
(* ================================================================== *)

Module LLMIntegration.

Import RagService.

Definition nl : string := String (Ascii.ascii_of_nat 10) EmptyString.
Definition dq : string := String (Ascii.ascii_of_nat 34) EmptyString.

#[local] Set Warnings "-inexact-float".
Definition f0_7 : float := Eval vm_compute in Prim2SF 0.7%float.
Definition f0_92 : float := Eval vm_compute in Prim2SF 0.92%float.
#[local] Set Warnings "+inexact-float".

(** [needle in haystack] on strings. *)
Fixpoint is_in (needle haystack : string) : bool :=
  if String.prefix needle haystack then true
  else match haystack with
       | EmptyString => false
       | String _ rest => is_in needle rest
       end.

(** [str.lower] on text in ASCII.  The handlers take the function as an
    argument, so the statements about them hold for the lowering of the
    running interpreter on any text; this one serves to evaluate them. *)
Definition ascii_lower_char (c : Ascii.ascii) : Ascii.ascii :=
  let n := Ascii.nat_of_ascii c in
  if (Nat.leb 65 n && Nat.leb n 90)%bool
  then Ascii.ascii_of_nat (n + 32) else c.

Fixpoint ascii_lower (s : string) : string :=
  match s with
  | EmptyString => EmptyString
  | String c rest => String (ascii_lower_char c) (ascii_lower rest)
  end.

Module QueryRequest.
Record t : Type := mk
  { query : string; context : option (list Context.t);
    temperature : float; max_tokens : Z }.
(** [QueryRequest(query=q)]. *)
Definition of_query (q : string) : t := mk q (Some []) f0_7 500.
End QueryRequest.

Module QueryResponse.
Record t : Type := mk
  { response : string; model : string; tokens_used : Z; confidence : float }.
End QueryResponse.

Module ChatMessage.
Record t : Type := mk { role : string; content : string }.
End ChatMessage.

Module ChatRequest.
Record t : Type := mk
  { messages : list ChatMessage.t; temperature : float; max_tokens : Z }.
End ChatRequest.

Module ChatResponse.
Record t : Type := mk { response : string; model : string; tokens_used : Z }.
End ChatResponse.

Definition response_villas : string :=
  ("Based on your search for 3-bedroom villas, I found several excellent options:" ++
   nl ++ nl ++ "1. **Luxurious 3BR Villa in Dubai Hills** - AED 1,850,000" ++
   nl ++ "   - 3 bedrooms, 4 bathrooms" ++ nl ++
   "   - 2,500 sq ft with private garden and swimming pool" ++ nl ++
   "   - Golf course views in prestigious Dubai Hills Estate" ++ nl ++ nl ++
   "2. **Modern Villa in Emirates Hills** - AED 2,200,000" ++ nl ++
   "   - 3 bedrooms, 3 bathrooms  " ++ nl ++
   "   - Premium location with luxury amenities" ++ nl ++
   "   - Private swimming pool and garden" ++ nl ++ nl ++
   "These properties match your criteria and offer excellent value in Dubai's premium residential areas.")%string.

Definition response_apartments : string :=
  ("Here are the best 2-bedroom apartments I found:" ++ nl ++ nl ++
   "1. **Modern 2BR Apartment in Downtown Dubai** - AED 1,200,000" ++ nl ++
   "   - Stunning Burj Khalifa views" ++ nl ++
   "   - Premium finishes and world-class amenities" ++ nl ++
   "   - Access to gym, swimming pool, and concierge services" ++ nl ++ nl ++
   "2. **Luxury Apartment in Dubai Marina** - AED 950,000" ++ nl ++
   "   - Marina and sea views" ++ nl ++
   "   - Modern design with high-end appliances" ++ nl ++
   "   - Resort-style amenities" ++ nl ++ nl ++
   "Both properties offer excellent investment potential and lifestyle amenities.")%string.

Definition response_pools : string :=
  ("I found several properties with swimming pools:" ++ nl ++ nl ++
   "1. **Villa in Dubai Hills** - Features private swimming pool and garden" ++
   nl ++
   "2. **Downtown Apartment** - Access to building's luxury pool and spa" ++
   nl ++
   "3. **Marina Residence** - Resort-style pool deck with city views" ++
   nl ++ nl ++
   "All these properties include swimming pool access as part of their premium amenities package.")%string.

Definition response_default (query : string) : string :=
  ("I understand you're looking for properties in Dubai. Based on your query " ++
   dq ++ query ++ dq ++ ", I can help you find suitable options. " ++ nl ++
   nl ++ "Our current inventory includes:" ++ nl ++
   "- Luxury villas in Dubai Hills Estate and Emirates Hills" ++ nl ++
   "- Modern apartments in Downtown Dubai and Dubai Marina  " ++ nl ++
   "- Properties ranging from AED 800K to AED 2.5M" ++ nl ++
   "- Various amenities including swimming pools, gyms, and concierge services" ++
   nl ++ nl ++
   "Would you like me to provide more specific recommendations based on your budget, preferred location, or desired amenities?")%string.

Definition response_greeting : string :=
  ("Hello! I'm here to help you find the perfect property in Dubai. What type of property are you looking for today?")%string.

Definition response_budget : string :=
  ("I'd be happy to help you find properties within your budget. Our current listings range from AED 800,000 for studio apartments to AED 2.5M for luxury villas. What's your preferred price range?")%string.

Definition response_location : string :=
  ("We have excellent properties in several prime Dubai locations including Downtown Dubai, Dubai Marina, Dubai Hills Estate, Emirates Hills, and Palm Jumeirah. Which area interests you most?")%string.

Definition response_thanks : string :=
  ("You're welcome! I'm here whenever you need assistance with your property search. Feel free to ask about specific requirements, financing options, or schedule a viewing.")%string.

(** [POST /process-query].  [lower] is [str.lower] and [randint] is
    [random.randint]. *)
Definition process_query (lower : string -> string) (randint : Z -> Z -> Z)
  (request : QueryRequest.t) : QueryResponse.t :=
  let query_lower := lower (QueryRequest.query request) in
  let response :=
    if (is_in "3-bedroom" query_lower && is_in "villa" query_lower)%bool
    then response_villas
    else if (is_in "2-bedroom" query_lower
             && is_in "apartment" query_lower)%bool
    then response_apartments
    else if is_in "swimming pool" query_lower
    then response_pools
    else response_default (QueryRequest.query request) in
  QueryResponse.mk response "gpt-4-turbo-preview" (randint 150 400) f0_92.

(** [POST /chat]. *)
Definition chat_completion (lower : string -> string)
  (randint : Z -> Z -> Z) (request : ChatRequest.t) : result ChatResponse.t :=
  match rev (ChatRequest.messages request) with
  | [] => Raise (HTTPException 400 "No messages provided")
  | last_message :: _ =>
      if negb (String.eqb (ChatMessage.role last_message) "user")
      then Raise (HTTPException 400 "Last message must be from user")
      else
        let user_message := lower (ChatMessage.content last_message) in
        let response :=
          if existsb (fun word => is_in word user_message)
               [ "hello"; "hi"; "hey" ]
          then response_greeting
          else if is_in "budget" user_message
          then response_budget
          else if is_in "location" user_message
          then response_location
          else if existsb (fun word => is_in word user_message)
                    [ "thank"; "thanks" ]
          then response_thanks
          else
            let query_request :=
              QueryRequest.of_query (ChatMessage.content last_message) in
            let query_response :=
              process_query lower randint query_request in
            QueryResponse.response query_response in
        Ok (ChatResponse.mk response "gpt-4-turbo-preview" (randint 100 300))
  end.

End LLMIntegration.

(* ================================================================== *)
(** * The population script: [scripts/populate_sample_data.py] *)
(* ================================================================== *)

Module PopulateSampleData.

Import RagService.

(** An entry of [sample_data/properties.json], as far as the script
    reads it: the optional [url] and the [title]. *)
Module SampleProperty.
Record t : Type := mk { url : option string; title : string }.
End SampleProperty.

(** The lines that the loop prints, one constructor per [print], with
    the values the line interpolates. *)
Inductive Line : Type :=
| AddedProperty (title : string)
| CreatedEmbedding (property_id : Z)
| FailedEmbedding (property_id : Z)
| FailedProperty (title : string)
| ErrorAdding (title : string) (error : string).

(** The two requests of the script against a deployment with state
    [St]: each raises, or answers with a status and a body, and may
    change the state. *)
Record Http (St : Type) : Type := mkHttp
  { post_scrape : string -> St -> result (Response.t Property.t) * St;
    post_embed :
      Z -> string -> St
      -> result (Response.t VectorDatabase.EmbedResponse.t) * St }.

(** [f"https://example.com/property-{i+1}"]. *)
Definition default_url (i : nat) : string :=
  ("https://example.com/property-"
   ++ NilZero.string_of_uint (Nat.to_uint (i + 1)))%string.

(** The text that is embedded for a listing:
    [f"{title} {description} {location} {property_type}"]. *)
Definition embedding_text (property_data : Property.t) : string :=
  (Property.title property_data ++ " "
   ++ Property.description property_data ++ " "
   ++ Property.location property_data ++ " "
   ++ Property.property_type property_data)%string.

(** The loop [for i, prop in enumerate(properties)] with its [try]
    block; [printed] collects the lines. *)
Fixpoint populate_loop (St : Type) (http : Http St) (i : nat)
  (properties : list SampleProperty.t) (st : St) (printed : list Line)
  : list Line * St :=
  match properties with
  | [] => (printed, st)
  | prop :: rest =>
      let url := match SampleProperty.url prop with
                 | Some u => u
                 | None => default_url i
                 end in
      match post_scrape St http url st with
      | (Raise e, st1) =>
          populate_loop St http (S i) rest st1
            (printed ++ [ErrorAdding (SampleProperty.title prop) (str e)])
      | (Ok response, st1) =>
          if Response.status_code response =? 200
          then
            let property_data := Response.json response in
            let printed1 :=
              printed ++ [AddedProperty (Property.title property_data)] in
            match post_embed St http (Property.id property_data)
                    (embedding_text property_data) st1 with
            | (Raise e, st2) =>
                populate_loop St http (S i) rest st2
                  (printed1
                   ++ [ErrorAdding (SampleProperty.title prop) (str e)])
            | (Ok embed_response, st2) =>
                populate_loop St http (S i) rest st2
                  (printed1
                   ++ [if Response.status_code embed_response =? 200
                       then CreatedEmbedding (Property.id property_data)
                       else FailedEmbedding (Property.id property_data)])
            end
          else
            populate_loop St http (S i) rest st1
              (printed ++ [FailedProperty (SampleProperty.title prop)])
      end
  end.

(** [populate_sample_data()], after the sample file has been read. *)
Definition populate_sample_data (St : Type) (http : Http St)
  (properties : list SampleProperty.t) (st : St) : list Line * St :=
  populate_loop St http 0 properties st [].

End PopulateSampleData.

Import VectorDatabase.
Import RagService.

(* ================================================================== *)
(** * Vocabulary of the statements *)
(* ================================================================== *)

(** [desc a b]: [a] may stand before [b] in a ranking. *)
Definition desc (a b : SearchResult.t) : Prop :=
  fleb (SearchResult.similarity b) (SearchResult.similarity a) = true.

(** [scores ref e r]: [r] is the result entry of row [e] against [ref]. *)
Definition scores (ref : vector) (e : PropertyEmbedding.t)
  (r : SearchResult.t) : Prop :=
  SearchResult.property_id r = PropertyEmbedding.property_id e /\
  SearchResult.text r = PropertyEmbedding.text e /\
  cosine_similarity ref (PropertyEmbedding.embedding e)
    = Some (SearchResult.similarity r).

Definition no_nan (l : list SearchResult.t) : Prop :=
  Forall (fun r => is_nan (SearchResult.similarity r) = false) l.

(** The reference lookup of [find_similar_properties] in the words of
    the specification, "the most recent embedding for [listing_id]": the
    row of that listing that was inserted last.  It is compared below
    with [first_embedding], the lookup of the code. *)
Definition most_recent_embedding (db : Session) (pid : Z)
  : option PropertyEmbedding.t :=
  find (fun e => PropertyEmbedding.property_id e =? pid) (rev (rows db)).

(** The listing that a result entry resolves to: the first listing of
    the fetched collection with the entry's identifier. *)
Definition resolve (properties : list Property.t) (r : SearchResult.t)
  : option Property.t :=
  find (fun p => Property.id p =? SearchResult.property_id r) properties.

(** The join of ranked entries against the fetched collection: in rank
    order, each entry that resolves gives its listing with the entry's
    score, each entry that does not gives nothing. *)
Definition join (results : list SearchResult.t)
  (properties : list Property.t) : list ScoredProperty.t :=
  flat_map (fun r => match resolve properties r with
                     | Some p => [scored p r]
                     | None => []
                     end) results.

(** What steps 1 and 2 of [process_text_query] leave in [properties] and
    [search_results] when the two calls return. *)
Definition fetched_properties (svc : Services) : list Property.t :=
  match get_properties svc with
  | Ok r => if Response.status_code r =? 200 then Response.json r else []
  | Raise _ => []
  end.

Definition fetched_results (svc : Services) (request : QueryRequest.t)
  : list SearchResult.t :=
  match post_search svc (QueryRequest.query request)
          (QueryRequest.max_results request) with
  | Ok r => if Response.status_code r =? 200 then Response.json r else []
  | Raise _ => []
  end.

(** The joined answer of [POST /similarity] for one expanded match. *)
Definition similar_of (svc : Services) (properties : list Property.t)
  (sp : ScoredProperty.t) : list ScoredProperty.t :=
  match post_similarity svc (Property.id (ScoredProperty.prop sp)) 3 with
  | Ok r =>
      if Response.status_code r =? 200
      then join (Response.json r) properties else []
  | Raise _ => []
  end.

Definition similarity_call (sp : ScoredProperty.t) : Call :=
  PostSimilarity (Property.id (ScoredProperty.prop sp)) 3.

(** The matches that step 5 expands. *)
Definition expanded (include_similar : bool)
  (matching_properties : list ScoredProperty.t) : list ScoredProperty.t :=
  if include_similar && negb (Nat.eqb (List.length matching_properties) 0)
  then firstn 2 matching_properties else [].

(** The answer text of a response of the generator that arrived. *)
Definition answer_of (llm : Response.t LLMResult.t) : string :=
  if Response.status_code llm =? 200
  then match LLMResult.response (Response.json llm) with
       | Some r => r
       | None => "No response available"
       end
  else apology.

(** [first_failure svc request cause]: in the text flow for [request],
    [cause] is the exception of the first request that raises, every
    request before it having been answered. *)
Definition first_failure (svc : Services) (request : QueryRequest.t)
  (cause : exn) : Prop :=
  let matching :=
    join (fetched_results svc request) (fetched_properties svc) in
  let context :=
    map (fun sp => context_entry (ScoredProperty.prop sp)) matching in
  let top := expanded (QueryRequest.include_similar request) matching in
  get_properties svc = Raise cause \/
  (exists store, get_properties svc = Ok store) /\
  (post_search svc (QueryRequest.query request)
     (QueryRequest.max_results request) = Raise cause \/
   (exists found,
      post_search svc (QueryRequest.query request)
        (QueryRequest.max_results request) = Ok found) /\
   (post_process_query svc (QueryRequest.query request) context
      = Raise cause \/
    (exists llm,
       post_process_query svc (QueryRequest.query request) context
         = Ok llm) /\
    exists before sp after,
      top = before ++ sp :: after /\
      Forall (fun sp => exists r,
                post_similarity svc (Property.id (ScoredProperty.prop sp)) 3
                  = Ok r) before /\
      post_similarity svc (Property.id (ScoredProperty.prop sp)) 3
        = Raise cause)).

(** [after_transcription svc answer detail cause]: what makes a voice
    handler fail once it has asked for the transcription, [answer] being
    what the transcription stage answered.  The cause is the exception
    of that request; or the handler's own exception with status 400 and
    [detail], for an answer with a status other than 200; or the
    exception with status 500 with which the text flow, run on the
    transcript, has failed. *)
Definition after_transcription (svc : Services)
  (answer : result (Response.t TranscriptionResult.t)) (detail : string)
  (cause : exn) : Prop :=
  answer = Raise cause \/
  exists tr,
    answer = Ok tr /\
    (Response.status_code tr <> 200 /\ cause = HTTPException 400 detail \/
     Response.status_code tr = 200 /\
     exists inner,
       first_failure svc
         (QueryRequest.of_query
            (TranscriptionResult.transcription (Response.json tr))) inner /\
       cause = HTTPException 500
                 ("Error processing query: " ++ str inner)%string).

(** [tied k r]: the similarity of [r] compares equal to [k]. *)
Definition tied (k : float) (r : SearchResult.t) : bool :=
  feqb (SearchResult.similarity r) k.

(** The primary keys of a table are well formed: every key handed out is
    below the next value of the sequence, and no key occurs twice. *)
Definition session_wf (db : Session) : Prop :=
  Forall (fun e => PropertyEmbedding.id e < next_id db) (rows db) /\
  NoDup (map PropertyEmbedding.id (rows db)).

(** [known properties r]: some fetched listing carries the identifier
    of the entry [r]. *)
Definition known (properties : list Property.t) (r : SearchResult.t) : bool :=
  existsb (fun p => Property.id p =? SearchResult.property_id r) properties.

(** [by_score a b]: [a] may stand before [b] among scored listings. *)
Definition by_score (a b : ScoredProperty.t) : Prop :=
  fleb (ScoredProperty.similarity_score b)
    (ScoredProperty.similarity_score a) = true.

(** The primary keys of the listing store are well formed. *)
Definition store_wf (db : WebScraper.Store) : Prop :=
  Forall (fun row => WebScraper.PropertyDB.id row
                     < WebScraper.next_property_id db)
    (WebScraper.properties db) /\
  NoDup (map WebScraper.PropertyDB.id (WebScraper.properties db)).

(** The report of a service that the health aggregation could not reach,
    and of one that answered with another status than 200. *)
Definition unreachable_report (e : exn) : RagHealth.Dict :=
  [ ("status", RagHealth.JStr "unreachable");
    ("error", RagHealth.JStr (str e)) ].

Definition unhealthy_report (code : Z) : RagHealth.Dict :=
  [ ("status", RagHealth.JStr "unhealthy");
    ("error", RagHealth.JStr ("HTTP " ++ str_status code)%string) ].

(** A deployment of the listing store and the embedding index, for the
    population script: the two databases and the number of requests
    received so far. *)
Record Deployment : Type := mkDeployment
  { store : WebScraper.Store; index : Session; requests : nat }.

(** What the script cannot control: whether the model of the index is
    loaded, whether the [n]-th request gets through, and the draws of the
    listing store for it. *)
Record Conditions : Type := mkConditions
  { model : model_t; reachable : nat -> bool;
    pick : nat -> nat; utcnow : nat -> Z }.

(** The status with which the web framework answers an exception. *)
Definition status_of (e : exn) : Z :=
  match e with
  | HTTPException code _ => code
  | _ => 500
  end.

(** The two requests of the population script answered by
    [scrape_property] and [create_embedding]; a request that does not
    get through raises and leaves the databases alone. *)
Definition live (c : Conditions) : PopulateSampleData.Http Deployment :=
  PopulateSampleData.mkHttp Deployment
    (fun url d =>
       let n := requests d in
       if reachable c n
       then
         let '(listing, store') :=
           WebScraper.scrape_property (pick c n) (utcnow c n)
             (WebScraper.ScrapeRequest.mk url) (store d) in
         (Ok (Response.mk 200 listing), mkDeployment store' (index d) (S n))
       else (Raise (TransportError "All connection attempts failed"),
             mkDeployment (store d) (index d) (S n)))
    (fun property_id text d =>
       let n := requests d in
       if reachable c n
       then
         match create_embedding (model c) (EmbedRequest.mk property_id text)
                 (index d) with
         | (Ok response, index') =>
             (Ok (Response.mk 200 response),
              mkDeployment (store d) index' (S n))
         | (Raise e, index') =>
             (Ok (Response.mk (status_of e)
                    (EmbedResponse.mk property_id 0 0)),
              mkDeployment (store d) index' (S n))
         end
       else (Raise (TransportError "All connection attempts failed"),
             mkDeployment (store d) (index d) (S n))).

(** [embedded_from encode listing row]: [row] is the embedding of
    [listing] as the script requests it. *)
Definition embedded_from (listing : WebScraper.PropertyDB.t)
  (row : PropertyEmbedding.t) : Prop :=
  PropertyEmbedding.property_id row = WebScraper.PropertyDB.id listing /\
  PropertyEmbedding.text row
    = PopulateSampleData.embedding_text (WebScraper.to_model listing).

(** The upload as the orchestrator forwards it to the transcription
    stage, [files = {"file": (file.filename, content, file.content_type)}]
    posted by [httpx] as a multipart part.  Name and content go as they
    are.  The content type goes as it is when the file has one; when it
    has none, [httpx] fills in the type that [mimetypes.guess_type] finds
    for the file name, ["application/octet-stream"] when it finds none,
    and sends the part without a type when there is no name either.
    [guess_type] stands for the library function. *)
Definition forwarded (guess_type : string -> option string)
  (file : UploadFile.t) : AudioTranscription.Upload.t :=
  AudioTranscription.Upload.mk (UploadFile.filename file)
    (UploadFile.content file)
    (match UploadFile.content_type file with
     | Some content_type => Some content_type
     | None =>
         if String.eqb (UploadFile.filename file) "" then None
         else Some (match guess_type (UploadFile.filename file) with
                    | Some guessed => guessed
                    | None => "application/octet-stream"
                    end)
     end).

(** The part of a transcription response that the orchestrator reads. *)
Definition transcription_read (r : AudioTranscription.TranscriptionResponse.t)
  : TranscriptionResult.t :=
  TranscriptionResult.mk
    (AudioTranscription.TranscriptionResponse.transcription r)
    (AudioTranscription.TranscriptionResponse.confidence r).

(** The file [path] of the upload directory. *)
Definition read_file (files : AudioTranscription.Files) (path : string)
  : option string :=
  RagHealth.dict_get string files path.

(** Concrete inputs on which the statements are evaluated. *)
Module Examples.

(** A deterministic encoder with three values. *)
Definition encode_ex (s : string) : vector :=
  if String.eqb s "T" then [f1; f1]
  else if String.eqb s "W" then [f3; f3]
  else [f1; f0].

Definition db_empty : Session := mkSession [] 1.

(** The index after [POST /embed] for listing 7 with text ["W"], and then
    for listing 8 with text ["T"]. *)
Definition db_W : Session :=
  snd (create_embedding (Some encode_ex) (EmbedRequest.mk 7 "W") db_empty).

Definition db_WT : Session :=
  snd (create_embedding (Some encode_ex) (EmbedRequest.mk 8 "T") db_W).

(** An index in which listing 2 has an embedding. *)
Definition db_listing2 : Session :=
  mkSession [PropertyEmbedding.mk 1 2 "Luxury apartment" [f1; f0]] 2.

(** An index in which listing 1 was embedded twice, with another listing
    in between. *)
Definition db_twice : Session :=
  mkSession
    [ PropertyEmbedding.mk 1 1 "first text" [f1; f0];
      PropertyEmbedding.mk 2 2 "other listing" [f1; f0];
      PropertyEmbedding.mk 3 1 "second text" [f0; f1] ] 4.

(** How a FastAPI service answers the outcome of a handler. *)
Definition serve {A : Type} (r : result A) (empty : A)
  : result (Response.t A) :=
  match r with
  | Ok a => Ok (Response.mk 200 a)
  | Raise (HTTPException code _) => Ok (Response.mk code empty)
  | Raise _ => Ok (Response.mk 500 empty)
  end.

Definition listing (id : Z) (title : string) : Property.t :=
  Property.mk id title f1 "AED" 3 2 f1 "villa" "Dubai" title [] None.

Definition listings : list Property.t :=
  [ listing 1 "Villa with pool"; listing 2 "Downtown apartment";
    listing 3 "Hills villa" ].

(** An index that holds one embedding for each of the listings 1, 2, 3. *)
Definition db_three : Session :=
  mkSession
    [ PropertyEmbedding.mk 1 1 "Villa with pool" [f1; f0];
      PropertyEmbedding.mk 2 2 "Downtown apartment" [f1; f1];
      PropertyEmbedding.mk 3 3 "Hills villa" [f3; f1] ] 4.

(** A deployment in which every service answers; the embedding index
    runs without its model. *)
Definition svc_up : Services :=
  mkServices
    (Ok (Response.mk 200 listings))
    (fun q limit =>
       serve (search_properties None (SearchRequest.mk q limit) db_three) [])
    (fun q context =>
       Ok (Response.mk 200 (LLMResult.mk (Some "Here are the best options."))))
    (fun pid limit =>
       serve (find_similar_properties None (SimilarityRequest.mk pid limit)
                db_three) [])
    (fun file => Ok (Response.mk 200 (UploadResult.mk "file-1")))
    (fun file_id =>
       Ok (Response.mk 200 (TranscriptionResult.mk "villa with pool" f0_95)))
    (Ok (Response.mk 200 (TranscriptionResult.mk "villa with pool" f0_95)))
    (fun n => if Nat.eqb n 0 then f0 else f1).

(** The same deployment with the listing store unreachable, and with the
    listing store answering 503. *)
Definition with_store (store : result (Response.t (list Property.t)))
  : Services :=
  mkServices store (post_search svc_up) (post_process_query svc_up)
    (post_similarity svc_up) (post_upload_audio svc_up)
    (post_transcribe_file svc_up) (post_transcribe svc_up)
    (time_time svc_up).

Definition svc_store_unreachable : Services :=
  with_store (Raise (TransportError "All connection attempts failed")).

Definition svc_store_503 : Services :=
  with_store (Ok (Response.mk 503 [])).

(** The same deployment with the upload of the audio rejected. *)
Definition svc_upload_rejected : Services :=
  mkServices (get_properties svc_up) (post_search svc_up)
    (post_process_query svc_up) (post_similarity svc_up)
    (fun file => Ok (Response.mk 400 (UploadResult.mk "")))
    (post_transcribe_file svc_up) (post_transcribe svc_up)
    (time_time svc_up).

(** A fetched collection in which identifier 1 occurs twice, and a search
    answer whose second entry belongs to no fetched listing. *)
Definition listings_dup : list Property.t :=
  [ listing 1 "Villa with pool"; listing 1 "Villa, listed again";
    listing 2 "Downtown apartment" ].

Definition ranked_stale : list SearchResult.t :=
  [ SearchResult.mk 2 "Downtown apartment" f0_95;
    SearchResult.mk 9 "Removed listing" f0_87;
    SearchResult.mk 1 "Villa with pool" f0_82 ].

Definition query_villa : QueryRequest.t :=
  QueryRequest.mk "villa with pool" true 5.

Definition audio : UploadFile.t :=
  UploadFile.mk "query.wav" "RIFF" (Some "audio/wav").

End Examples.

(** Further concrete inputs. *)
Module MoreExamples.

Import Examples.

(** The deployment of [svc_up] with the response generator of the
    repository behind [POST /process-query]. *)
Definition generate (q : string) (context : list Context.t)
  : result (Response.t LLMResult.t) :=
  Ok (Response.mk 200
        (LLMResult.mk
           (Some (LLMIntegration.QueryResponse.response
                    (LLMIntegration.process_query LLMIntegration.ascii_lower
                       (fun low high => low)
                       (LLMIntegration.QueryRequest.mk q (Some context)
                          LLMIntegration.f0_7 500)))))).

Definition svc_generated : Services :=
  mkServices (get_properties svc_up) (post_search svc_up) generate
    (post_similarity svc_up) (post_upload_audio svc_up)
    (post_transcribe_file svc_up) (post_transcribe svc_up)
    (time_time svc_up).

(** A store that holds the two mock listings. *)
Definition store_two : WebScraper.Store :=
  snd (WebScraper.scrape_property 1 20 (WebScraper.ScrapeRequest.mk "https://example.com/property-2")
         (snd (WebScraper.scrape_property 0 10
                 (WebScraper.ScrapeRequest.mk "https://example.com/property-1")
                 (WebScraper.mkStore [] 1)))).

(** A guess of the content type from the file name, as an interpreter
    may make it. *)
Definition guess_ex (name : string) : option string :=
  if String.eqb name "query.wav" then Some "audio/x-wav" else None.

(** The deployment of [svc_up] with the transcription stage of the
    repository behind the upload and the two transcription requests. *)
Definition upload (file : UploadFile.t)
  : result (Response.t UploadResult.t) :=
  match AudioTranscription.upload_audio_file "file-1"
          (forwarded guess_ex file) [] with
  | (Ok r, _) =>
      Ok (Response.mk 200
            (UploadResult.mk (AudioTranscription.UploadResponse.file_id r)))
  | (Raise e, _) => Ok (Response.mk (status_of e) (UploadResult.mk ""))
  end.

Definition svc_voice : Services :=
  mkServices (get_properties svc_up) (post_search svc_up)
    (post_process_query svc_up) (post_similarity svc_up) upload
    (fun file_id =>
       Ok (Response.mk 200
             (transcription_read
                (AudioTranscription.transcribe_uploaded_file file_id "en"))))
    (Ok (Response.mk 200
           (transcription_read
              (AudioTranscription.transcribe_audio 3
                 (AudioTranscription.TranscriptionRequest.mk None "en")))))
    (time_time svc_up).

Definition document : UploadFile.t :=
  UploadFile.mk "query.pdf" "%PDF" (Some "application/pdf").

(** A recording that arrived without a content type. *)
Definition recording_untyped : UploadFile.t :=
  UploadFile.mk "query.wav" "RIFF" None.

(** The deployment of [svc_up] with the search answering 503, and with
    the search served by the embedding index with its model loaded. *)
Definition svc_search_503 : Services :=
  mkServices (get_properties svc_up)
    (fun q limit => Ok (Response.mk 503 []))
    (post_process_query svc_up) (post_similarity svc_up)
    (post_upload_audio svc_up) (post_transcribe_file svc_up)
    (post_transcribe svc_up) (time_time svc_up).

Definition svc_indexed : Services :=
  mkServices (get_properties svc_up)
    (fun q limit =>
       serve (search_properties (Some encode_ex) (SearchRequest.mk q limit)
                db_three) [])
    (post_process_query svc_up) (post_similarity svc_up)
    (post_upload_audio svc_up) (post_transcribe_file svc_up)
    (post_transcribe svc_up) (time_time svc_up).

(** The input of the population script: two samples, the second without
    an address; and an empty deployment. *)
Definition samples : list PopulateSampleData.SampleProperty.t :=
  [ PopulateSampleData.SampleProperty.mk
      (Some "https://example.com/villa") "Villa with pool";
    PopulateSampleData.SampleProperty.mk None "Downtown apartment" ].

Definition deployment0 : Deployment :=
  mkDeployment (WebScraper.mkStore [] 1) db_empty 0.

Definition conditions_up : Conditions :=
  mkConditions (Some encode_ex) (fun n => true) (fun n => n)
    (fun n => Z.of_nat n).

Definition conditions_no_model : Conditions :=
  mkConditions None (fun n => true) (fun n => n) (fun n => Z.of_nat n).

End MoreExamples.

(* ================================================================== *)
(** * Facts about binary64 comparison and division *)
(* ================================================================== *)

Section FloatFacts.

Lemma SFcompare_antisym (x y : float) :
  SFcompare y x = option_map CompOpp (SFcompare x y).
Proof.
  destruct x as [sx|sx| |sx mx ex], y as [sy|sy| |sy my ey]; simpl;
    try destruct sx; try destruct sy; simpl; try reflexivity;
    rewrite (Z.compare_antisym ex ey);
    destruct (ex ?= ey); simpl; try reflexivity;
    rewrite ?CompOpp_involutive, ?(Pos.compare_cont_antisym mx my Eq),
      ?(Pos.compare_cont_antisym my mx Eq); reflexivity.
Qed.

Lemma fltb_fleb (x y : float) : fltb x y = true -> fleb x y = true.
Proof.
  unfold fltb, fleb, SFltb, SFleb.
  destruct (SFcompare x y) as [[ | | ]|]; congruence.
Qed.

Lemma SFcompare_not_nan (x y : float) :
  is_nan x = false -> is_nan y = false -> exists c, SFcompare x y = Some c.
Proof.
  destruct x, y; simpl; intros; try discriminate; eexists; reflexivity.
Qed.

(** Without NaN, "not smaller" is "greater or equal". *)
Lemma fltb_false_fleb (x y : float) :
  is_nan x = false -> is_nan y = false ->
  fltb x y = false -> fleb y x = true.
Proof.
  intros Hx Hy. unfold fltb, fleb, SFltb, SFleb.
  rewrite (SFcompare_antisym x y).
  destruct (SFcompare_not_nan x y Hx Hy) as [c ->].
  destruct c; simpl; congruence.
Qed.

Lemma fleb_not_nan (x y : float) :
  fleb x y = true -> is_nan x = false /\ is_nan y = false.
Proof.
  destruct x, y; simpl; auto; discriminate.
Qed.

Lemma fleb_refl (x : float) : is_nan x = false -> fleb x x = true.
Proof.
  destruct x as [s|s| |s m e]; simpl; try discriminate; intros _;
    unfold fleb, SFleb; simpl; try destruct s; try reflexivity;
    rewrite Z.compare_refl;
    change (Pos.compare_cont Eq m m) with (Pos.compare m m);
    rewrite Pos.compare_refl; reflexivity.
Qed.

Ltac order_cases :=
  repeat match goal with
    | |- context [Z.compare ?a ?b] =>
        destruct (Z.compare_spec a b); subst; simpl
    | |- context [Pos.compare_cont Eq ?a ?b] =>
        change (Pos.compare_cont Eq a b) with (Pos.compare a b);
        destruct (Pos.compare_spec a b); subst; simpl
    | H : context [Z.compare ?a ?b] |- _ =>
        destruct (Z.compare_spec a b); subst; simpl in H
    | H : context [Pos.compare_cont Eq ?a ?b] |- _ =>
        change (Pos.compare_cont Eq a b) with (Pos.compare a b) in H;
        destruct (Pos.compare_spec a b); subst; simpl in H
    end;
  try reflexivity; try discriminate; try lia.

Lemma fleb_trans (x y z : float) :
  fleb x y = true -> fleb y z = true -> fleb x z = true.
Proof.
  unfold fleb, SFleb.
  destruct x as [sx|sx| |sx mx ex], y as [sy|sy| |sy my ey],
    z as [sz|sz| |sz mz ez]; simpl;
    try destruct sx; try destruct sy; try destruct sz; simpl;
    try reflexivity; try discriminate; intros H1 H2; order_cases.
Qed.

(** Two floats that are below each other compare equal. *)
Lemma fleb_antisym_feqb (x y : float) :
  fleb x y = true -> fleb y x = true -> feqb x y = true.
Proof.
  unfold fleb, feqb, SFleb, SFeqb. rewrite (SFcompare_antisym x y).
  destruct (SFcompare x y) as [[ | | ]|]; simpl; congruence.
Qed.

(** A quotient by zero or by NaN is never a finite number. *)
Lemma fdiv_by_zero (x d : float) :
  is_zero d = true -> is_finite (fdiv x d) = false.
Proof.
  destruct d; simpl; try discriminate; intros _.
  destruct x; reflexivity.
Qed.

Lemma fdiv_by_nan (x d : float) :
  is_nan d = true -> is_finite (fdiv x d) = false.
Proof.
  destruct d; simpl; try discriminate; intros _.
  destruct x; reflexivity.
Qed.

Lemma fmul_zero_l (a b : float) :
  is_zero a = true ->
  (is_finite b = true -> is_zero (fmul a b) = true) /\
  (is_zero (fmul a b) = true \/ is_nan (fmul a b) = true).
Proof.
  destruct a; simpl; try discriminate; intros _.
  destruct b; simpl; split; auto; discriminate.
Qed.

Lemma fmul_zero_r (a b : float) :
  is_zero b = true ->
  (is_finite a = true -> is_zero (fmul a b) = true) /\
  (is_zero (fmul a b) = true \/ is_nan (fmul a b) = true).
Proof.
  destruct b; simpl; try discriminate; intros _.
  destruct a; simpl; split; auto; discriminate.
Qed.

Lemma feqb_fleb (x k : float) :
  feqb x k = true -> fleb x k = true /\ fleb k x = true.
Proof.
  unfold feqb, fleb, SFeqb, SFleb. rewrite (SFcompare_antisym x k).
  destruct (SFcompare x k) as [[ | | ]|]; simpl; intros H;
    try discriminate; auto.
Qed.

Lemma fltb_not_fleb (x y : float) : fltb x y = true -> fleb y x = false.
Proof.
  unfold fltb, fleb, SFltb, SFleb. rewrite (SFcompare_antisym x y).
  destruct (SFcompare x y) as [[ | | ]|]; simpl; intros H;
    try discriminate; reflexivity.
Qed.

Lemma fltb_feqb_apart (x y k : float) :
  fltb x y = true -> feqb x k = true -> feqb y k = false.
Proof.
  intros Hlt Hx. destruct (feqb y k) eqn:Hy; [|reflexivity].
  apply feqb_fleb in Hx. apply feqb_fleb in Hy.
  destruct Hx as [_ Hkx], Hy as [Hyk _].
  pose proof (fleb_trans _ _ _ Hyk Hkx) as Hyx.
  rewrite (fltb_not_fleb _ _ Hlt) in Hyx. discriminate.
Qed.

Lemma feqb_refl (x : float) : is_nan x = false -> feqb x x = true.
Proof.
  intros Hx. apply fleb_antisym_feqb; apply fleb_refl, Hx.
Qed.

Lemma fltb_not_nan (x y : float) :
  fltb x y = true -> is_nan x = false /\ is_nan y = false.
Proof. intros H. apply fleb_not_nan, fltb_fleb, H. Qed.



Lemma fleb_fltb_trans (x y z : float) :
  fleb x y = true -> fltb y z = true -> fltb x z = true.
Proof.
  intros Hxy Hyz. destruct (fltb x z) eqn:Hxz; [reflexivity|].
  destruct (fleb_not_nan _ _ Hxy) as [Hx _].
  destruct (fltb_not_nan _ _ Hyz) as [_ Hz].
  pose proof (fltb_false_fleb _ _ Hx Hz Hxz) as Hzx.
  pose proof (fleb_trans _ _ _ Hzx Hxy) as Hzy.
  rewrite (fltb_not_fleb _ _ Hyz) in Hzy. discriminate.
Qed.

End FloatFacts.

(* ================================================================== *)
(** * Slices, the descending sort and the scoring loop *)
(* ================================================================== *)

Section ListFacts.

Variable A : Type.

Lemma slice_to_nonneg (l : list A) (stop : Z) :
  0 <= stop -> slice_to l stop = firstn (Z.to_nat stop) l.
Proof.
  intros H. unfold slice_to.
  destruct (Z.ltb_spec stop 0); [lia | reflexivity].
Qed.

Lemma slice_to_prefix (l : list A) (stop : Z) :
  exists n, slice_to l stop = firstn n l.
Proof.
  unfold slice_to. destruct (stop <? 0); eexists; reflexivity.
Qed.

Lemma slice_to_length (l : list A) (stop : Z) :
  0 <= stop -> (List.length (slice_to l stop) <= Z.to_nat stop)%nat.
Proof.
  intros H. rewrite slice_to_nonneg by assumption. apply firstn_le_length.
Qed.

Lemma In_firstn (n : nat) (l : list A) (x : A) :
  In x (firstn n l) -> In x l.
Proof.
  revert l. induction n as [|n IH]; intros [|y l]; simpl; try tauto.
  intros [H|H]; [left; exact H | right; apply IH, H].
Qed.

Lemma slice_to_In (l : list A) (stop : Z) (x : A) :
  In x (slice_to l stop) -> In x l.
Proof.
  destruct (slice_to_prefix l stop) as [n ->]. apply In_firstn.
Qed.


Lemma StronglySorted_firstn (R : A -> A -> Prop) (n : nat) (l : list A) :
  StronglySorted R l -> StronglySorted R (firstn n l).
Proof.
  revert l. induction n as [|n IH]; intros l Hl; simpl.
  - constructor.
  - destruct l as [|x l]; [constructor|].
    inversion Hl as [|? ? Hs Hall]; subst. constructor.
    + apply IH, Hs.
    + rewrite Forall_forall in *. intros y Hy.
      apply Hall. eapply In_firstn, Hy.
Qed.

End ListFacts.

Section Ranking.

Lemma desc_trans (a b c : SearchResult.t) : desc a b -> desc b c -> desc a c.
Proof. unfold desc. intros Hab Hbc. eapply fleb_trans; eassumption. Qed.

Lemma insert_desc_perm (x : SearchResult.t) (l : list SearchResult.t) :
  Permutation (x :: l) (insert_desc x l).
Proof.
  induction l as [|y l IH]; simpl.
  - apply Permutation_refl.
  - destruct (fltb _ _).
    + eapply perm_trans; [apply perm_swap|]. apply perm_skip, IH.
    + apply Permutation_refl.
Qed.

Lemma sort_desc_perm (l : list SearchResult.t) :
  Permutation l (sort_desc l).
Proof.
  induction l as [|x l IH]; simpl.
  - constructor.
  - eapply perm_trans; [apply perm_skip, IH|]. apply insert_desc_perm.
Qed.

Lemma insert_desc_sorted (x : SearchResult.t) (l : list SearchResult.t) :
  is_nan (SearchResult.similarity x) = false -> no_nan l ->
  StronglySorted desc l -> StronglySorted desc (insert_desc x l).
Proof.
  intros Hx. induction l as [|y l IH]; intros Hn Hs; simpl.
  - repeat constructor.
  - inversion Hn as [|? ? Hy Hn']; subst.
    inversion Hs as [|? ? Hs' Hall]; subst.
    destruct (fltb (SearchResult.similarity x) (SearchResult.similarity y))
      eqn:Hlt.
    + constructor; [apply IH; assumption|].
      eapply Permutation_Forall; [apply insert_desc_perm|].
      constructor; [|assumption]. apply fltb_fleb, Hlt.
    + assert (Hxy : desc x y) by (apply fltb_false_fleb; assumption).
      constructor; [assumption|]. constructor; [assumption|].
      eapply Forall_impl; [|exact Hall]. intros z. apply desc_trans, Hxy.
Qed.

Lemma sort_desc_sorted (l : list SearchResult.t) :
  no_nan l -> StronglySorted desc (sort_desc l).
Proof.
  induction l as [|x l IH]; intros Hn; simpl.
  - constructor.
  - inversion Hn; subst. apply insert_desc_sorted; auto.
    eapply Permutation_Forall; [apply sort_desc_perm|]. assumption.
Qed.

Lemma insert_desc_ties (k : float) (x : SearchResult.t)
  (l : list SearchResult.t) :
  filter (tied k) (insert_desc x l) = filter (tied k) (x :: l).
Proof.
  induction l as [|y l IH]; [reflexivity|].
  cbn [insert_desc].
  destruct (fltb (SearchResult.similarity x) (SearchResult.similarity y))
    eqn:Hlt; [|reflexivity].
  cbn [filter] in *. rewrite IH.
  destruct (tied k x) eqn:Hx; [|reflexivity].
  unfold tied in *. rewrite (fltb_feqb_apart _ _ _ Hlt Hx). reflexivity.
Qed.

Lemma sort_desc_ties (k : float) (l : list SearchResult.t) :
  filter (tied k) (sort_desc l) = filter (tied k) l.
Proof.
  induction l as [|x l IH]; [reflexivity|].
  cbn [sort_desc fold_right]. fold (sort_desc l).
  rewrite insert_desc_ties. cbn [filter]. rewrite IH. reflexivity.
Qed.




(** On keys without NaN there is one stable descending arrangement of a
    list: two sorted permutations in which the entries of every key keep
    one order are the same list. *)
Lemma stable_sort_unique (l1 l2 : list SearchResult.t) :
  no_nan l1 -> Permutation l1 l2 ->
  StronglySorted desc l1 -> StronglySorted desc l2 ->
  (forall k, filter (tied k) l1 = filter (tied k) l2) ->
  l1 = l2.
Proof.
  revert l2. induction l1 as [|x l1 IH]; intros l2 Hn Hp H1 H2 Ht.
  - apply Permutation_nil in Hp. auto.
  - destruct l2 as [|y l2].
    { apply Permutation_sym, Permutation_nil in Hp. discriminate. }
    inversion Hn as [|? ? Hx Hn']; subst.
    inversion H1 as [|? ? H1' Hx1]; subst.
    inversion H2 as [|? ? H2' Hy2]; subst.
    assert (Heq : x = y).
    { assert (Hyx : fleb (SearchResult.similarity y)
                      (SearchResult.similarity x) = true).
      { assert (Hin : In y (x :: l1)).
        { eapply Permutation_in; [apply Permutation_sym, Hp|].
          left. reflexivity. }
        destruct Hin as [->|Hin]; [apply fleb_refl, Hx|].
        rewrite Forall_forall in Hx1. apply (Hx1 _ Hin). }
      assert (Hxy : fleb (SearchResult.similarity x)
                      (SearchResult.similarity y) = true).
      { assert (Hin : In x (y :: l2)).
        { eapply Permutation_in; [exact Hp|]. left. reflexivity. }
        destruct Hin as [->|Hin]; [apply fleb_refl, Hx|].
        rewrite Forall_forall in Hy2. apply (Hy2 _ Hin). }
      pose proof (Ht (SearchResult.similarity x)) as Hk.
      cbn [filter] in Hk. unfold tied in Hk.
      rewrite (feqb_refl _ Hx), (fleb_antisym_feqb _ _ Hyx Hxy) in Hk.
      injection Hk as Hk _. exact Hk. }
    subst y. f_equal. apply IH; auto.
    + eapply Permutation_cons_inv, Hp.
    + intros k. specialize (Ht k). cbn [filter] in Ht.
      destruct (tied k x); [injection Ht; auto|exact Ht].
Qed.

Lemma score_rows_ok (ref : vector) (embeddings : list PropertyEmbedding.t) :
  forall acc results,
    score_rows ref embeddings acc = Ok results ->
    exists scored,
      results = acc ++ scored /\ Forall2 (scores ref) embeddings scored.
Proof.
  induction embeddings as [|e rest IH]; intros acc results H; simpl in H.
  - injection H as <-. exists []. rewrite app_nil_r. split; constructor.
  - destruct (cosine_similarity ref (PropertyEmbedding.embedding e))
      as [s|] eqn:Hs; [|discriminate].
    destruct (IH _ _ H) as (scored & -> & Hall).
    eexists (_ :: scored). rewrite <- app_assoc. split; [reflexivity|].
    constructor; [|assumption]. repeat split; simpl; assumption.
Qed.

Lemma score_rows_total (ref : vector) (embeddings : list PropertyEmbedding.t) :
  Forall (fun e => exists s,
            cosine_similarity ref (PropertyEmbedding.embedding e) = Some s)
    embeddings ->
  forall acc, exists results, score_rows ref embeddings acc = Ok results.
Proof.
  induction 1 as [|e rest [s Hs] _ IH]; intros acc; simpl.
  - eexists; reflexivity.
  - rewrite Hs. apply IH.
Qed.

Lemma scores_no_nan (ref : vector) (embeddings : list PropertyEmbedding.t)
  (scored : list SearchResult.t) :
  Forall (fun e => exists s,
            cosine_similarity ref (PropertyEmbedding.embedding e) = Some s /\
            is_nan s = false) embeddings ->
  Forall2 (scores ref) embeddings scored -> no_nan scored.
Proof.
  intros Hall H2. induction H2 as [|e r es rs (_ & _ & Hr) _ IH].
  - constructor.
  - inversion Hall as [|? ? (s & Hs & Hnan) Hall']; subst.
    constructor; [|apply IH, Hall']. congruence.
Qed.



Lemma mock_results_sorted :
  StronglySorted desc search_mock_results /\
  StronglySorted desc similarity_mock_results.
Proof. split; repeat constructor. Qed.

End Ranking.

(* ================================================================== *)
(** * The embedding index *)
(* ================================================================== *)

(** C2.  [search_properties] with a limit that is not negative: an answer
    has at most [limit] entries.  When moreover the similarity of every
    stored row to the encoded query is a number (defined, not NaN), the
    call returns and every entry of the answer is ranked at or above all
    entries behind it.  With the model loaded the entries are the first
    [limit] of a descending arrangement of one scored entry per stored
    row; without it they are a prefix of the fixed result set. *)
Theorem search_properties_ranked (model : model_t) (request : SearchRequest.t)
  (db : Session) :
  0 <= SearchRequest.limit request ->
  (forall results,
     search_properties model request db = Ok results ->
     (List.length results <= Z.to_nat (SearchRequest.limit request))%nat) /\
  ((forall encode, model = Some encode ->
      Forall (fun e => exists s,
                cosine_similarity (encode (SearchRequest.query request))
                  (PropertyEmbedding.embedding e) = Some s /\
                is_nan s = false) (rows db)) ->
   exists results,
     search_properties model request db = Ok results /\
     StronglySorted desc results /\
     (forall encode, model = Some encode ->
        exists scored ranked,
          Forall2 (scores (encode (SearchRequest.query request)))
            (rows db) scored /\
          Permutation scored ranked /\
          StronglySorted desc ranked /\
          results = firstn (Z.to_nat (SearchRequest.limit request)) ranked)).
Proof.
  intros Hlimit. unfold search_properties. split.
  { intros results H. destruct model as [encode|].
    - destruct (score_rows _ _ _) as [scored|]; [|discriminate].
      injection H as <-. apply slice_to_length, Hlimit.
    - injection H as <-. apply slice_to_length, Hlimit. }
  intros Hnum. destruct model as [encode|].
  - specialize (Hnum encode eq_refl).
    set (q := encode (SearchRequest.query request)) in *.
    assert (Hdef : Forall (fun e => exists s,
              cosine_similarity q (PropertyEmbedding.embedding e) = Some s)
              (rows db)).
    { eapply Forall_impl; [|exact Hnum]. intros e (s & Hs & _). eauto. }
    destruct (score_rows_total q (rows db) Hdef []) as [scored Hscored].
    rewrite Hscored.
    destruct (score_rows_ok _ _ _ _ Hscored) as (scored' & Heq & Hall).
    simpl in Heq. subst scored'.
    assert (Hsorted : StronglySorted desc (sort_desc scored)).
    { apply sort_desc_sorted. eapply scores_no_nan; eassumption. }
    eexists. split; [reflexivity|]. split.
    + rewrite slice_to_nonneg by assumption.
      apply StronglySorted_firstn, Hsorted.
    + intros encode' Heq. injection Heq as <-.
      exists scored, (sort_desc scored).
      repeat split; auto using sort_desc_perm, slice_to_nonneg.
  - eexists. split; [reflexivity|]. split.
    + rewrite slice_to_nonneg by assumption.
      apply StronglySorted_firstn, mock_results_sorted.
    + intros encode Heq. discriminate.
Qed.

(** C5.  [create_embedding]: without a model it raises the 503
    "Embedding model not available" and leaves the table as it was; with
    a model it appends exactly one row, which holds the request's listing,
    text and encoded vector under the next primary key, and answers with
    that key and the length of the vector. *)
Theorem create_embedding_spec (request : EmbedRequest.t) (db : Session) :
  create_embedding None request db
    = (Raise (HTTPException 503 "Embedding model not available"), db) /\
  forall encode,
    exists row db',
      create_embedding (Some encode) request db
        = (Ok (EmbedResponse.mk (EmbedRequest.property_id request)
                 (PropertyEmbedding.id row)
                 (Z.of_nat (List.length (PropertyEmbedding.embedding row)))),
           db') /\
      row = PropertyEmbedding.mk (next_id db)
              (EmbedRequest.property_id request)
              (EmbedRequest.text request)
              (encode (EmbedRequest.text request)) /\
      rows db' = rows db ++ [row] /\
      next_id db' = next_id db + 1.
Proof.
  split; [reflexivity|]. intros encode.
  exists (PropertyEmbedding.mk (next_id db) (EmbedRequest.property_id request)
            (EmbedRequest.text request) (encode (EmbedRequest.text request))).
  eexists. unfold create_embedding. simpl.
  split; [reflexivity|]. repeat split.
Qed.

Lemma np_dot_defined (a b : vector) :
  List.length a = List.length b -> exists d, np_dot a b = Some d.
Proof.
  unfold np_dot. generalize f0. revert b.
  induction a as [|x a IH]; intros [|y b] acc Hlen; simpl in *;
    try discriminate.
  - eexists; reflexivity.
  - apply IH. congruence.
Qed.

Lemma dot_from_none (a b : vector) :
  forall acc, dot_from acc a b = None <-> List.length a <> List.length b.
Proof.
  revert b. induction a as [|x a IH]; intros [|y b] acc; simpl.
  - split; [discriminate | congruence].
  - split; [discriminate | reflexivity].
  - split; [discriminate | reflexivity].
  - rewrite IH. split; intros H; congruence.
Qed.

Lemma cosine_similarity_none (a b : vector) :
  cosine_similarity a b = None <-> List.length a <> List.length b.
Proof.
  unfold cosine_similarity, np_dot. rewrite <- (dot_from_none a b f0).
  destruct (dot_from f0 a b); split; congruence.
Qed.

Lemma Forall2_In_l (A B : Type) (R : A -> B -> Prop) (l : list A)
  (l' : list B) (x : A) :
  Forall2 R l l' -> In x l -> exists y, In y l' /\ R x y.
Proof.
  induction 1 as [|a b l l' Hab _ IH]; simpl; [tauto|].
  intros [->|Hin].
  - exists b. auto.
  - destruct (IH Hin) as (y & Hy & Hr). exists y. auto.
Qed.

Lemma Forall2_In_r (A B : Type) (R : A -> B -> Prop) (l : list A)
  (l' : list B) (y : B) :
  Forall2 R l l' -> In y l' -> exists x, In x l /\ R x y.
Proof.
  induction 1 as [|a b l l' Hab _ IH]; simpl; [tauto|].
  intros [->|Hin].
  - exists a. auto.
  - destruct (IH Hin) as (x & Hx & Hr). exists x. auto.
Qed.

Lemma find_absent (A : Type) (f : A -> bool) (l : list A) :
  (forall x, In x l -> f x = false) -> find f l = None.
Proof.
  induction l as [|y l IH]; simpl; intros H; [reflexivity|].
  rewrite (H y) by auto. apply IH. auto.
Qed.

Lemma score_rows_raises (ref : vector) (embeddings : list PropertyEmbedding.t) :
  forall acc e,
    score_rows ref embeddings acc = Raise e ->
    e = ValueError "shapes not aligned".
Proof.
  induction embeddings as [|emb rest IH]; intros acc e H; simpl in H.
  - discriminate.
  - destruct (cosine_similarity ref (PropertyEmbedding.embedding emb)).
    + eapply IH, H.
    + congruence.
Qed.

(** C10, as the code has it.  [cosine_similarity] forms the quotient
    without a test on the divisor, and the division does not raise: the
    call returns exactly when the two vectors have one length, whatever
    their norms, so the function is total on such pairs with no
    precondition on the norms, and what it returns is the quotient of the
    dot product by the product of the norms.  What a zero norm changes is
    the value: the divisor is zero (when both norms are finite; zero or
    NaN in any case) and the quotient is NaN or an infinity, so a
    similarity that is a finite number needs both norms to be nonzero.
    The scoring loop of [search_properties] and [find_similar_properties]
    does not fail on such a row either: it returns whenever the stored
    vectors have the length of the reference, and it hands that quotient
    on as the similarity of the row. *)
Theorem cosine_similarity_zero_norm (a b : vector) :
  ((exists s, cosine_similarity a b = Some s) <->
   List.length a = List.length b) /\
  (forall s,
     cosine_similarity a b = Some s ->
     exists d,
       np_dot a b = Some d /\
       s = fdiv d (fmul (np_linalg_norm a) (np_linalg_norm b))) /\
  (forall embeddings,
     Forall (fun e => List.length (PropertyEmbedding.embedding e)
                      = List.length a) embeddings ->
     exists results, score_rows a embeddings [] = Ok results) /\
  (is_zero (np_linalg_norm a) = true \/ is_zero (np_linalg_norm b) = true ->
   (is_finite (np_linalg_norm a) = true ->
    is_finite (np_linalg_norm b) = true ->
    is_zero (fmul (np_linalg_norm a) (np_linalg_norm b)) = true) /\
   (is_zero (fmul (np_linalg_norm a) (np_linalg_norm b)) = true \/
    is_nan (fmul (np_linalg_norm a) (np_linalg_norm b)) = true) /\
   (forall s, cosine_similarity a b = Some s -> is_finite s = false) /\
   (forall embeddings results e,
      score_rows a embeddings [] = Ok results ->
      In e embeddings ->
      PropertyEmbedding.embedding e = b ->
      exists r,
        In r results /\
        SearchResult.property_id r = PropertyEmbedding.property_id e /\
        is_finite (SearchResult.similarity r) = false)).
Proof.
  split; [|split; [|split]].
  - split.
    + intros [s Hs].
      destruct (Nat.eq_dec (List.length a) (List.length b)) as [Heq|Hne];
        [exact Heq|].
      apply cosine_similarity_none in Hne. congruence.
    + intros Hlen. destruct (np_dot_defined a b Hlen) as [d Hd].
      unfold cosine_similarity. rewrite Hd. eexists; reflexivity.
  - intros s Hs. unfold cosine_similarity in Hs.
    destruct (np_dot a b) as [d|] eqn:Hd; [|discriminate].
    injection Hs as <-. exists d. auto.
  - intros embeddings Hlen. apply score_rows_total.
    eapply Forall_impl; [|exact Hlen]. intros e He.
    destruct (np_dot_defined a (PropertyEmbedding.embedding e)) as [d Hd];
      [symmetry; exact He|].
    unfold cosine_similarity. rewrite Hd. eexists; reflexivity.
  - intros Hzero.
    assert (Hdiv : (is_finite (np_linalg_norm a) = true ->
                    is_finite (np_linalg_norm b) = true ->
                    is_zero (fmul (np_linalg_norm a) (np_linalg_norm b))
                      = true) /\
                   (is_zero (fmul (np_linalg_norm a) (np_linalg_norm b))
                      = true \/
                    is_nan (fmul (np_linalg_norm a) (np_linalg_norm b))
                      = true)).
    { destruct Hzero as [Hz|Hz].
      - destruct (fmul_zero_l _ (np_linalg_norm b) Hz) as [Hfin Hcases].
        split; [intros _ Hb; apply Hfin, Hb | exact Hcases].
      - destruct (fmul_zero_r (np_linalg_norm a) _ Hz) as [Hfin Hcases].
        split; [intros Ha _; apply Hfin, Ha | exact Hcases]. }
    destruct Hdiv as [Hfin Hcases].
    assert (Hquot : forall s,
              cosine_similarity a b = Some s -> is_finite s = false).
    { intros s Hs. unfold cosine_similarity in Hs.
      destruct (np_dot a b) as [d|]; [|discriminate].
      injection Hs as <-.
      destruct Hcases; [apply fdiv_by_zero | apply fdiv_by_nan]; assumption. }
    split; [exact Hfin|]. split; [exact Hcases|]. split; [exact Hquot|].
    intros embeddings results e Hrun He Hb.
    destruct (score_rows_ok _ _ _ _ Hrun) as (scored & Heq & Hall).
    simpl in Heq. subst scored.
    destruct (Forall2_In_l _ _ _ _ _ e Hall He) as (r & Hr & Hpid & _ & Hs).
    rewrite Hb in Hs. exists r. repeat split; auto.
Qed.

(** The entries of a ranked and sliced answer are scored entries. *)
Lemma ranked_In (scored : list SearchResult.t) (limit : Z)
  (r : SearchResult.t) :
  In r (slice_to (sort_desc scored) limit) -> In r scored.
Proof.
  intros H. apply slice_to_In in H.
  eapply Permutation_in; [apply Permutation_sym, sort_desc_perm|exact H].
Qed.

(** What the fixed answer of [find_similar_properties] holds after the
    cut to [limit]: its first entry, for listing 2, when the cut keeps at
    least one entry ([limit >= 1], or [limit = -1], which drops the
    last), and its second entry, for listing 3, when the cut keeps
    both. *)
Lemma fallback_contains (L limit : Z) :
  Exists (fun r => SearchResult.property_id r = L)
    (slice_to similarity_mock_results limit) <->
  (L = 2 /\ (1 <= limit \/ limit = -1)) \/ (L = 3 /\ 2 <= limit).
Proof.
  unfold slice_to, similarity_mock_results. cbn [List.length].
  destruct (Z.ltb_spec limit 0) as [Hneg|Hpos].
  - destruct (Z.to_nat (Z.max 0 (Z.of_nat 2 + limit))) as [|[|n]] eqn:Hn;
      cbn [firstn]; rewrite ?firstn_nil, ?Exists_cons, ?Exists_nil;
      cbn [SearchResult.property_id]; lia.
  - destruct (Z.to_nat limit) as [|[|n]] eqn:Hn;
      cbn [firstn]; rewrite ?firstn_nil, ?Exists_cons, ?Exists_nil;
      cbn [SearchResult.property_id]; lia.
Qed.

(** C4, as the code has it.  Let the requested listing have an embedding.
    With the model loaded, no entry of the answer of
    [find_similar_properties] carries the identifier of the requested
    listing.  Without the model the answer is the fixed list (an entry
    for listing 2, then one for listing 3) cut to the limit, whatever the
    requested listing is; it holds an entry for the requested listing
    exactly when that listing is 2 and the cut keeps the first entry, or
    it is 3 and the cut keeps both, and for every other listing and every
    other limit it holds none.  When the stored vectors have one length,
    the call returns. *)
Theorem find_similar_excludes_self (model : model_t)
  (request : SimilarityRequest.t) (db : Session) (ref : PropertyEmbedding.t) :
  first_embedding db (SimilarityRequest.property_id request) = Some ref ->
  let L := SimilarityRequest.property_id request in
  let limit := SimilarityRequest.limit request in
  (forall encode results,
     model = Some encode ->
     find_similar_properties model request db = Ok results ->
     Forall (fun r => SearchResult.property_id r <> L) results) /\
  (model = None ->
   find_similar_properties model request db
     = Ok (slice_to similarity_mock_results limit) /\
   (Exists (fun r => SearchResult.property_id r = L)
      (slice_to similarity_mock_results limit) <->
    (L = 2 /\ (1 <= limit \/ limit = -1)) \/ (L = 3 /\ 2 <= limit)) /\
   (L <> 2 -> L <> 3 ->
    Forall (fun r => SearchResult.property_id r <> L)
      (slice_to similarity_mock_results limit))) /\
  (Forall (fun e => List.length (PropertyEmbedding.embedding e)
                    = List.length (PropertyEmbedding.embedding ref))
     (rows db) ->
   exists results, find_similar_properties model request db = Ok results).
Proof.
  intros Href L limit. unfold find_similar_properties. rewrite Href.
  fold L limit. split; [|split].
  - intros encode results -> H. apply Forall_forall. intros r Hr.
    destruct (score_rows _ _ _) as [scored|] eqn:Hs; [|discriminate].
    injection H as <-. apply ranked_In in Hr.
    destruct (@score_rows_ok _ _ _ _ Hs) as (scored' & Heq & Hall).
    simpl in Heq. subst scored'.
    destruct (Forall2_In_r _ _ _ _ _ r Hall Hr) as (e & He & Hpid & _).
    unfold other_embeddings in He. apply filter_In in He.
    destruct He as [_ He]. rewrite Hpid. intros Heq.
    fold L in He. rewrite Heq, Z.eqb_refl in He. discriminate.
  - intros ->. split; [reflexivity|]. split; [apply fallback_contains|].
    intros H2 H3. apply Forall_forall. intros r Hr Heq.
    assert (Hex : Exists (fun r => SearchResult.property_id r = L)
                    (slice_to similarity_mock_results limit)).
    { apply Exists_exists. exists r. auto. }
    apply fallback_contains in Hex. lia.
  - intros Hlen.
    destruct model as [encode|]; [|eexists; reflexivity].
    assert (Hdef : Forall (fun e => exists s,
              cosine_similarity (PropertyEmbedding.embedding ref)
                (PropertyEmbedding.embedding e) = Some s)
              (other_embeddings db L)).
    { apply Forall_forall. intros e He.
      unfold other_embeddings in He. apply filter_In in He.
      destruct He as [He _]. rewrite Forall_forall in Hlen.
      destruct (np_dot_defined (PropertyEmbedding.embedding ref)
                  (PropertyEmbedding.embedding e)) as [d Hd].
      { symmetry. apply Hlen, He. }
      unfold cosine_similarity. rewrite Hd. eexists; reflexivity. }
    destruct (@score_rows_total _ _ Hdef []) as [scored ->].
    eexists; reflexivity.
Qed.

(** C7, as the code has it.  [find_similar_properties] raises the 404
    "Property embedding not found" exactly when no row of the table
    belongs to the requested listing, with or without the model.
    Otherwise its reference is the first such row in scan order, that is
    the one inserted first: with the model loaded the answer ranks the
    rows of the other listings against the vector of that row, without
    it the answer is the fixed result set. *)
Theorem find_similar_reference (model : model_t)
  (request : SimilarityRequest.t) (db : Session) :
  ((forall e, In e (rows db) ->
      PropertyEmbedding.property_id e
        <> SimilarityRequest.property_id request) <->
   find_similar_properties model request db
     = Raise (HTTPException 404 "Property embedding not found")) /\
  (forall ref,
     first_embedding db (SimilarityRequest.property_id request) = Some ref ->
     (exists before after,
        rows db = before ++ ref :: after /\
        PropertyEmbedding.property_id ref
          = SimilarityRequest.property_id request /\
        Forall (fun e => PropertyEmbedding.property_id e
                           <> SimilarityRequest.property_id request) before) /\
     (forall encode,
        find_similar_properties (Some encode) request db
          = match score_rows (PropertyEmbedding.embedding ref)
                    (other_embeddings db
                       (SimilarityRequest.property_id request)) [] with
            | Ok results =>
                Ok (slice_to (sort_desc results)
                      (SimilarityRequest.limit request))
            | Raise e => Raise e
            end) /\
     find_similar_properties None request db
       = Ok (slice_to similarity_mock_results
               (SimilarityRequest.limit request))).
Proof.
  unfold find_similar_properties, first_embedding.
  set (pid := SimilarityRequest.property_id request).
  set (is_pid := fun e => PropertyEmbedding.property_id e =? pid).
  split.
  - split.
    + intros Hnone.
      rewrite (@find_absent _ is_pid (rows db)); [reflexivity|].
      intros e He. unfold is_pid. apply Z.eqb_neq, Hnone, He.
    + intros H e He Hpid.
      destruct (find is_pid (rows db)) as [ref|] eqn:Hfind.
      * destruct model as [encode|]; [|discriminate].
        destruct (score_rows _ _ _) as [scored|] eqn:Hs; [discriminate|].
        apply score_rows_raises in Hs. congruence.
      * eapply find_none in Hfind; [|exact He].
        unfold is_pid in Hfind. rewrite Hpid, Z.eqb_refl in Hfind.
        discriminate.
  - intros ref Href. rewrite Href. split; [|split; reflexivity].
    clear model. revert Href. generalize (rows db) as l.
    induction l as [|x l IH]; simpl; [discriminate|].
    destruct (is_pid x) eqn:Hx.
    + intros [= ->]. exists [], l. repeat split; auto.
      unfold is_pid in Hx. apply Z.eqb_eq, Hx.
    + intros Hfind. destruct (IH Hfind) as (before & after & -> & Hp & Hb).
      exists (x :: before), after. repeat split; auto.
      constructor; [|exact Hb]. unfold is_pid in Hx. apply Z.eqb_neq, Hx.
Qed.


Import Examples.

(** [search_properties_ranked] on the two-row index, limit 1. *)
Lemma search_properties_ranked_witness :
  exists results,
    search_properties (Some encode_ex) (SearchRequest.mk "T" 1) db_WT
      = Ok results /\
    (List.length results <= 1)%nat /\
    StronglySorted desc results.
Proof.
  destruct (search_properties_ranked (Some encode_ex)
              (SearchRequest.mk "T" 1) db_WT) as [Hlen Hrank].
  - simpl. lia.
  - destruct Hrank as (results & H & Hs & _).
    + intros encode Heq. injection Heq as <-.
      apply Forall_forall. intros e He. vm_compute in He.
      destruct He as [<-|[<-|[]]].
      * eexists. split; [vm_compute; reflexivity|]. vm_compute. reflexivity.
      * eexists. split; [vm_compute; reflexivity|]. vm_compute. reflexivity.
    + exists results. repeat split; [exact H | apply Hlen, H | exact Hs].
Defined.

(** A negative limit is outside the statement: [results[:-1]] drops the
    last entry, whatever the size of the answer. *)
Example search_properties_negative_limit :
  search_properties (Some encode_ex) (SearchRequest.mk "T" (-1)) db_WT
    = Ok [SearchResult.mk 7 "W" f1].
Proof. vm_compute. reflexivity. Qed.

(** [cosine_similarity_zero_norm] on the zero vector: the call returns,
    and what it returns is NaN. *)
Lemma cosine_similarity_zero_norm_witness :
  (exists s, cosine_similarity [f0; f0] [f1; f0] = Some s) /\
  forall s,
    cosine_similarity [f0; f0] [f1; f0] = Some s -> is_finite s = false.
Proof.
  destruct (cosine_similarity_zero_norm [f0; f0] [f1; f0])
    as (Htotal & _ & _ & Hzero).
  split; [apply Htotal; reflexivity|].
  destruct Hzero as (_ & _ & Hquot & _).
  - left. vm_compute. reflexivity.
  - exact Hquot.
Defined.

(** C10: where the claim fails.  The norm of the zero vector is zero, and
    [cosine_similarity] returns for it: the division gives NaN and raises
    nothing.  A search whose query is encoded as the zero vector returns
    as well, with NaN as the similarity of the row. *)
Lemma cosine_similarity_returns_at_zero_norm :
  is_zero (np_linalg_norm [f0; f0]) = true /\
  cosine_similarity [f0; f0] [f1; f0] = Some S754_nan /\
  search_properties (Some (fun _ => [f0; f0])) (SearchRequest.mk "villa" 5)
    db_listing2
    = Ok [SearchResult.mk 2 "Luxury apartment" S754_nan].
Proof. repeat split; vm_compute; reflexivity. Qed.

(** C4: where the claim fails.  Listing 2 has an embedding; with the
    model missing, the answer to "similar to listing 2" starts with an
    entry for listing 2 itself. *)
Lemma find_similar_fallback_contains_self :
  first_embedding db_listing2 2
    = Some (PropertyEmbedding.mk 1 2 "Luxury apartment" [f1; f0]) /\
  find_similar_properties None (SimilarityRequest.mk 2 5) db_listing2
    = Ok [ SearchResult.mk 2 "Similar luxury property" f0_89;
           SearchResult.mk 3 "Comparable villa" f0_84 ] /\
  ~ Forall (fun r => SearchResult.property_id r <> 2)
      [ SearchResult.mk 2 "Similar luxury property" f0_89;
        SearchResult.mk 3 "Comparable villa" f0_84 ].
Proof.
  split; [reflexivity|]. split; [reflexivity|].
  intros H. inversion H as [|? ? Hhead _]; subst. apply Hhead. reflexivity.
Qed.

(** [find_similar_excludes_self] with the model loaded, on the index in
    which listing 1 has two embeddings. *)
Lemma find_similar_excludes_self_witness :
  (forall results,
     find_similar_properties (Some encode_ex) (SimilarityRequest.mk 1 5)
       db_twice = Ok results ->
     Forall (fun r => SearchResult.property_id r <> 1) results) /\
  exists results,
    find_similar_properties (Some encode_ex) (SimilarityRequest.mk 1 5)
      db_twice = Ok results.
Proof.
  destruct (find_similar_excludes_self (Some encode_ex)
              (SimilarityRequest.mk 1 5) db_twice
              (PropertyEmbedding.mk 1 1 "first text" [f1; f0]) eq_refl)
    as (Hsafe & _ & Hlive).
  split; [intros results; apply (Hsafe encode_ex results eq_refl)|].
  apply Hlive.
  apply Forall_forall. intros e He. vm_compute in He.
  destruct He as [<-|[<-|[<-|[]]]]; reflexivity.
Defined.

(** Without the model, the answer to "similar to listing 3" with limit 1
    is the entry for listing 2 alone: the cut decides whether the
    requested listing appears. *)
Example find_similar_fallback_cut :
  find_similar_properties None (SimilarityRequest.mk 3 1)
    (mkSession [PropertyEmbedding.mk 1 3 "Hills villa" [f1; f0]] 2)
    = Ok [SearchResult.mk 2 "Similar luxury property" f0_89].
Proof. reflexivity. Qed.

(** C7: where the claim fails.  Listing 1 has two embeddings; the
    reference of [find_similar_properties] is the older one, not the most
    recent one, and the answer shows it: listing 2 gets similarity 1.0,
    its similarity to the older vector, where the most recent vector
    would give 0.0. *)
Lemma find_similar_reference_not_most_recent :
  first_embedding db_twice 1
    = Some (PropertyEmbedding.mk 1 1 "first text" [f1; f0]) /\
  most_recent_embedding db_twice 1
    = Some (PropertyEmbedding.mk 3 1 "second text" [f0; f1]) /\
  first_embedding db_twice 1 <> most_recent_embedding db_twice 1 /\
  find_similar_properties (Some encode_ex) (SimilarityRequest.mk 1 5) db_twice
    = Ok [SearchResult.mk 2 "other listing" f1] /\
  cosine_similarity [f0; f1] [f1; f0] = Some f0.
Proof.
  repeat split; try (vm_compute; reflexivity).
  vm_compute. discriminate.
Qed.



(* ================================================================== *)
(** * The orchestrator *)
(* ================================================================== *)

Section Runs.

Context {A B : Type}.

Lemma bind_ok (m : M A) (k : A -> M B) (w : World) (b : B) (w' : World) :
  bind m k w = (Ok b, w') ->
  exists a w1, m w = (Ok a, w1) /\ k a w1 = (Ok b, w').
Proof.
  unfold bind. destruct (m w) as [[a|e] w1]; intros H.
  - exists a, w1. auto.
  - discriminate.
Qed.

(** A handler that re-raises never turns a failure into an answer. *)
Lemma try_except_ok (m : M A) (h : exn -> exn) (w : World) (a : A)
  (w' : World) :
  try_except m (fun e => raise (h e)) w = (Ok a, w') -> m w = (Ok a, w').
Proof.
  unfold try_except, raise. destruct (m w) as [[a'|e] w1]; intros H.
  - exact H.
  - discriminate.
Qed.

Lemma http_ok (c : Call) (answer : result (Response.t A)) (w : World)
  (r : Response.t A) (w' : World) :
  http c answer w = (Ok r, w') ->
  answer = Ok r /\ w' = mkWorld (calls w ++ [c]) (clock w).
Proof. unfold http. intros [= -> <-]. auto. Qed.

End Runs.

Lemma now_ok (svc : Services) (w : World) (t : float) (w' : World) :
  now svc w = (Ok t, w') ->
  t = time_time svc (clock w) /\ w' = mkWorld (calls w) (S (clock w)).
Proof. unfold now. intros [= <- <-]. auto. Qed.

Section Join.

Variable properties : list Property.t.

Lemma match_result_spec (r : SearchResult.t) :
  forall matching context,
    match_result r properties matching context
      = match resolve properties r with
        | Some p => (matching ++ [scored p r], context ++ [context_entry p])
        | None => (matching, context)
        end.
Proof.
  unfold resolve. induction properties as [|p ps IH]; intros m c; simpl.
  - reflexivity.
  - destruct (Property.id p =? SearchResult.property_id r); [reflexivity|].
    apply IH.
Qed.

Lemma match_results_spec (results : list SearchResult.t) :
  forall matching context,
    match_results results properties matching context
      = (matching ++ join results properties,
         context ++ map (fun sp => context_entry (ScoredProperty.prop sp))
                      (join results properties)).
Proof.
  induction results as [|r rs IH]; intros m c; simpl.
  - rewrite !app_nil_r. reflexivity.
  - rewrite match_result_spec.
    destruct (resolve properties r) as [p|]; simpl.
    + rewrite IH, <- !app_assoc. reflexivity.
    + apply IH.
Qed.

Lemma match_similar_spec (r : SearchResult.t) :
  forall similar,
    match_similar r properties similar
      = similar ++ match resolve properties r with
                   | Some p => [scored p r]
                   | None => []
                   end.
Proof.
  unfold resolve. induction properties as [|p ps IH]; intros acc; simpl.
  - rewrite app_nil_r. reflexivity.
  - destruct (Property.id p =? SearchResult.property_id r); [reflexivity|].
    apply IH.
Qed.

Lemma match_similars_spec (results : list SearchResult.t) :
  forall similar,
    match_similars results properties similar
      = similar ++ join results properties.
Proof.
  induction results as [|r rs IH]; intros acc; simpl.
  - rewrite app_nil_r. reflexivity.
  - rewrite IH, match_similar_spec, <- app_assoc. reflexivity.
Qed.

Lemma expand_similar_ok (svc : Services) (top : list ScoredProperty.t) :
  forall similar w result w',
    expand_similar svc top properties similar w = (Ok result, w') ->
    result = similar ++ flat_map (similar_of svc properties) top /\
    calls w' = calls w ++ map similarity_call top /\
    clock w' = clock w.
Proof.
  induction top as [|sp rest IH]; intros acc w result w' H; simpl in H.
  - injection H as <- <-. rewrite !app_nil_r. auto.
  - apply bind_ok in H. destruct H as (r & w1 & Hcall & H).
    apply http_ok in Hcall. destruct Hcall as [Hcall ->].
    assert (Hsim : similar_of svc properties sp
                   = if Response.status_code r =? 200
                     then join (Response.json r) properties else []).
    { unfold similar_of. rewrite Hcall. reflexivity. }
    destruct (Response.status_code r =? 200);
      apply IH in H; destruct H as (-> & -> & ->); simpl;
      rewrite Hsim, <- ?app_assoc, ?match_similars_spec, <- ?app_assoc;
      auto.
Qed.

End Join.
Lemma process_text_query_ok (svc : Services) (request : QueryRequest.t)
  (w : World) (resp : QueryResponse.t) (w' : World) :
  process_text_query svc request w = (Ok resp, w') ->
  let properties := fetched_properties svc in
  let matching := join (fetched_results svc request) properties in
  let context :=
    map (fun sp => context_entry (ScoredProperty.prop sp)) matching in
  let top := expanded (QueryRequest.include_similar request) matching in
  exists llm,
    post_process_query svc (QueryRequest.query request) context = Ok llm /\
    resp = QueryResponse.mk (QueryRequest.query request) (answer_of llm)
             matching
             (firstn 5 (flat_map (similar_of svc properties) top))
             (fsub (time_time svc (S (clock w))) (time_time svc (clock w))) /\
    calls w' = calls w
               ++ [ GetProperties;
                    PostSearch (QueryRequest.query request)
                      (QueryRequest.max_results request);
                    PostProcessQuery (QueryRequest.query request) context ]
               ++ map similarity_call top /\
    clock w' = S (S (clock w)).
Proof.
  intros H. unfold process_text_query in H.
  apply bind_ok in H. destruct H as (t0 & w0 & Ht0 & H).
  apply now_ok in Ht0. destruct Ht0 as [-> ->].
  apply try_except_ok in H.
  apply bind_ok in H. destruct H as (pr & w1 & Hpr & H).
  apply http_ok in Hpr. destruct Hpr as [Hpr ->].
  apply bind_ok in H. destruct H as (sr & w2 & Hsr & H).
  apply http_ok in Hsr. destruct Hsr as [Hsr ->].
  rewrite match_results_spec in H. cbn [app] in H.
  assert (Hprops : fetched_properties svc
                   = if Response.status_code pr =? 200
                     then Response.json pr else [])
    by (unfold fetched_properties; rewrite Hpr; reflexivity).
  assert (Hres : fetched_results svc request
                 = if Response.status_code sr =? 200
                   then Response.json sr else [])
    by (unfold fetched_results; rewrite Hsr; reflexivity).
  rewrite <- Hprops, <- Hres in H. clear Hprops Hres.
  apply bind_ok in H. destruct H as (llm & w3 & Hllm & H).
  apply http_ok in Hllm. destruct Hllm as [Hllm ->].
  apply bind_ok in H. destruct H as (sim & w4 & Hsim & H).
  apply bind_ok in H. destruct H as (t1 & w5 & Ht1 & H).
  apply now_ok in Ht1. destruct Ht1 as [-> ->].
  unfold ret in H. injection H as <- <-.
  intros properties matching context top. exists llm.
  split; [exact Hllm|].
  assert (Hexp : sim = flat_map (similar_of svc properties) top /\
                 calls w4 = (calls w ++ [GetProperties]
                             ++ [PostSearch (QueryRequest.query request)
                                   (QueryRequest.max_results request)]
                             ++ [PostProcessQuery
                                   (QueryRequest.query request) context])
                            ++ map similarity_call top /\
                 clock w4 = S (clock w)).
  { unfold top, expanded. fold properties matching in Hsim.
    destruct (QueryRequest.include_similar request
              && negb (Nat.eqb (List.length matching) 0)).
    - apply expand_similar_ok in Hsim. cbn in Hsim.
      destruct Hsim as (-> & -> & ->). rewrite <- !app_assoc. auto.
    - unfold ret in Hsim. injection Hsim as <- <-. cbn.
      rewrite <- !app_assoc, app_nil_r. auto. }
  destruct Hexp as (-> & Hcalls & Hclock). cbn [calls clock].
  rewrite Hcalls, Hclock, <- !app_assoc. repeat split.
  unfold answer_of. destruct (Response.status_code llm =? 200); reflexivity.
Qed.

Lemma join_nil (results : list SearchResult.t) : join results [] = [].
Proof. induction results as [|r rs IH]; simpl; auto. Qed.

Lemma resolve_first (properties : list Property.t) (r : SearchResult.t)
  (p : Property.t) :
  resolve properties r = Some p ->
  exists before after,
    properties = before ++ p :: after /\
    Property.id p = SearchResult.property_id r /\
    Forall (fun p' => Property.id p' <> SearchResult.property_id r) before.
Proof.
  unfold resolve. induction properties as [|x l IH]; simpl; [discriminate|].
  destruct (Property.id x =? SearchResult.property_id r) eqn:Hx.
  - intros [= ->]. exists [], l. repeat split; auto. apply Z.eqb_eq, Hx.
  - intros H. destruct (IH H) as (before & after & -> & Hp & Hb).
    exists (x :: before), after. repeat split; auto.
    constructor; [apply Z.eqb_neq, Hx | exact Hb].
Qed.

(** C3.  The join of step 3 handles the ranked entries in rank order: an
    entry whose identifier is carried by a fetched listing appends the
    first such listing with the entry's similarity as its score, and an
    entry that resolves to no fetched listing appends nothing; the loops
    return their two lists whatever the entries are.  The
    [matching_properties] of every response is this join of the search
    answer against the fetched collection. *)
Theorem join_step (results : list SearchResult.t)
  (properties : list Property.t) :
  match_results results properties [] []
    = (join results properties,
       map (fun sp => context_entry (ScoredProperty.prop sp))
         (join results properties)) /\
  (forall r rest,
     join (r :: rest) properties
       = match resolve properties r with
         | Some p =>
             ScoredProperty.mk p (SearchResult.similarity r)
               :: join rest properties
         | None => join rest properties
         end) /\
  (forall r p,
     resolve properties r = Some p ->
     exists before after,
       properties = before ++ p :: after /\
       Property.id p = SearchResult.property_id r /\
       Forall (fun p' => Property.id p' <> SearchResult.property_id r)
         before) /\
  (forall r,
     resolve properties r = None <->
     forall p, In p properties ->
               Property.id p <> SearchResult.property_id r) /\
  (forall svc request w resp w',
     process_text_query svc request w = (Ok resp, w') ->
     QueryResponse.matching_properties resp
       = join (fetched_results svc request) (fetched_properties svc)).
Proof.
  split; [apply match_results_spec|]. split.
  { intros r rest. simpl. destruct (resolve properties r); reflexivity. }
  split; [apply resolve_first|]. split.
  { intros r. unfold resolve. split.
    - intros Hnone p Hp. eapply find_none in Hnone; [|exact Hp].
      apply Z.eqb_neq, Hnone.
    - intros Hall. apply find_absent. intros p Hp.
      apply Z.eqb_neq, Hall, Hp. }
  intros svc request w resp w' H.
  apply process_text_query_ok in H. destruct H as (llm & _ & -> & _).
  reflexivity.
Qed.

(** C6.  In every response of [process_text_query] the list
    [similar_properties] has at most 5 entries.  It is the first 5 of the
    joined similarity answers of the expanded matches, taken in ranked
    order; the expanded matches are the first 2 of [matching_properties]
    when [include_similar] is set and there is a match, and none
    otherwise; and the similarity requests sent are exactly one per
    expanded match, in that order, after the three requests of the steps
    before. *)
Theorem similar_properties_capped (svc : Services) (request : QueryRequest.t)
  (w : World) (resp : QueryResponse.t) (w' : World) :
  process_text_query svc request w = (Ok resp, w') ->
  let top :=
    if QueryRequest.include_similar request
       && negb (Nat.eqb
                  (List.length (QueryResponse.matching_properties resp)) 0)
    then firstn 2 (QueryResponse.matching_properties resp) else [] in
  (List.length (QueryResponse.similar_properties resp) <= 5)%nat /\
  QueryResponse.similar_properties resp
    = firstn 5 (flat_map (similar_of svc (fetched_properties svc)) top) /\
  (List.length top <= 2)%nat /\
  exists context,
    calls w' = calls w
               ++ [ GetProperties;
                    PostSearch (QueryRequest.query request)
                      (QueryRequest.max_results request);
                    PostProcessQuery (QueryRequest.query request) context ]
               ++ map similarity_call top.
Proof.
  intros H top. apply process_text_query_ok in H.
  destruct H as (llm & _ & -> & Hcalls & _).
  cbn [QueryResponse.similar_properties QueryResponse.matching_properties]
    in *.
  split; [apply firstn_le_length|]. split; [reflexivity|]. split.
  - unfold top. destruct (_ && _); [apply firstn_le_length|apply Nat.le_0_l].
  - eexists. exact Hcalls.
Qed.

Lemma answer_of_nonempty (llm : Response.t LLMResult.t) :
  Response.status_code llm <> 200 \/
  LLMResult.response (Response.json llm) <> Some "" ->
  answer_of llm <> "".
Proof.
  unfold answer_of, apology. intros H.
  destruct (Z.eqb_spec (Response.status_code llm) 200) as [Heq|Hne].
  - destruct H as [H|H]; [contradiction|].
    destruct (LLMResult.response (Response.json llm)) as [r|];
      [congruence|discriminate].
  - discriminate.
Qed.

(** C1, as the code has it.  When the listing store answers with a
    status other than 200, and the search and the response generator
    answer at all, [process_text_query] goes on with no listings and
    returns a response: [matching_properties] and [similar_properties]
    are empty, no similarity request is sent, and the answer is the text
    of the generator, or the apology when the generator's status is not
    200; it is not empty unless the generator answered 200 with an empty
    text.  When the request to the listing store raises, nothing is
    absorbed: the handler ends with the error status 500 after that one
    request. *)
Theorem store_error_status_degrades (svc : Services)
  (request : QueryRequest.t) (w : World) :
  (forall store found llm,
     get_properties svc = Ok store ->
     Response.status_code store <> 200 ->
     post_search svc (QueryRequest.query request)
       (QueryRequest.max_results request) = Ok found ->
     post_process_query svc (QueryRequest.query request) [] = Ok llm ->
     process_text_query svc request w
       = (Ok (QueryResponse.mk (QueryRequest.query request) (answer_of llm)
                [] []
                (fsub (time_time svc (S (clock w)))
                   (time_time svc (clock w)))),
          mkWorld
            (calls w ++ [ GetProperties;
                          PostSearch (QueryRequest.query request)
                            (QueryRequest.max_results request);
                          PostProcessQuery (QueryRequest.query request) [] ])
            (S (S (clock w)))) /\
     (Response.status_code llm <> 200 \/
      LLMResult.response (Response.json llm) <> Some "" ->
      answer_of llm <> "")) /\
  (forall e,
     get_properties svc = Raise e ->
     process_text_query svc request w
       = (Raise (HTTPException 500
                   ("Error processing query: " ++ str e)%string),
          mkWorld (calls w ++ [GetProperties]) (S (clock w)))).
Proof.
  split.
  - intros store found llm Hstore Hstatus Hfound Hllm.
    split; [|apply answer_of_nonempty].
    unfold process_text_query, bind, try_except, now, http.
    rewrite Hstore, Hfound. cbn [calls clock Response.status_code].
    apply Z.eqb_neq in Hstatus. rewrite Hstatus.
    rewrite match_results_spec, join_nil. cbn [app map].
    rewrite Hllm. cbn [List.length Nat.eqb negb andb].
    rewrite andb_false_r. unfold ret, answer_of.
    cbn [calls clock slice_to Z.ltb Z.compare firstn Z.to_nat].
    rewrite <- !app_assoc. cbn [app].
    destruct (Response.status_code llm =? 200); reflexivity.
  - intros e He.
    unfold process_text_query, bind, try_except, now, http, raise.
    rewrite He. reflexivity.
Qed.

(** [store_error_status_degrades] with the listing store answering 503. *)
Lemma store_error_status_degrades_witness :
  process_text_query svc_store_503 query_villa world0
    = (Ok (QueryResponse.mk "villa with pool" "Here are the best options."
             [] [] f1),
       mkWorld [ GetProperties; PostSearch "villa with pool" 5;
                 PostProcessQuery "villa with pool" [] ] 2).
Proof.
  destruct (proj1 (store_error_status_degrades svc_store_503 query_villa
                     world0)
              (Response.mk 503 [])
              (Response.mk 200 search_mock_results)
              (Response.mk 200
                 (LLMResult.mk (Some "Here are the best options."))))
    as [Hrun _].
  - reflexivity.
  - simpl. lia.
  - reflexivity.
  - reflexivity.
  - rewrite Hrun. vm_compute. reflexivity.
Defined.

(** C1: where the claim fails.  With the listing store unreachable the
    first request raises, and the handler of [process_text_query] turns
    that into the error status 500: no response with empty
    [matching_properties] is returned. *)
Lemma store_unreachable_is_error :
  get_properties svc_store_unreachable
    = Raise (TransportError "All connection attempts failed") /\
  process_text_query svc_store_unreachable query_villa world0
    = (Raise (HTTPException 500
                "Error processing query: All connection attempts failed"),
       mkWorld [GetProperties] 1) /\
  ~ exists resp w',
      process_text_query svc_store_unreachable query_villa world0
        = (Ok resp, w').
Proof.
  split; [reflexivity|]. split; [vm_compute; reflexivity|].
  intros (resp & w' & H). vm_compute in H. discriminate H.
Qed.

(** [similar_properties_capped] on the deployment in which every service
    answers: the two best matches are expanded. *)
Lemma similar_properties_capped_witness :
  match process_text_query svc_up query_villa world0 with
  | (Ok resp, w') =>
      (List.length (QueryResponse.similar_properties resp) <= 5)%nat /\
      exists context,
        calls w' = [ GetProperties; PostSearch "villa with pool" 5;
                     PostProcessQuery "villa with pool" context;
                     PostSimilarity 1 3; PostSimilarity 2 3 ]
  | (Raise _, _) => False
  end.
Proof.
  destruct (process_text_query svc_up query_villa world0)
    as [[resp|e] w'] eqn:Hrun.
  - destruct (similar_properties_capped svc_up query_villa world0 resp w' Hrun)
      as (Hcap & _ & _ & context & Hcalls).
    split; [exact Hcap|]. exists context. rewrite Hcalls.
    vm_compute in Hrun. injection Hrun as <- <-. reflexivity.
  - vm_compute in Hrun. discriminate Hrun.
Defined.

(** [include_similar = False]: no expansion, whatever the matches. *)
Example no_expansion_when_not_requested :
  process_text_query svc_up (QueryRequest.mk "villa with pool" false 5) world0
    = (Ok (QueryResponse.mk "villa with pool" "Here are the best options."
             (join search_mock_results listings) [] f1),
       mkWorld
         [ GetProperties; PostSearch "villa with pool" 5;
           PostProcessQuery "villa with pool"
             (map context_entry listings) ] 2).
Proof. vm_compute. reflexivity. Qed.

Lemma voice_fields (f : string) :
  In f VoiceQueryResponse.fields <->
  (In f QueryResponse.fields /\ f <> "similar_properties") \/
  f = "transcription" \/ f = "confidence".
Proof.
  unfold VoiceQueryResponse.fields, QueryResponse.fields. simpl. split.
  - intros [<-|[<-|[<-|[<-|[<-|[<-|[]]]]]]]; auto;
      left; (split; [tauto | discriminate]).
  - intros [[[<-|[<-|[<-|[<-|[<-|[]]]]]] Hne]|[->| ->]]; auto 10;
      exfalso; apply Hne; reflexivity.
Qed.

(** C8, as the code has it.  A response of [process_voice_query] carries
    the transcript twice, as [transcription] and as [query], the
    [answer] and the [matching_properties] of the text flow run on the
    transcript, the [confidence] of the transcription and its own
    [processing_time], measured from before the upload.  Its fields are
    those of the text response without [similar_properties], with
    [transcription] and [confidence] added: the similar listings that the
    text flow computed are not passed on. *)
Theorem voice_response_shape (svc : Services) (file : UploadFile.t)
  (w : World) (resp : VoiceQueryResponse.t) (w' : World) :
  process_voice_query svc file w = (Ok resp, w') ->
  (exists up tr text w1 w2,
     post_upload_audio svc file = Ok up /\
     Response.status_code up = 200 /\
     post_transcribe_file svc (UploadResult.file_id (Response.json up))
       = Ok tr /\
     Response.status_code tr = 200 /\
     process_text_query svc
       (QueryRequest.of_query
          (TranscriptionResult.transcription (Response.json tr))) w1
       = (Ok text, w2) /\
     resp = VoiceQueryResponse.mk
              (TranscriptionResult.transcription (Response.json tr))
              (QueryResponse.query text)
              (QueryResponse.answer text)
              (QueryResponse.matching_properties text)
              (TranscriptionResult.confidence (Response.json tr))
              (fsub (time_time svc (clock w2)) (time_time svc (clock w)))) /\
  (forall f,
     In f VoiceQueryResponse.fields <->
     (In f QueryResponse.fields /\ f <> "similar_properties") \/
     f = "transcription" \/ f = "confidence").
Proof.
  intros H. split; [|apply voice_fields].
  unfold process_voice_query in H.
  apply bind_ok in H. destruct H as (t0 & w0 & Ht0 & H).
  apply now_ok in Ht0. destruct Ht0 as [-> ->].
  apply try_except_ok in H.
  apply bind_ok in H. destruct H as (up & w1 & Hup & H).
  apply http_ok in Hup. destruct Hup as [Hup ->].
  destruct (Z.eqb_spec (Response.status_code up) 200) as [Hup200|];
    [|discriminate H].
  cbn [negb] in H.
  apply bind_ok in H. destruct H as (tr & w2 & Htr & H).
  apply http_ok in Htr. destruct Htr as [Htr ->].
  destruct (Z.eqb_spec (Response.status_code tr) 200) as [Htr200|];
    [|discriminate H].
  cbn [negb] in H.
  apply bind_ok in H. destruct H as (text & w3 & Htext & H).
  apply bind_ok in H. destruct H as (t1 & w4 & Ht1 & H).
  apply now_ok in Ht1. destruct Ht1 as [-> ->].
  unfold ret in H. injection H as <- <-.
  exists up, tr, text. eexists. exists w3.
  repeat split; try eassumption.
  pose proof Htext as Hq. apply process_text_query_ok in Hq.
  destruct Hq as (llm & _ & -> & _). reflexivity.
Qed.

(** [voice_response_shape] on the deployment in which every service
    answers. *)
Lemma voice_response_shape_witness :
  match process_voice_query svc_up audio world0 with
  | (Ok resp, _) =>
      exists up tr text w1 w2,
        post_upload_audio svc_up audio = Ok up /\
        Response.status_code up = 200 /\
        post_transcribe_file svc_up (UploadResult.file_id (Response.json up))
          = Ok tr /\
        Response.status_code tr = 200 /\
        process_text_query svc_up
          (QueryRequest.of_query
             (TranscriptionResult.transcription (Response.json tr))) w1
          = (Ok text, w2) /\
        resp = VoiceQueryResponse.mk
                 (TranscriptionResult.transcription (Response.json tr))
                 (QueryResponse.query text)
                 (QueryResponse.answer text)
                 (QueryResponse.matching_properties text)
                 (TranscriptionResult.confidence (Response.json tr))
                 (fsub (time_time svc_up (clock w2))
                    (time_time svc_up (clock world0)))
  | (Raise _, _) => False
  end.
Proof.
  destruct (process_voice_query svc_up audio world0)
    as [[resp|e] w'] eqn:Hrun.
  - exact (proj1 (voice_response_shape svc_up audio world0 resp w' Hrun)).
  - vm_compute in Hrun. discriminate Hrun.
Defined.

(** C8: where the claim fails.  [similar_properties] is a field of the
    text response and not of the voice response; on the deployment in
    which every service answers, the text flow run on the transcript
    finds similar listings, and the voice response has no field for
    them. *)
Lemma voice_response_lacks_similar_properties :
  In "similar_properties" QueryResponse.fields /\
  ~ In "similar_properties" VoiceQueryResponse.fields /\
  (exists text w',
     process_text_query svc_up (QueryRequest.of_query "villa with pool")
       world0 = (Ok text, w') /\
     List.length (QueryResponse.similar_properties text) = 4%nat) /\
  exists resp w',
    process_voice_query svc_up audio world0 = (Ok resp, w') /\
    VoiceQueryResponse.query resp = "villa with pool".
Proof.
  split; [simpl; tauto|]. split.
  { simpl. intros [H|[H|[H|[H|[H|[H|[]]]]]]]; discriminate H. }
  split.
  - eexists. eexists. split; [vm_compute; reflexivity|]. reflexivity.
  - eexists. eexists. split; [vm_compute; reflexivity|]. reflexivity.
Qed.

(** The join on a collection with a repeated identifier and an answer
    with a stale entry: first listing wins, stale entry dropped. *)
Example join_first_match_and_drop :
  match_results ranked_stale listings_dup [] []
    = ([ ScoredProperty.mk (listing 2 "Downtown apartment") f0_95;
         ScoredProperty.mk (listing 1 "Villa with pool") f0_82 ],
       [ context_entry (listing 2 "Downtown apartment");
         context_entry (listing 1 "Villa with pool") ]).
Proof. vm_compute. reflexivity. Qed.

(** A rejected upload fails the whole voice request; the text flow is
    not entered. *)
Example voice_upload_rejected :
  process_voice_query svc_upload_rejected audio world0
    = (Raise (HTTPException 500
                "Error processing voice query: 400: Failed to upload audio file"),
       mkWorld [PostUploadAudio audio] 1).
Proof. vm_compute. reflexivity. Qed.

(* ================================================================== *)
(** * Further properties of the embedding index *)
(* ================================================================== *)

Lemma fmul_comm (x y : float) : fmul x y = fmul y x.
Proof.
  unfold fmul.
  destruct x as [sx|sx| |sx mx ex], y as [sy|sy| |sy my ey]; simpl;
    rewrite ?(xorb_comm sx sy); try reflexivity.
  rewrite (Pos.mul_comm mx my), (Z.add_comm ex ey). reflexivity.
Qed.

Lemma dot_from_comm (a b : vector) :
  forall acc, dot_from acc a b = dot_from acc b a.
Proof.
  revert b. induction a as [|x a IH]; intros [|y b] acc; simpl;
    try reflexivity.
  rewrite (fmul_comm x y). apply IH.
Qed.

(** X1.  The similarity of two vectors does not depend on which of them is
    the reference: [cosine_similarity a b] and [cosine_similarity b a]
    are the same float, or both the [ValueError]. *)
Theorem cosine_similarity_comm (a b : vector) :
  cosine_similarity a b = cosine_similarity b a.
Proof.
  unfold cosine_similarity, np_dot. rewrite (dot_from_comm a b).
  destruct (dot_from f0 b a); [|reflexivity].
  rewrite (fmul_comm (np_linalg_norm a) (np_linalg_norm b)). reflexivity.
Qed.

Lemma score_rows_raise_iff (ref : vector)
  (embeddings : list PropertyEmbedding.t) :
  forall acc,
    (exists e, score_rows ref embeddings acc = Raise e) <->
    Exists (fun emb => List.length (PropertyEmbedding.embedding emb)
                       <> List.length ref) embeddings.
Proof.
  induction embeddings as [|emb rest IH]; intros acc; simpl.
  - split; [intros [e H]; discriminate | intros H; inversion H].
  - destruct (cosine_similarity ref (PropertyEmbedding.embedding emb))
      as [s|] eqn:Hs.
    + rewrite IH. split; intros H.
      * apply Exists_cons_tl, H.
      * inversion H as [? ? Hhd|? ? Htl]; subst; [|exact Htl].
        exfalso. apply Hhd. symmetry.
        destruct (Nat.eq_dec (List.length ref)
                    (List.length (PropertyEmbedding.embedding emb)))
          as [Heq|Hne]; [exact Heq|].
        apply cosine_similarity_none in Hne. congruence.
    + apply cosine_similarity_none in Hs. split; intros _.
      * apply Exists_cons_hd. congruence.
      * eexists; reflexivity.
Qed.

(** X2.  [search_properties] fails in one way only: with the model loaded, a
    stored vector whose length differs from the length of the encoded
    query makes [np.dot] raise its [ValueError].  Without the model the
    call always answers, and it never raises an [HTTPException]. *)
Theorem search_properties_failure (model : model_t)
  (request : SearchRequest.t) (db : Session) :
  (forall e,
     search_properties model request db = Raise e ->
     e = ValueError "shapes not aligned") /\
  ((exists e, search_properties model request db = Raise e) <->
   exists encode,
     model = Some encode /\
     Exists (fun emb =>
               List.length (PropertyEmbedding.embedding emb)
               <> List.length (encode (SearchRequest.query request)))
       (rows db)).
Proof.
  unfold search_properties. split.
  - intros e H. destruct model as [encode|]; [|discriminate].
    destruct (score_rows _ _ _) as [scored|e'] eqn:Hs; [discriminate|].
    injection H as <-. eapply score_rows_raises, Hs.
  - destruct model as [encode|].
    + pose proof (score_rows_raise_iff
                    (encode (SearchRequest.query request)) (rows db) [])
        as Hiff.
      split.
      * intros [e H]. exists encode. split; [reflexivity|].
        apply Hiff.
        destruct (score_rows _ _ _) as [scored|e']; [discriminate|].
        eexists; reflexivity.
      * intros (encode' & Heq & Hex). injection Heq as <-.
        apply Hiff in Hex. destruct Hex as [e ->]. eexists; reflexivity.
    + split; [intros [e H]; discriminate|].
      intros (encode & Heq & _). discriminate.
Qed.

Lemma slice_to_length_exact (A : Type) (l : list A) (stop : Z) :
  List.length (slice_to l stop)
    = if stop <? 0
      then Z.to_nat (Z.max 0 (Z.of_nat (List.length l) + stop))
      else Nat.min (Z.to_nat stop) (List.length l).
Proof.
  unfold slice_to. destruct (Z.ltb_spec stop 0).
  - rewrite length_firstn. lia.
  - apply length_firstn.
Qed.

(** X3.  The size of an answer of [search_properties]: [results[:limit]] of a
    list with one entry per stored row (of three entries without the
    model).  So a limit of 0 gives no entry, a limit beyond the table
    gives one entry per embedding record, a listing embedded twice
    appearing twice, and a negative limit [-k] drops the last [k]. *)
Theorem search_properties_size (model : model_t) (request : SearchRequest.t)
  (db : Session) (results : list SearchResult.t) :
  search_properties model request db = Ok results ->
  let n := match model with
           | Some _ => List.length (rows db)
           | None => 3%nat
           end in
  let limit := SearchRequest.limit request in
  List.length results
    = if limit <? 0
      then Z.to_nat (Z.max 0 (Z.of_nat n + limit))
      else Nat.min (Z.to_nat limit) n.
Proof.
  intros H n limit. unfold search_properties in H.
  destruct model as [encode|].
  - destruct (score_rows _ _ _) as [scored|] eqn:Hs; [|discriminate].
    injection H as <-. rewrite slice_to_length_exact.
    destruct (score_rows_ok _ _ _ _ Hs) as (scored' & Heq & Hall).
    simpl in Heq. subst scored'.
    rewrite <- (Permutation_length (sort_desc_perm scored)).
    rewrite <- (Forall2_length Hall). reflexivity.
  - injection H as <-. rewrite slice_to_length_exact. reflexivity.
Qed.

(** X4.  The tie-break of [search_properties].  When the similarities
    of the stored rows to the query are numbers, the answer is the cut
    to the limit of a ranking of the scored rows that is descending and
    in which the entries that share a similarity stand in the order in
    which their rows are scanned, that is, in the order in which the
    embeddings were created; and there is only one such ranking, so this
    is the answer whichever stable sort produces it. *)
Theorem search_properties_ties (encode : string -> vector)
  (request : SearchRequest.t) (db : Session) :
  Forall (fun e => exists s,
            cosine_similarity (encode (SearchRequest.query request))
              (PropertyEmbedding.embedding e) = Some s /\
            is_nan s = false) (rows db) ->
  exists scored ranked,
    Forall2 (scores (encode (SearchRequest.query request))) (rows db) scored /\
    search_properties (Some encode) request db
      = Ok (slice_to ranked (SearchRequest.limit request)) /\
    Permutation scored ranked /\
    StronglySorted desc ranked /\
    (forall k, filter (tied k) ranked = filter (tied k) scored) /\
    (forall other,
       Permutation scored other ->
       StronglySorted desc other ->
       (forall k, filter (tied k) other = filter (tied k) scored) ->
       other = ranked).
Proof.
  intros Hnum.
  assert (Hdef : Forall (fun e => exists s,
            cosine_similarity (encode (SearchRequest.query request))
              (PropertyEmbedding.embedding e) = Some s) (rows db)).
  { eapply Forall_impl; [|exact Hnum]. intros e (s & Hs & _). eauto. }
  destruct (score_rows_total _ _ Hdef []) as [scored Hscored].
  destruct (score_rows_ok _ _ _ _ Hscored) as (scored' & Heq & Hall).
  simpl in Heq. subst scored'.
  pose proof (scores_no_nan _ _ _ Hnum Hall) as Hnn.
  exists scored, (sort_desc scored).
  split; [exact Hall|]. split.
  { unfold search_properties. rewrite Hscored. reflexivity. }
  split; [apply sort_desc_perm|].
  split; [apply sort_desc_sorted, Hnn|].
  split; [intros k; apply sort_desc_ties|].
  intros other Hperm Hsorted Hties. symmetry.
  apply stable_sort_unique.
  - eapply Permutation_Forall; [apply sort_desc_perm|exact Hnn].
  - eapply perm_trans; [apply Permutation_sym, sort_desc_perm|exact Hperm].
  - apply sort_desc_sorted, Hnn.
  - exact Hsorted.
  - intros k. rewrite sort_desc_ties, Hties. reflexivity.
Qed.

Lemma find_app_last (A : Type) (f : A -> bool) (l : list A) (x : A) :
  find f (l ++ [x])
    = match find f l with
      | Some y => Some y
      | None => if f x then Some x else None
      end.
Proof.
  induction l as [|y l IH]; simpl; [reflexivity|].
  destruct (f y); [reflexivity|exact IH].
Qed.

(** X5.  Embedding and reference lookup.  After [create_embedding] has stored
    a row for a listing, [find_similar_properties] no longer answers 404
    for that listing; the reference of a listing that already had an
    embedding stays the row that was there first, so embedding a listing
    again does not change what it is compared with; and the references of
    all other listings are untouched. *)
Theorem create_embedding_lookup (encode : string -> vector)
  (request : EmbedRequest.t) (db : Session) :
  let db' := snd (create_embedding (Some encode) request db) in
  let row := PropertyEmbedding.mk (next_id db)
               (EmbedRequest.property_id request)
               (EmbedRequest.text request)
               (encode (EmbedRequest.text request)) in
  first_embedding db' (EmbedRequest.property_id request)
    = match first_embedding db (EmbedRequest.property_id request) with
      | Some old => Some old
      | None => Some row
      end /\
  (forall pid,
     pid <> EmbedRequest.property_id request ->
     first_embedding db' pid = first_embedding db pid) /\
  (forall model limit,
     find_similar_properties model
       (SimilarityRequest.mk (EmbedRequest.property_id request) limit) db'
     <> Raise (HTTPException 404 "Property embedding not found")).
Proof.
  intros db' row.
  assert (Hfirst : forall pid,
            first_embedding db' pid
              = match first_embedding db pid with
                | Some old => Some old
                | None =>
                    if EmbedRequest.property_id request =? pid
                    then Some row else None
                end).
  { intros pid. unfold first_embedding, db'. simpl. apply find_app_last. }
  split; [|split].
  - rewrite Hfirst, Z.eqb_refl. reflexivity.
  - intros pid Hpid. rewrite Hfirst.
    destruct (Z.eqb_spec (EmbedRequest.property_id request) pid);
      [congruence|].
    destruct (first_embedding db pid); reflexivity.
  - intros model limit. unfold find_similar_properties.
    cbn [SimilarityRequest.property_id]. rewrite Hfirst, Z.eqb_refl.
    destruct (first_embedding db (EmbedRequest.property_id request));
      destruct model; try discriminate;
      destruct (score_rows _ _ _) eqn:Hs; try discriminate;
      apply score_rows_raises in Hs; congruence.
Qed.

(** X6.  The primary keys of the table: when every stored key is below the
    next key of the sequence and no key occurs twice, the same holds
    after [create_embedding], with or without the model, and the
    [embedding_id] that a successful call returns is the key of no
    earlier row. *)
Theorem create_embedding_keys (model : model_t) (request : EmbedRequest.t)
  (db : Session) :
  session_wf db ->
  session_wf (snd (create_embedding model request db)) /\
  forall response,
    fst (create_embedding model request db) = Ok response ->
    ~ In (EmbedResponse.embedding_id response)
        (map PropertyEmbedding.id (rows db)).
Proof.
  unfold session_wf. intros [Hbelow Hnodup].
  assert (Hfresh : ~ In (next_id db) (map PropertyEmbedding.id (rows db))).
  { intros Hin. apply in_map_iff in Hin. destruct Hin as (e & Heq & He).
    rewrite Forall_forall in Hbelow. specialize (Hbelow e He). lia. }
  destruct model as [encode|]; simpl.
  - split; [split|].
    + apply Forall_app. split.
      * eapply Forall_impl; [|exact Hbelow]. simpl. intros e He. lia.
      * constructor; [simpl; lia|constructor].
    + rewrite map_app. simpl.
      apply NoDup_app_remove_l with (l := []). simpl.
      apply Permutation_NoDup with (l := next_id db
                                          :: map PropertyEmbedding.id (rows db)).
      * apply Permutation_cons_append.
      * constructor; assumption.
    + intros response [= <-]. exact Hfresh.
  - split; [split; assumption|]. intros response H. discriminate.
Qed.

Lemma Exists_filter (A : Type) (f : A -> bool) (P : A -> Prop) (l : list A) :
  Exists P (filter f l) <-> Exists (fun x => f x = true /\ P x) l.
Proof.
  rewrite !Exists_exists. split.
  - intros (x & Hin & Hp). apply filter_In in Hin. exists x. tauto.
  - intros (x & Hin & Hf & Hp). exists x. split; [|exact Hp].
    apply filter_In. auto.
Qed.

(** X7.  The ways in which [find_similar_properties] fails.  It raises the
    404 or the [ValueError] of [np.dot], nothing else.  The [ValueError]
    arises exactly when the model is loaded, the listing has an embedding
    and a row of another listing holds a vector whose length differs from
    that of the reference; a row of the listing itself never causes it,
    and without the model it cannot arise. *)
Theorem find_similar_properties_failure (model : model_t)
  (request : SimilarityRequest.t) (db : Session) :
  (forall e,
     find_similar_properties model request db = Raise e ->
     e = HTTPException 404 "Property embedding not found" \/
     e = ValueError "shapes not aligned") /\
  (find_similar_properties model request db
     = Raise (ValueError "shapes not aligned") <->
   exists encode ref,
     model = Some encode /\
     first_embedding db (SimilarityRequest.property_id request) = Some ref /\
     Exists (fun emb =>
               PropertyEmbedding.property_id emb
                 <> SimilarityRequest.property_id request /\
               List.length (PropertyEmbedding.embedding emb)
                 <> List.length (PropertyEmbedding.embedding ref))
       (rows db)).
Proof.
  unfold find_similar_properties.
  set (pid := SimilarityRequest.property_id request).
  destruct (first_embedding db pid) as [ref|] eqn:Href.
  2:{ split; [intros e [= <-]; auto|]. split; [discriminate|].
      intros (encode & ref & _ & H & _). discriminate. }
  destruct model as [encode|].
  2:{ split; [discriminate|]. split; [discriminate|].
      intros (encode & ref' & H & _). discriminate. }
  pose proof (score_rows_raise_iff (PropertyEmbedding.embedding ref)
                (other_embeddings db pid) []) as Hiff.
  unfold other_embeddings in Hiff at 2. rewrite Exists_filter in Hiff.
  split.
  - intros e H.
    destruct (score_rows _ _ _) as [scored|e'] eqn:Hs; [discriminate|].
    injection H as <-. right. eapply score_rows_raises, Hs.
  - split.
    + intros H. exists encode, ref. repeat split.
      destruct (score_rows _ _ _) as [scored|e'] eqn:Hs; [discriminate|].
      assert (Hex : exists e, Raise (A := list SearchResult.t) e' = Raise e)
        by (eexists; reflexivity).
      apply Hiff in Hex. eapply Exists_impl; [|exact Hex].
      intros emb [Hf Hlen]. split; [|exact Hlen].
      apply negb_true_iff, Z.eqb_neq in Hf. exact Hf.
    + intros (encode' & ref' & _ & [= <-] & Hex).
      assert (Hex' : Exists
                (fun x => negb (PropertyEmbedding.property_id x =? pid) = true
                          /\ List.length (PropertyEmbedding.embedding x)
                             <> List.length (PropertyEmbedding.embedding ref))
                (rows db)).
      { eapply Exists_impl; [|exact Hex]. intros emb [Hp Hlen].
        split; [|exact Hlen]. apply negb_true_iff, Z.eqb_neq, Hp. }
      apply Hiff in Hex'. destruct Hex' as [e He]. rewrite He.
      apply score_rows_raises in He. congruence.
Qed.

(** X8.  The size of an answer of [find_similar_properties]:
    [results[:limit]] of a list with one entry per embedding record of
    the other listings (of two entries without the model); the records
    of the requested listing, however many, add none. *)
Theorem find_similar_properties_size (model : model_t)
  (request : SimilarityRequest.t) (db : Session)
  (results : list SearchResult.t) :
  find_similar_properties model request db = Ok results ->
  let n := match model with
           | Some _ =>
               List.length
                 (filter (fun e =>
                            negb (PropertyEmbedding.property_id e
                                  =? SimilarityRequest.property_id request))
                    (rows db))
           | None => 2%nat
           end in
  let limit := SimilarityRequest.limit request in
  List.length results
    = if limit <? 0
      then Z.to_nat (Z.max 0 (Z.of_nat n + limit))
      else Nat.min (Z.to_nat limit) n.
Proof.
  intros H n limit. unfold find_similar_properties in H.
  destruct (first_embedding db _) as [ref|]; [|discriminate].
  destruct model as [encode|].
  - destruct (score_rows _ _ _) as [scored|] eqn:Hs; [|discriminate].
    injection H as <-. rewrite slice_to_length_exact.
    destruct (score_rows_ok _ _ _ _ Hs) as (scored' & Heq & Hall).
    simpl in Heq. subst scored'.
    rewrite <- (Permutation_length (sort_desc_perm scored)).
    rewrite <- (Forall2_length Hall). reflexivity.
  - injection H as <-. rewrite slice_to_length_exact. reflexivity.
Qed.

(* ================================================================== *)
(** * Further properties of the orchestrator *)
(* ================================================================== *)

Lemma try_except_raise (A : Type) (m : M A) (h : exn -> exn) (w : World)
  (e : exn) (w' : World) :
  try_except m (fun e0 => raise (h e0)) w = (Raise e, w') ->
  exists e0, m w = (Raise e0, w') /\ e = h e0.
Proof.
  unfold try_except, raise. destruct (m w) as [[a|e0] w1]; intros H.
  - discriminate.
  - injection H as <- <-. exists e0. auto.
Qed.

Lemma bind_now (A : Type) (svc : Services) (k : float -> M A) (w : World) :
  bind (now svc) k w
    = k (time_time svc (clock w)) (mkWorld (calls w) (S (clock w))).
Proof. reflexivity. Qed.

Lemma expand_similar_raise (svc : Services) (properties : list Property.t)
  (top : list ScoredProperty.t) :
  forall similar w cause w',
    expand_similar svc top properties similar w = (Raise cause, w') ->
    exists before sp after,
      top = before ++ sp :: after /\
      Forall (fun sp => exists r,
                post_similarity svc (Property.id (ScoredProperty.prop sp)) 3
                  = Ok r) before /\
      post_similarity svc (Property.id (ScoredProperty.prop sp)) 3
        = Raise cause.
Proof.
  induction top as [|sp rest IH]; intros acc w cause w' H; simpl in H.
  - discriminate H.
  - unfold bind at 1, http at 1 in H.
    destruct (post_similarity svc (Property.id (ScoredProperty.prop sp)) 3)
      as [r|c] eqn:Hsp.
    + assert (Hrest : exists acc' w1,
                expand_similar svc rest properties acc' w1
                  = (Raise cause, w')).
      { destruct (Response.status_code r =? 200); eauto. }
      destruct Hrest as (acc' & w1 & Hrest).
      destruct (IH _ _ _ _ Hrest) as (before & sp' & after & -> & Hb & Hc).
      exists (sp :: before), sp', after.
      split; [reflexivity|]. split; [|exact Hc].
      constructor; [eauto|exact Hb].
    + injection H as <- _. exists [], sp, rest.
      split; [reflexivity|]. split; [constructor|exact Hsp].
Qed.

Lemma expand_similar_fails (svc : Services) (properties : list Property.t)
  (before : list ScoredProperty.t) (sp : ScoredProperty.t)
  (after : list ScoredProperty.t) (cause : exn) :
  Forall (fun sp => exists r,
            post_similarity svc (Property.id (ScoredProperty.prop sp)) 3
              = Ok r) before ->
  post_similarity svc (Property.id (ScoredProperty.prop sp)) 3
    = Raise cause ->
  forall similar w,
    exists w',
      expand_similar svc (before ++ sp :: after) properties similar w
        = (Raise cause, w').
Proof.
  intros Hb Hsp. induction Hb as [|x before [r Hr] _ IH]; intros acc w.
  - cbn [app expand_similar]. unfold bind, http. rewrite Hsp.
    eexists; reflexivity.
  - cbn [app expand_similar]. unfold bind at 1, http at 1. rewrite Hr.
    destruct (Response.status_code r =? 200); apply IH.
Qed.

(** The text flow fails exactly with the first exception of its
    requests, wrapped once. *)
Lemma process_text_query_raises (svc : Services) (request : QueryRequest.t)
  (w : World) (e : exn) :
  (exists w', process_text_query svc request w = (Raise e, w')) <->
  exists cause,
    first_failure svc request cause /\
    e = HTTPException 500 ("Error processing query: " ++ str cause)%string.
Proof.
  unfold first_failure.
  set (matching :=
         join (fetched_results svc request) (fetched_properties svc)).
  set (context :=
         map (fun sp => context_entry (ScoredProperty.prop sp)) matching).
  set (top := expanded (QueryRequest.include_similar request) matching).
  unfold process_text_query. rewrite bind_now.
  set (w1 := mkWorld (calls w) (S (clock w))).
  unfold try_except, bind at 1, http at 1.
  destruct (get_properties svc) as [store|c] eqn:Hstore.
  2:{ unfold raise. split.
      - intros (w' & H). injection H as <- _. exists c. split; auto.
      - intros (cause & [Hc|((store & Hs) & _)] & ->); [|discriminate Hs].
        injection Hc as <-. eexists; reflexivity. }
  assert (Hprops : (if Response.status_code store =? 200
                    then Response.json store else [])
                   = fetched_properties svc)
    by (unfold fetched_properties; rewrite Hstore; reflexivity).
  rewrite Hprops.
  unfold bind at 1, http at 1.
  destruct (post_search svc (QueryRequest.query request)
              (QueryRequest.max_results request)) as [found|c] eqn:Hfound.
  2:{ unfold raise. split.
      - intros (w' & H). injection H as <- _. exists c.
        split; [|reflexivity]. right. split; [eauto|]. left. reflexivity.
      - intros (cause & [Hc|(_ & [Hc|((found & Hf) & _)])] & ->);
          try discriminate.
        injection Hc as <-. eexists; reflexivity. }
  assert (Hres : (if Response.status_code found =? 200
                  then Response.json found else [])
                 = fetched_results svc request)
    by (unfold fetched_results; rewrite Hfound; reflexivity).
  rewrite Hres, match_results_spec. cbn [app].
  fold matching. fold context.
  unfold bind at 1, http at 1.
  destruct (post_process_query svc (QueryRequest.query request) context)
    as [llm|c] eqn:Hllm.
  2:{ unfold raise. split.
      - intros (w' & H). injection H as <- _. exists c.
        split; [|reflexivity]. right. split; [eauto|]. right.
        split; [eauto|]. left. reflexivity.
      - intros (cause
                & [Hc|(_ & [Hc|(_ & [Hc|((llm & Hl) & _)])])] & ->);
          try discriminate.
        injection Hc as <-. eexists; reflexivity. }
  unfold bind at 1.
  assert (Htop : top = if QueryRequest.include_similar request
                          && negb (Nat.eqb (List.length matching) 0)
                       then slice_to matching 2 else []) by reflexivity.
  destruct (QueryRequest.include_similar request
            && negb (Nat.eqb (List.length matching) 0)).
  2:{ split.
      - intros (w' & H). unfold ret, bind, now, raise in H. discriminate H.
      - intros (cause & [Hc|(_ & [Hc|(_ & [Hc|(_ & Hsim)])])] & _);
          try discriminate.
        destruct Hsim as (before & sp & after & Heq & _).
        rewrite Htop in Heq. destruct before; discriminate Heq. }
  match goal with
  | |- context [expand_similar svc ?t ?p ?a ?w0] =>
      destruct (expand_similar svc t p a w0) as [[similar|c] w2] eqn:Hexp
  end.
  - split.
    + intros (w' & H). unfold ret, bind, now, raise in H. discriminate H.
    + intros (cause & [Hc|(_ & [Hc|(_ & [Hc|(_ & Hsim)])])] & _);
        try discriminate.
      destruct Hsim as (before & sp & after & Heq & Hb & Hsp).
      rewrite Htop in Heq.
      match type of Hexp with
      | expand_similar svc _ ?p ?a ?w0 = _ =>
          destruct (expand_similar_fails svc p before sp after cause Hb Hsp
                      a w0) as (w' & Hfail)
      end.
      rewrite <- Heq in Hfail. congruence.
  - unfold raise. split.
    + intros (w' & H). injection H as <- _. exists c.
      split; [|reflexivity]. right. split; [eauto|]. right.
      split; [eauto|]. right. split; [eauto|].
      rewrite Htop. eapply expand_similar_raise, Hexp.
    + intros (cause & [Hc|(_ & [Hc|(_ & [Hc|(_ & Hsim)])])] & ->);
        try discriminate.
      destruct Hsim as (before & sp & after & Heq & Hb & Hsp).
      rewrite Htop in Heq.
      match type of Hexp with
      | expand_similar svc _ ?p ?a ?w0 = _ =>
          destruct (expand_similar_fails svc p before sp after cause Hb Hsp
                      a w0) as (w' & Hfail)
      end.
      rewrite <- Heq in Hfail. rewrite Hfail in Hexp.
      injection Hexp as <- _. eexists; reflexivity.
Qed.

(** What happens in a voice handler from the transcription request on,
    [k] being the rest of the handler after the text flow. *)
Lemma after_transcription_raises (svc : Services) (c : Call)
  (answer : result (Response.t TranscriptionResult.t)) (detail : string)
  (k : TranscriptionResult.t -> QueryResponse.t -> M VoiceQueryResponse.t)
  (w : World) (cause : exn) :
  (forall tr text w1 e w2, k tr text w1 <> (Raise e, w2)) ->
  (exists w',
     (transcription_response <- http c answer ;;
      if negb (Response.status_code transcription_response =? 200)
      then raise (HTTPException 400 detail)
      else
        text_query_result <-
          process_text_query svc
            (QueryRequest.of_query
               (TranscriptionResult.transcription
                  (Response.json transcription_response))) ;;
        k (Response.json transcription_response) text_query_result) w
     = (Raise cause, w')) <->
  after_transcription svc answer detail cause.
Proof.
  intros Hk. unfold after_transcription, bind at 1, http at 1.
  destruct answer as [tr|c0].
  2:{ split.
      - intros (w' & H). injection H as <- _. left. reflexivity.
      - intros [H|(tr & H & _)]; [|discriminate H].
        injection H as <-. eexists; reflexivity. }
  destruct (Z.eqb_spec (Response.status_code tr) 200) as [H200|H200];
    cbn [negb].
  - unfold bind at 1.
    set (q := QueryRequest.of_query
                (TranscriptionResult.transcription (Response.json tr))).
    set (w1 := mkWorld (calls w ++ [c]) (clock w)).
    destruct (process_text_query svc q w1) as [[text|e] w2] eqn:Hrun.
    + split.
      * intros (w' & H). exfalso. exact (Hk _ _ _ _ _ H).
      * intros [H|(tr' & Htr & [[Hne _]|[_ (inner & Hinner & ->)]])];
          [discriminate H|injection Htr as <-; contradiction|].
        injection Htr as <-.
        assert (Hex : exists w', process_text_query svc q w1
                                 = (Raise (HTTPException 500
                                             ("Error processing query: "
                                              ++ str inner)%string), w')).
        { apply process_text_query_raises. exists inner. auto. }
        destruct Hex as (w' & Hex). congruence.
    + assert (Hex : exists w', process_text_query svc q w1 = (Raise e, w'))
        by eauto.
      apply process_text_query_raises in Hex.
      destruct Hex as (inner & Hinner & ->). split.
      * intros (w' & H). injection H as <- _. right. exists tr.
        split; [reflexivity|]. right. split; [exact H200|].
        exists inner. auto.
      * intros [H|(tr' & Htr & [[Hne _]|[_ (inner' & Hinner' & ->)]])];
          [discriminate H|injection Htr as <-; contradiction|].
        injection Htr as <-.
        assert (Hex : exists w', process_text_query svc q w1
                                 = (Raise (HTTPException 500
                                             ("Error processing query: "
                                              ++ str inner')%string), w')).
        { apply process_text_query_raises. exists inner'. auto. }
        destruct Hex as (w' & Hex). rewrite Hrun in Hex.
        injection Hex as -> _. eexists; reflexivity.
  - unfold raise. split.
    + intros (w' & H). injection H as <- _. right. exists tr.
      split; [reflexivity|]. left. auto.
    + intros [H|(tr' & Htr & [[_ ->]|[Heq _]])];
        [discriminate H| |injection Htr as <-; contradiction].
      eexists; reflexivity.
Qed.

(** X9.  How the three handlers of the orchestrator fail.  Each fails
    exactly with an [HTTPException] with status 500 whose detail is the
    handler's prefix followed by the text of the cause, and the cause is
    the exception that was raised inside the [try] block.  In the text
    flow that is the exception of the first request that raises: the
    listing store, the search, the generator, or a similarity request
    for an expanded match.  In the voice flows it is the exception of
    the upload or of the transcription request; or the exception with
    status 400 that the handler raises itself for an upload or a
    transcription answered with a status other than 200; or the
    exception with status 500 of the text flow run on the transcript,
    which is then wrapped a second time. *)
Theorem handlers_fail_with_500 (svc : Services) :
  (forall request w e,
     (exists w', process_text_query svc request w = (Raise e, w')) <->
     exists cause,
       first_failure svc request cause /\
       e = HTTPException 500
             ("Error processing query: " ++ str cause)%string) /\
  (forall file w e,
     (exists w', process_voice_query svc file w = (Raise e, w')) <->
     exists cause,
       (post_upload_audio svc file = Raise cause \/
        exists up,
          post_upload_audio svc file = Ok up /\
          (Response.status_code up <> 200 /\
           cause = HTTPException 400 "Failed to upload audio file" \/
           Response.status_code up = 200 /\
           after_transcription svc
             (post_transcribe_file svc
                (UploadResult.file_id (Response.json up)))
             "Failed to transcribe audio" cause)) /\
       e = HTTPException 500
             ("Error processing voice query: " ++ str cause)%string) /\
  (forall w e,
     (exists w', process_voice_query_simple svc w = (Raise e, w')) <->
     exists cause,
       after_transcription svc (post_transcribe svc)
         "Failed to get transcription" cause /\
       e = HTTPException 500
             ("Error processing voice query: " ++ str cause)%string).
Proof.
  split; [intros request w e; apply process_text_query_raises|].
  split.
  - intros file w e. unfold process_voice_query. rewrite bind_now.
    set (w1 := mkWorld (calls w) (S (clock w))).
    set (t0 := time_time svc (clock w)).
    unfold try_except, bind at 1, http at 1.
    destruct (post_upload_audio svc file) as [up|c] eqn:Hup.
    2:{ unfold raise. split.
        - intros (w' & H). injection H as <- _. exists c. auto.
        - intros (cause & [Hc|(up & Hu & _)] & ->); [|discriminate Hu].
          injection Hc as <-. eexists; reflexivity. }
    destruct (Z.eqb_spec (Response.status_code up) 200) as [H200|H200];
      cbn [negb].
    + set (w2 := mkWorld (calls w1 ++ [PostUploadAudio file]) (clock w1)).
      pose proof (fun cause =>
        after_transcription_raises svc
          (PostTranscribeFile (UploadResult.file_id (Response.json up)))
          (post_transcribe_file svc (UploadResult.file_id (Response.json up)))
          "Failed to transcribe audio"
          (fun tr text =>
             end_time <- now svc ;;
             ret (VoiceQueryResponse.mk
                    (TranscriptionResult.transcription tr)
                    (TranscriptionResult.transcription tr)
                    (QueryResponse.answer text)
                    (QueryResponse.matching_properties text)
                    (TranscriptionResult.confidence tr)
                    (fsub end_time t0)))
          w2 cause
          ltac:(intros tr text w3 e0 w4 H; discriminate H)) as Hstep.
      cbv beta in Hstep.
      match goal with
      | |- context [match ?m w2 with _ => _ end] =>
          assert (Hstep' : forall cause,
                    (exists w', m w2 = (Raise cause, w')) <->
                    after_transcription svc
                      (post_transcribe_file svc
                         (UploadResult.file_id (Response.json up)))
                      "Failed to transcribe audio" cause) by exact Hstep;
          clear Hstep;
          destruct (m w2) as [[a|c] w3]
      end.
      * split.
        -- intros (w' & H). discriminate H.
        -- intros (cause & [Hc|(up' & Hu & [[Hne _]|[_ Hafter]])] & _);
             [discriminate Hc|injection Hu as <-; contradiction|].
           injection Hu as <-. apply Hstep' in Hafter.
           destruct Hafter as (w' & Hafter). discriminate Hafter.
      * unfold raise. split.
        -- intros (w' & H). injection H as <- _. exists c.
           split; [|reflexivity]. right. exists up.
           split; [reflexivity|]. right. split; [exact H200|].
           apply Hstep'. eexists; reflexivity.
        -- intros (cause & [Hc|(up' & Hu & [[Hne _]|[_ Hafter]])] & ->);
             [discriminate Hc|injection Hu as <-; contradiction|].
           injection Hu as <-. apply Hstep' in Hafter.
           destruct Hafter as (w' & Hafter). injection Hafter as -> _.
           eexists; reflexivity.
    + unfold raise. split.
      * intros (w' & H). injection H as <- _.
        exists (HTTPException 400 "Failed to upload audio file").
        split; [|reflexivity]. right. exists up. split; [reflexivity|].
        left. auto.
      * intros (cause & [Hc|(up' & Hu & [[_ ->]|[Heq _]])] & ->);
          [discriminate Hc| |injection Hu as <-; contradiction].
        eexists; reflexivity.
  - intros w e. unfold process_voice_query_simple. rewrite bind_now.
    set (w1 := mkWorld (calls w) (S (clock w))).
    set (t0 := time_time svc (clock w)).
    unfold try_except.
    pose proof (fun cause =>
      after_transcription_raises svc PostTranscribe (post_transcribe svc)
        "Failed to get transcription"
        (fun tr text =>
           end_time <- now svc ;;
           ret (VoiceQueryResponse.mk
                  (TranscriptionResult.transcription tr)
                  (TranscriptionResult.transcription tr)
                  (QueryResponse.answer text)
                  (QueryResponse.matching_properties text)
                  (TranscriptionResult.confidence tr)
                  (fsub end_time t0)))
        w1 cause
        ltac:(intros tr text w3 e0 w4 H; discriminate H)) as Hstep.
    cbv beta in Hstep.
    match goal with
    | |- context [match ?m w1 with _ => _ end] =>
        assert (Hstep' : forall cause,
                  (exists w', m w1 = (Raise cause, w')) <->
                  after_transcription svc (post_transcribe svc)
                    "Failed to get transcription" cause) by exact Hstep;
        clear Hstep;
        destruct (m w1) as [[a|c] w3]
    end.
    + split.
      * intros (w' & H). discriminate H.
      * intros (cause & Hafter & _). apply Hstep' in Hafter.
        destruct Hafter as (w' & Hafter). discriminate Hafter.
    + unfold raise. split.
      * intros (w' & H). injection H as <- _. exists c.
        split; [|reflexivity]. apply Hstep'. eexists; reflexivity.
      * intros (cause & Hafter & ->). apply Hstep' in Hafter.
        destruct Hafter as (w' & Hafter). injection Hafter as -> _.
        eexists; reflexivity.
Qed.

Lemma expand_similar_run (svc : Services) (properties : list Property.t)
  (top : list ScoredProperty.t) :
  Forall (fun sp => exists r,
            post_similarity svc (Property.id (ScoredProperty.prop sp)) 3
              = Ok r) top ->
  forall similar w,
    expand_similar svc top properties similar w
      = (Ok (similar ++ flat_map (similar_of svc properties) top),
         mkWorld (calls w ++ map similarity_call top) (clock w)).
Proof.
  induction 1 as [|sp rest [r Hr] _ IH]; intros acc w; simpl.
  - rewrite !app_nil_r. destruct w. reflexivity.
  - unfold bind, http. rewrite Hr.
    assert (Hsim : similar_of svc properties sp
                   = if Response.status_code r =? 200
                     then join (Response.json r) properties else []).
    { unfold similar_of. rewrite Hr. reflexivity. }
    rewrite Hsim.
    destruct (Response.status_code r =? 200); rewrite IH; simpl;
      rewrite ?match_similars_spec, <- ?app_assoc; reflexivity.
Qed.

Lemma expand_similar_returned (svc : Services) (properties : list Property.t)
  (top : list ScoredProperty.t) :
  forall similar w result w',
    expand_similar svc top properties similar w = (Ok result, w') ->
    Forall (fun sp => exists r,
              post_similarity svc (Property.id (ScoredProperty.prop sp)) 3
                = Ok r) top.
Proof.
  induction top as [|sp rest IH]; intros acc w result w' H; simpl in H.
  - constructor.
  - apply bind_ok in H. destruct H as (r & w1 & Hcall & H).
    apply http_ok in Hcall. destruct Hcall as [Hcall ->].
    constructor; [eauto|].
    destruct (Response.status_code r =? 200); eapply IH, H.
Qed.

Lemma process_text_query_run (svc : Services) (request : QueryRequest.t)
  (w : World) (store : Response.t (list Property.t))
  (found : Response.t (list SearchResult.t)) (llm : Response.t LLMResult.t) :
  let properties := fetched_properties svc in
  let matching := join (fetched_results svc request) properties in
  let context :=
    map (fun sp => context_entry (ScoredProperty.prop sp)) matching in
  let top := expanded (QueryRequest.include_similar request) matching in
  get_properties svc = Ok store ->
  post_search svc (QueryRequest.query request)
    (QueryRequest.max_results request) = Ok found ->
  post_process_query svc (QueryRequest.query request) context = Ok llm ->
  Forall (fun sp => exists r,
            post_similarity svc (Property.id (ScoredProperty.prop sp)) 3
              = Ok r) top ->
  process_text_query svc request w
    = (Ok (QueryResponse.mk (QueryRequest.query request) (answer_of llm)
             matching
             (firstn 5 (flat_map (similar_of svc properties) top))
             (fsub (time_time svc (S (clock w))) (time_time svc (clock w)))),
       mkWorld
         (calls w
          ++ [ GetProperties;
               PostSearch (QueryRequest.query request)
                 (QueryRequest.max_results request);
               PostProcessQuery (QueryRequest.query request) context ]
          ++ map similarity_call top)
         (S (S (clock w)))).
Proof.
  intros properties matching context top Hstore Hfound Hllm Htop.
  assert (Hprops : (if Response.status_code store =? 200
                    then Response.json store else []) = properties)
    by (unfold properties, fetched_properties; rewrite Hstore; reflexivity).
  assert (Hres : (if Response.status_code found =? 200
                  then Response.json found else [])
                 = fetched_results svc request)
    by (unfold fetched_results; rewrite Hfound; reflexivity).
  unfold process_text_query. rewrite bind_now.
  unfold try_except, bind at 1, http at 1. rewrite Hstore.
  unfold bind at 1, http at 1. rewrite Hfound.
  rewrite Hprops, Hres, match_results_spec. cbn [app].
  fold matching. fold context.
  unfold bind at 1, http at 1. rewrite Hllm.
  unfold bind at 1.
  assert (Hexp : forall w0,
            (if QueryRequest.include_similar request
                && negb (Nat.eqb (List.length matching) 0)
             then expand_similar svc (slice_to matching 2) properties []
             else ret []) w0
            = (Ok (flat_map (similar_of svc properties) top),
               mkWorld (calls w0 ++ map similarity_call top) (clock w0))).
  { intros w0. unfold top, expanded in *.
    destruct (QueryRequest.include_similar request
              && negb (Nat.eqb (List.length matching) 0)).
    - change (slice_to matching 2) with (firstn 2 matching).
      rewrite (expand_similar_run svc properties _ Htop). reflexivity.
    - unfold ret. simpl. rewrite app_nil_r. destruct w0. reflexivity. }
  rewrite Hexp. unfold bind, now, ret. cbn [calls clock].
  rewrite <- !app_assoc. cbn [app].
  unfold answer_of. destruct (Response.status_code llm =? 200); reflexivity.
Qed.

(** X10.  [process_text_query] returns a response exactly when none of its
    requests raises: the request to the listing store, the search, the
    request to the response generator and the similarity requests for the
    expanded matches.  The status codes of the answers play no part in
    that: any answer that arrives is absorbed. *)
Theorem process_text_query_returns_iff (svc : Services)
  (request : QueryRequest.t) (w : World) :
  let matching :=
    join (fetched_results svc request) (fetched_properties svc) in
  let context :=
    map (fun sp => context_entry (ScoredProperty.prop sp)) matching in
  let top := expanded (QueryRequest.include_similar request) matching in
  (exists response w', process_text_query svc request w = (Ok response, w'))
  <->
  (exists store, get_properties svc = Ok store) /\
  (exists found,
     post_search svc (QueryRequest.query request)
       (QueryRequest.max_results request) = Ok found) /\
  (exists llm,
     post_process_query svc (QueryRequest.query request) context = Ok llm) /\
  Forall (fun sp => exists r,
            post_similarity svc (Property.id (ScoredProperty.prop sp)) 3
              = Ok r) top.
Proof.
  intros matching context top. split.
  - intros (response & w' & H). unfold process_text_query in H.
    rewrite bind_now in H. apply try_except_ok in H.
    apply bind_ok in H. destruct H as (pr & w1 & Hpr & H).
    apply http_ok in Hpr. destruct Hpr as [Hpr ->].
    apply bind_ok in H. destruct H as (sr & w2 & Hsr & H).
    apply http_ok in Hsr. destruct Hsr as [Hsr ->].
    rewrite match_results_spec in H. cbn [app] in H.
    assert (Hprops : fetched_properties svc
                     = if Response.status_code pr =? 200
                       then Response.json pr else [])
      by (unfold fetched_properties; rewrite Hpr; reflexivity).
    assert (Hres : fetched_results svc request
                   = if Response.status_code sr =? 200
                     then Response.json sr else [])
      by (unfold fetched_results; rewrite Hsr; reflexivity).
    rewrite <- Hprops, <- Hres in H. fold matching in H. fold context in H.
    apply bind_ok in H. destruct H as (llm & w3 & Hllm & H).
    apply http_ok in Hllm. destruct Hllm as [Hllm ->].
    apply bind_ok in H. destruct H as (sim & w4 & Hsim & _).
    repeat split; eauto.
    unfold top, expanded.
    destruct (QueryRequest.include_similar request
              && negb (Nat.eqb (List.length matching) 0)).
    + eapply expand_similar_returned, Hsim.
    + constructor.
  - intros ((store & Hstore) & (found & Hfound) & (llm & Hllm) & Htop).
    eexists. eexists.
    apply (process_text_query_run svc request w store found llm);
      assumption.
Qed.

(** X11.  When the search answers with a status other than 200 (the listing
    store and the response generator answering at all),
    [process_text_query] goes on with no ranked entries: the response has
    no matching and no similar listings, the generator is asked with an
    empty context and no similarity request is sent. *)
Theorem search_error_status_degrades (svc : Services)
  (request : QueryRequest.t) (w : World)
  (store : Response.t (list Property.t))
  (found : Response.t (list SearchResult.t)) (llm : Response.t LLMResult.t) :
  get_properties svc = Ok store ->
  post_search svc (QueryRequest.query request)
    (QueryRequest.max_results request) = Ok found ->
  Response.status_code found <> 200 ->
  post_process_query svc (QueryRequest.query request) [] = Ok llm ->
  process_text_query svc request w
    = (Ok (QueryResponse.mk (QueryRequest.query request) (answer_of llm)
             [] []
             (fsub (time_time svc (S (clock w))) (time_time svc (clock w)))),
       mkWorld
         (calls w ++ [ GetProperties;
                       PostSearch (QueryRequest.query request)
                         (QueryRequest.max_results request);
                       PostProcessQuery (QueryRequest.query request) [] ])
         (S (S (clock w)))).
Proof.
  intros Hstore Hfound Hstatus Hllm.
  assert (Hres : fetched_results svc request = []).
  { unfold fetched_results. rewrite Hfound.
    apply Z.eqb_neq in Hstatus. rewrite Hstatus. reflexivity. }
  pose proof (process_text_query_run svc request w store found llm) as Hrun.
  rewrite Hres in Hrun. cbn [join flat_map map] in Hrun.
  unfold expanded in Hrun. cbn [List.length Nat.eqb negb] in Hrun.
  rewrite andb_false_r in Hrun. cbn [flat_map firstn map] in Hrun.
  rewrite app_nil_r in Hrun. apply Hrun; auto.
Qed.

Lemma join_cons (r : SearchResult.t) (rest : list SearchResult.t)
  (properties : list Property.t) :
  join (r :: rest) properties
    = match resolve properties r with
      | Some p => scored p r :: join rest properties
      | None => join rest properties
      end.
Proof. simpl. destruct (resolve properties r); reflexivity. Qed.

Lemma resolve_known (properties : list Property.t) (r : SearchResult.t) :
  known properties r
    = match resolve properties r with Some _ => true | None => false end.
Proof.
  unfold known, resolve.
  induction properties as [|p ps IH]; simpl; [reflexivity|].
  destruct (Property.id p =? SearchResult.property_id r); [reflexivity|].
  exact IH.
Qed.

Lemma join_ids (results : list SearchResult.t)
  (properties : list Property.t) :
  map (fun sp => Property.id (ScoredProperty.prop sp))
    (join results properties)
    = map SearchResult.property_id (filter (known properties) results).
Proof.
  induction results as [|r rs IH]; [reflexivity|].
  rewrite join_cons. cbn [filter]. rewrite resolve_known.
  destruct (resolve properties r) as [p|] eqn:Hr; [|exact IH].
  cbn [map]. rewrite IH. f_equal.
  apply resolve_first in Hr. destruct Hr as (_ & _ & _ & Hid & _).
  exact Hid.
Qed.

Lemma join_scores (results : list SearchResult.t)
  (properties : list Property.t) :
  map ScoredProperty.similarity_score (join results properties)
    = map SearchResult.similarity (filter (known properties) results).
Proof.
  induction results as [|r rs IH]; [reflexivity|].
  rewrite join_cons. cbn [filter]. rewrite resolve_known.
  destruct (resolve properties r) as [p|]; [|exact IH].
  cbn [map]. rewrite IH. reflexivity.
Qed.

Lemma join_length (results : list SearchResult.t)
  (properties : list Property.t) :
  (List.length (join results properties) <= List.length results)%nat.
Proof.
  induction results as [|r rs IH]; [apply Nat.le_refl|].
  rewrite join_cons. destruct (resolve properties r); simpl; lia.
Qed.

(** X12.  The matching listings keep the ranking.  The loops of step 3,
    run on the ranked entries and the fetched listings, give one
    matching listing per ranked entry whose identifier some fetched
    listing carries, in rank order, with the identifier and the
    similarity of that entry; entries that no listing carries give
    nothing, so there are never more matching listings than ranked
    entries, and an entry that occurs twice gives its listing twice.
    The [matching_properties] of every response of [process_text_query]
    are the result of these loops on what the search and the listing
    store answered, so all of this holds of them. *)
Theorem join_keeps_ranking (results : list SearchResult.t)
  (properties : list Property.t) :
  (let matching := fst (match_results results properties [] []) in
   let kept := filter (known properties) results in
   map (fun sp => Property.id (ScoredProperty.prop sp)) matching
     = map SearchResult.property_id kept /\
   map ScoredProperty.similarity_score matching
     = map SearchResult.similarity kept /\
   (List.length matching <= List.length results)%nat) /\
  (forall svc request w response w',
     process_text_query svc request w = (Ok response, w') ->
     let matching := QueryResponse.matching_properties response in
     let ranked := fetched_results svc request in
     let kept := filter (known (fetched_properties svc)) ranked in
     matching
       = fst (match_results ranked (fetched_properties svc) [] []) /\
     map (fun sp => Property.id (ScoredProperty.prop sp)) matching
       = map SearchResult.property_id kept /\
     map ScoredProperty.similarity_score matching
       = map SearchResult.similarity kept /\
     (List.length matching <= List.length ranked)%nat).
Proof.
  split.
  - rewrite match_results_spec. cbn [fst app].
    split; [apply join_ids|]. split; [apply join_scores|apply join_length].
  - intros svc request w response w' H.
    apply process_text_query_ok in H. destruct H as (llm & _ & -> & _).
    cbn [QueryResponse.matching_properties].
    rewrite match_results_spec. cbn [fst app].
    split; [reflexivity|]. split; [apply join_ids|].
    split; [apply join_scores|apply join_length].
Qed.

Lemma join_In (results : list SearchResult.t) (properties : list Property.t)
  (sp : ScoredProperty.t) :
  In sp (join results properties) ->
  exists r, In r results /\
            ScoredProperty.similarity_score sp = SearchResult.similarity r.
Proof.
  induction results as [|r rs IH]; [intros []|].
  rewrite join_cons. destruct (resolve properties r) as [p|].
  - intros [<-|Hin].
    + exists r. split; [left|]; reflexivity.
    + destruct (IH Hin) as (r' & Hr' & Hs). exists r'. split; [right|]; auto.
  - intros Hin. destruct (IH Hin) as (r' & Hr' & Hs).
    exists r'. split; [right|]; auto.
Qed.

Lemma join_sorted (results : list SearchResult.t)
  (properties : list Property.t) :
  StronglySorted desc results ->
  StronglySorted by_score (join results properties).
Proof.
  induction 1 as [|r rs _ IH Hall]; [constructor|].
  rewrite join_cons. destruct (resolve properties r) as [p|]; [|exact IH].
  constructor; [exact IH|].
  apply Forall_forall. intros sp Hsp.
  destruct (join_In _ _ _ Hsp) as (r' & Hr' & Hs).
  rewrite Forall_forall in Hall. specialize (Hall r' Hr').
  unfold by_score, desc in *. simpl. rewrite Hs. exact Hall.
Qed.

(** X13.  The two services composed.  When the answers with status 200 to the
    search requests of the orchestrator carry what [search_properties] of
    the embedding index returns, a response of [process_text_query] for a [max_results] that is
    not negative has at most [max_results] matching listings; and when
    the similarities of the stored rows to the query are numbers, the
    matching listings stand in the order of their scores, highest
    first. *)
Theorem matching_properties_ranked (svc : Services)
  (request : QueryRequest.t) (w : World) (response : QueryResponse.t)
  (w' : World) (model : model_t) (db : Session) :
  (forall q n r,
     post_search svc q n = Ok r ->
     Response.status_code r = 200 ->
     search_properties model (SearchRequest.mk q n) db
       = Ok (Response.json r)) ->
  0 <= QueryRequest.max_results request ->
  process_text_query svc request w = (Ok response, w') ->
  (List.length (QueryResponse.matching_properties response)
   <= Z.to_nat (QueryRequest.max_results request))%nat /\
  ((forall encode, model = Some encode ->
      Forall (fun e => exists s,
                cosine_similarity (encode (QueryRequest.query request))
                  (PropertyEmbedding.embedding e) = Some s /\
                is_nan s = false) (rows db)) ->
   StronglySorted by_score (QueryResponse.matching_properties response)).
Proof.
  intros Hsearch Hmax H.
  apply process_text_query_ok in H. destruct H as (llm & _ & -> & _).
  cbn [QueryResponse.matching_properties].
  set (sreq := SearchRequest.mk (QueryRequest.query request)
                 (QueryRequest.max_results request)).
  assert (Hres : fetched_results svc request = [] \/
                 search_properties model sreq db
                   = Ok (fetched_results svc request)).
  { unfold fetched_results.
    destruct (post_search svc _ _) as [r|e] eqn:Hr; [|left; reflexivity].
    destruct (Z.eqb_spec (Response.status_code r) 200) as [H200|];
      [|left; reflexivity].
    right. apply (Hsearch _ _ r Hr H200). }
  destruct Hres as [->|Hs].
  { split; [apply Nat.le_0_l|]. intros _. constructor. }
  split.
  - eapply Nat.le_trans; [apply join_length|].
    unfold search_properties in Hs. destruct model as [encode|].
    + destruct (score_rows _ _ _) as [scored|]; [|discriminate].
      injection Hs as <-. apply slice_to_length, Hmax.
    + injection Hs as <-. apply slice_to_length, Hmax.
  - intros Hnum. apply join_sorted.
    unfold search_properties in Hs. destruct model as [encode|].
    + destruct (score_rows _ _ _) as [scored|] eqn:Hrows; [|discriminate].
      injection Hs as <-.
      destruct (score_rows_ok _ _ _ _ Hrows) as (scored' & Heq & Hall).
      simpl in Heq. subst scored'.
      rewrite slice_to_nonneg by exact Hmax.
      apply StronglySorted_firstn, sort_desc_sorted.
      eapply scores_no_nan; [apply (Hnum encode eq_refl)|exact Hall].
    + injection Hs as <-. rewrite slice_to_nonneg by exact Hmax.
      apply StronglySorted_firstn, mock_results_sorted.
Qed.

(** X14.  The preconditions of the voice flow are fatal.  When the upload is
    answered with a status other than 200, or raises, the request fails
    after that one call; when the transcription is answered with a
    status other than 200, it fails after these two calls.  In no case
    is the text flow entered, and the statuses 400 that the handler
    raises reach the caller as 500. *)
Theorem voice_query_preconditions (svc : Services) (file : UploadFile.t)
  (w : World) :
  (forall up,
     post_upload_audio svc file = Ok up ->
     Response.status_code up <> 200 ->
     process_voice_query svc file w
       = (Raise (HTTPException 500
                   "Error processing voice query: 400: Failed to upload audio file"),
          mkWorld (calls w ++ [PostUploadAudio file]) (S (clock w)))) /\
  (forall e,
     post_upload_audio svc file = Raise e ->
     process_voice_query svc file w
       = (Raise (HTTPException 500
                   ("Error processing voice query: " ++ str e)%string),
          mkWorld (calls w ++ [PostUploadAudio file]) (S (clock w)))) /\
  (forall up tr,
     post_upload_audio svc file = Ok up ->
     Response.status_code up = 200 ->
     post_transcribe_file svc (UploadResult.file_id (Response.json up))
       = Ok tr ->
     Response.status_code tr <> 200 ->
     process_voice_query svc file w
       = (Raise (HTTPException 500
                   "Error processing voice query: 400: Failed to transcribe audio"),
          mkWorld
            (calls w ++ [ PostUploadAudio file;
                          PostTranscribeFile
                            (UploadResult.file_id (Response.json up)) ])
            (S (clock w)))).
Proof.
  repeat split.
  - intros up Hup Hstatus. apply Z.eqb_neq in Hstatus.
    unfold process_voice_query. rewrite bind_now.
    unfold try_except, bind, http, raise. rewrite Hup, Hstatus.
    reflexivity.
  - intros e He. unfold process_voice_query. rewrite bind_now.
    unfold try_except, bind, http, raise. rewrite He. reflexivity.
  - intros up tr Hup Hup200 Htr Hstatus. apply Z.eqb_neq in Hstatus.
    unfold process_voice_query. rewrite bind_now.
    unfold try_except, bind, http, raise.
    rewrite Hup, Hup200. cbn [Z.eqb Pos.eqb negb].
    rewrite Htr, Hstatus. cbn [negb calls clock].
    rewrite <- app_assoc. reflexivity.
Qed.

Lemma generator_context_aux (svc : Services) (request : QueryRequest.t)
  (w : World) (response : QueryResponse.t) (w' : World) :
  process_text_query svc request w = (Ok response, w') ->
  calls w'
    = calls w
      ++ [ GetProperties;
           PostSearch (QueryRequest.query request)
             (QueryRequest.max_results request);
           PostProcessQuery (QueryRequest.query request)
             (map (fun sp => context_entry (ScoredProperty.prop sp))
                (QueryResponse.matching_properties response)) ]
      ++ map similarity_call
           (expanded (QueryRequest.include_similar request)
              (QueryResponse.matching_properties response)) /\
  clock w' = S (S (clock w)).
Proof.
  intros H. apply process_text_query_ok in H.
  destruct H as (llm & _ & -> & Hcalls & Hclock). auto.
Qed.

(** X15.  What the response generator is asked, and when.  In a run of
    [process_text_query] that returns, the requests are sent in this
    order: the listing store, the search, the generator, then one
    similarity request per expanded match.  The context sent to the
    generator has one entry per matching listing, in rank order, each
    carrying the identifier, title, price and the bedroom, bathroom, area
    and location values of that listing; the similar listings, fetched
    afterwards, are never part of it.  The clock is read twice. *)
Theorem generator_context (svc : Services) (request : QueryRequest.t)
  (w : World) (response : QueryResponse.t) (w' : World) :
  process_text_query svc request w = (Ok response, w') ->
  let matching := QueryResponse.matching_properties response in
  calls w'
    = calls w
      ++ [ GetProperties;
           PostSearch (QueryRequest.query request)
             (QueryRequest.max_results request);
           PostProcessQuery (QueryRequest.query request)
             (map (fun sp => context_entry (ScoredProperty.prop sp))
                matching) ]
      ++ map similarity_call
           (expanded (QueryRequest.include_similar request) matching) /\
  Forall2 (fun sp c =>
             Context.property_id c = Property.id (ScoredProperty.prop sp) /\
             Context.title c = Property.title (ScoredProperty.prop sp) /\
             Context.price c = Property.price (ScoredProperty.prop sp) /\
             Context.details c
               = (Property.bedrooms (ScoredProperty.prop sp),
                  Property.bathrooms (ScoredProperty.prop sp),
                  Property.area (ScoredProperty.prop sp),
                  Property.location (ScoredProperty.prop sp)))
    matching
    (map (fun sp => context_entry (ScoredProperty.prop sp)) matching) /\
  clock w' = S (S (clock w)).
Proof.
  intros H matching. apply generator_context_aux in H.
  destruct H as (Hcalls & Hclock).
  split; [exact Hcalls|]. split; [|exact Hclock].
  clearbody matching. clear Hcalls.
  induction matching as [|sp l IH]; simpl; constructor; auto.
Qed.

(** X16.  The requests of a voice query.  A run of [process_voice_query] that
    returns has sent the upload, the transcription request for the file
    identifier the upload answered, and then the requests of the text
    flow for the transcript with the default parameters: the search asks
    for 5 results, and the similar listings of the two best matches are
    requested, although the voice response has no field for them.  The
    clock is read four times. *)
Theorem voice_query_requests (svc : Services) (file : UploadFile.t)
  (w : World) (response : VoiceQueryResponse.t) (w' : World) :
  process_voice_query svc file w = (Ok response, w') ->
  let matching := VoiceQueryResponse.matching_properties response in
  let transcript := VoiceQueryResponse.transcription response in
  exists up,
    post_upload_audio svc file = Ok up /\
    calls w'
      = calls w
        ++ [ PostUploadAudio file;
             PostTranscribeFile (UploadResult.file_id (Response.json up));
             GetProperties;
             PostSearch transcript 5;
             PostProcessQuery transcript
               (map (fun sp => context_entry (ScoredProperty.prop sp))
                  matching) ]
        ++ map similarity_call (expanded true matching) /\
    clock w' = S (S (S (S (clock w)))).
Proof.
  intros H matching transcript. unfold process_voice_query in H.
  rewrite bind_now in H. apply try_except_ok in H.
  apply bind_ok in H. destruct H as (up & w1 & Hup & H).
  apply http_ok in Hup. destruct Hup as [Hup ->].
  destruct (Z.eqb_spec (Response.status_code up) 200) as [Hup200|];
    [|discriminate H].
  cbn [negb] in H.
  apply bind_ok in H. destruct H as (tr & w2 & Htr & H).
  apply http_ok in Htr. destruct Htr as [Htr ->].
  destruct (Z.eqb_spec (Response.status_code tr) 200) as [Htr200|];
    [|discriminate H].
  cbn [negb] in H.
  apply bind_ok in H. destruct H as (text & w3 & Htext & H).
  rewrite bind_now in H. unfold ret in H. injection H as <- <-.
  apply generator_context_aux in Htext.
  destruct Htext as (Hcalls & Hclock).
  cbn [QueryRequest.of_query QueryRequest.query QueryRequest.max_results
       QueryRequest.include_similar calls clock] in Hcalls, Hclock.
  exists up. split; [exact Hup|].
  unfold matching, transcript.
  cbn [VoiceQueryResponse.matching_properties
       VoiceQueryResponse.transcription calls clock].
  rewrite Hcalls, Hclock, <- !app_assoc. split; reflexivity.
Qed.

(** X17.  The simplified voice flow.  [process_voice_query_simple] asks for a
    transcription without an upload; an answer with a status other than
    200 fails the request, and otherwise the response carries the
    transcript, the answer and the matching listings of the text flow run
    on it with the default parameters, and the confidence of the
    transcription. *)
Theorem voice_query_simple_spec (svc : Services) (w : World) :
  (forall tr,
     post_transcribe svc = Ok tr ->
     Response.status_code tr <> 200 ->
     process_voice_query_simple svc w
       = (Raise (HTTPException 500
                   "Error processing voice query: 400: Failed to get transcription"),
          mkWorld (calls w ++ [PostTranscribe]) (S (clock w)))) /\
  (forall response w',
     process_voice_query_simple svc w = (Ok response, w') ->
     exists tr text w2,
       post_transcribe svc = Ok tr /\
       Response.status_code tr = 200 /\
       process_text_query svc
         (QueryRequest.of_query
            (TranscriptionResult.transcription (Response.json tr)))
         (mkWorld (calls w ++ [PostTranscribe]) (S (clock w)))
         = (Ok text, w2) /\
       response
         = VoiceQueryResponse.mk
             (TranscriptionResult.transcription (Response.json tr))
             (TranscriptionResult.transcription (Response.json tr))
             (QueryResponse.answer text)
             (QueryResponse.matching_properties text)
             (TranscriptionResult.confidence (Response.json tr))
             (fsub (time_time svc (clock w2)) (time_time svc (clock w)))).
Proof.
  split.
  - intros tr Htr Hstatus. apply Z.eqb_neq in Hstatus.
    unfold process_voice_query_simple. rewrite bind_now.
    unfold try_except, bind, http, raise. rewrite Htr, Hstatus.
    reflexivity.
  - intros response w' H. unfold process_voice_query_simple in H.
    rewrite bind_now in H. apply try_except_ok in H.
    apply bind_ok in H. destruct H as (tr & w1 & Htr & H).
    apply http_ok in Htr. destruct Htr as [Htr ->].
    destruct (Z.eqb_spec (Response.status_code tr) 200) as [Htr200|];
      [|discriminate H].
    cbn [negb] in H.
    apply bind_ok in H. destruct H as (text & w3 & Htext & H).
    rewrite bind_now in H. unfold ret in H. injection H as <- <-.
    exists tr, text, w3. repeat split; assumption.
Qed.

(* ================================================================== *)
(** * The health aggregation *)
(* ================================================================== *)

(** X18.  The health aggregation reports on every service, whatever the
    probes answer.  The report has the five keys [rag_service],
    [web_scraper], [audio_transcription], [vector_database] and
    [llm_integration], in this order; the entry of a dependency is what
    the probe of its own address gives and nothing else: the body of an
    answer with status 200, an [unhealthy] entry with the status for
    another answer, an [unreachable] entry with the text of the exception
    when the request raises.  So two runs that get the same answer from
    one dependency report the same on it, whatever the others do. *)
Theorem health_check_reports_all (cfg : RagHealth.Config)
  (get : string -> result (Response.t RagHealth.Dict)) :
  map fst (RagHealth.health_check cfg get)
    = [ "rag_service"; "web_scraper"; "audio_transcription";
        "vector_database"; "llm_integration" ] /\
  RagHealth.dict_get _ (RagHealth.health_check cfg get) "rag_service"
    = Some [ ("status", RagHealth.JStr "healthy");
             ("port", RagHealth.JInt 8005) ] /\
  (forall name url,
     In (name, url) (RagHealth.services cfg) ->
     RagHealth.dict_get _ (RagHealth.health_check cfg get) name
       = Some (RagHealth.probe get url)) /\
  (forall url,
     RagHealth.probe get url
       = match get (url ++ "/health")%string with
         | Ok response =>
             if Response.status_code response =? 200
             then Response.json response
             else unhealthy_report (Response.status_code response)
         | Raise e => unreachable_report e
         end) /\
  (forall get' name url,
     In (name, url) (RagHealth.services cfg) ->
     get' (url ++ "/health")%string = get (url ++ "/health")%string ->
     RagHealth.dict_get _ (RagHealth.health_check cfg get') name
       = RagHealth.dict_get _ (RagHealth.health_check cfg get) name).
Proof.
  assert (Hentry : forall g name url,
            In (name, url) (RagHealth.services cfg) ->
            RagHealth.dict_get _ (RagHealth.health_check cfg g) name
              = Some (RagHealth.probe g url)).
  { intros g name url Hin. unfold RagHealth.services in Hin. simpl in Hin.
    destruct Hin as [H|[H|[H|[H|[]]]]]; injection H as <- <-; reflexivity. }
  split; [reflexivity|]. split; [reflexivity|]. split; [apply Hentry|].
  split; [reflexivity|].
  intros get' name url Hin Hsame. rewrite !(Hentry _ name url Hin).
  unfold RagHealth.probe. rewrite Hsame. reflexivity.
Qed.

(* ================================================================== *)
(** * The listing store *)
(* ================================================================== *)

Lemma store_fresh (db : WebScraper.Store) :
  store_wf db ->
  find (fun row => WebScraper.PropertyDB.id row
                   =? WebScraper.next_property_id db)
    (WebScraper.properties db) = None.
Proof.
  intros [Hbelow _]. apply find_absent. intros row Hrow.
  rewrite Forall_forall in Hbelow. specialize (Hbelow row Hrow).
  apply Z.eqb_neq. lia.
Qed.

(** X19.  Scrape and read back.  On a store with well-formed keys,
    [scrape_property] answers with a listing under a new identifier: no
    listing could be read under it before, [get_property] gives exactly
    the answered listing afterwards, what is read under every other
    identifier is unchanged, and [get_all_properties] lists the earlier
    listings followed by the new one.  The listing carries the requested
    address and the currency AED. *)
Theorem scrape_then_get (pick : nat) (utcnow : Z)
  (request : WebScraper.ScrapeRequest.t) (db : WebScraper.Store) :
  store_wf db ->
  let listing := fst (WebScraper.scrape_property pick utcnow request db) in
  let db' := snd (WebScraper.scrape_property pick utcnow request db) in
  Property.id listing = WebScraper.next_property_id db /\
  WebScraper.get_property (Property.id listing) db
    = Raise (HTTPException 404 "Property not found") /\
  WebScraper.get_property (Property.id listing) db' = Ok listing /\
  (forall property_id,
     property_id <> Property.id listing ->
     WebScraper.get_property property_id db'
       = WebScraper.get_property property_id db) /\
  WebScraper.get_all_properties db'
    = WebScraper.get_all_properties db ++ [listing] /\
  Property.url listing = Some (WebScraper.ScrapeRequest.url request) /\
  Property.currency listing = "AED".
Proof.
  intros Hwf listing db'. pose proof (store_fresh db Hwf) as Hfresh.
  split; [reflexivity|]. split; [|split; [|split; [|split]]].
  - unfold WebScraper.get_property. cbn [listing fst
      WebScraper.scrape_property WebScraper.to_model Property.id
      WebScraper.PropertyDB.id].
    rewrite Hfresh. reflexivity.
  - unfold WebScraper.get_property, db'.
    cbn [snd WebScraper.scrape_property WebScraper.properties listing fst
         WebScraper.to_model Property.id WebScraper.PropertyDB.id].
    rewrite find_app_last, Hfresh.
    cbn [WebScraper.PropertyDB.id]. rewrite Z.eqb_refl. reflexivity.
  - intros property_id Hne. unfold WebScraper.get_property, db'.
    cbn [snd WebScraper.scrape_property WebScraper.properties].
    rewrite find_app_last. cbn [WebScraper.PropertyDB.id].
    destruct (find (fun row => WebScraper.PropertyDB.id row =? property_id)
                (WebScraper.properties db)); [reflexivity|].
    destruct (Z.eqb_spec (WebScraper.next_property_id db) property_id)
      as [Heq|]; [|reflexivity].
    exfalso. apply Hne. rewrite <- Heq. reflexivity.
  - unfold WebScraper.get_all_properties, db'.
    cbn [snd WebScraper.scrape_property WebScraper.properties].
    rewrite map_app. reflexivity.
  - split; reflexivity.
Qed.

Lemma find_unique (A : Type) (key : A -> Z) (l : list A) (x : A) :
  NoDup (map key l) -> In x l ->
  find (fun y => key y =? key x) l = Some x.
Proof.
  induction l as [|y l IH]; simpl; intros Hnd Hin; [contradiction|].
  inversion Hnd as [|? ? Hnotin Hnd']; subst.
  destruct Hin as [->|Hin].
  - rewrite Z.eqb_refl. reflexivity.
  - destruct (Z.eqb_spec (key y) (key x)) as [Heq|]; [|apply IH; auto].
    exfalso. apply Hnotin. rewrite Heq. apply in_map, Hin.
Qed.

(** X20.  The keys of the listing store and the join of the orchestrator.
    [scrape_property] keeps the keys well formed, so the listings that
    [get_all_properties] returns carry pairwise different identifiers;
    against such a collection a ranked entry resolves to the one listing
    that carries its identifier, so that "the first listing with the
    identifier" is the only one. *)
Theorem store_keys_unique (db : WebScraper.Store) :
  store_wf db ->
  (forall pick utcnow request,
     store_wf (snd (WebScraper.scrape_property pick utcnow request db))) /\
  NoDup (map Property.id (WebScraper.get_all_properties db)) /\
  (forall r p,
     In p (WebScraper.get_all_properties db) ->
     Property.id p = SearchResult.property_id r ->
     resolve (WebScraper.get_all_properties db) r = Some p).
Proof.
  intros Hwf. pose proof Hwf as [Hbelow Hnodup].
  assert (Hids : map Property.id (WebScraper.get_all_properties db)
                 = map WebScraper.PropertyDB.id (WebScraper.properties db)).
  { unfold WebScraper.get_all_properties. rewrite map_map. reflexivity. }
  split; [|split].
  - intros pick utcnow request. split;
      cbn [snd WebScraper.scrape_property WebScraper.properties
           WebScraper.next_property_id].
    + apply Forall_app. split.
      * eapply Forall_impl; [|exact Hbelow]. simpl. intros row Hrow. lia.
      * constructor; [simpl; lia|constructor].
    + rewrite map_app. cbn [map WebScraper.PropertyDB.id].
      apply Permutation_NoDup
        with (l := WebScraper.next_property_id db
                   :: map WebScraper.PropertyDB.id (WebScraper.properties db)).
      * apply Permutation_cons_append.
      * constructor; [|exact Hnodup].
        intros Hin. apply in_map_iff in Hin.
        destruct Hin as (row & Heq & Hrow).
        rewrite Forall_forall in Hbelow. specialize (Hbelow row Hrow). lia.
  - rewrite Hids. exact Hnodup.
  - intros r p Hp Hid. unfold resolve. rewrite <- Hid.
    apply (find_unique _ Property.id); [|exact Hp].
    rewrite Hids. exact Hnodup.
Qed.

(* ================================================================== *)
(** * The response generator *)
(* ================================================================== *)

Lemma responses_not_empty :
  LLMIntegration.response_villas <> "" /\
  LLMIntegration.response_apartments <> "" /\
  LLMIntegration.response_pools <> "" /\
  (forall q, LLMIntegration.response_default q <> "") /\
  LLMIntegration.response_greeting <> "" /\
  LLMIntegration.response_budget <> "" /\
  LLMIntegration.response_location <> "" /\
  LLMIntegration.response_thanks <> "".
Proof.
  repeat split; try (intros H; vm_compute in H; discriminate H).
  intros q H. unfold LLMIntegration.response_default in H.
  simpl in H. discriminate H.
Qed.

Lemma process_query_not_empty (lower : string -> string)
  (randint : Z -> Z -> Z) (request : LLMIntegration.QueryRequest.t) :
  LLMIntegration.QueryResponse.response
    (LLMIntegration.process_query lower randint request) <> "".
Proof.
  destruct responses_not_empty as (Hv & Ha & Hp & Hd & _).
  unfold LLMIntegration.process_query.
  cbn [LLMIntegration.QueryResponse.response].
  destruct (_ && _)%bool; [exact Hv|].
  destruct (_ && _)%bool; [exact Ha|].
  destruct (LLMIntegration.is_in _ _); [exact Hp|apply Hd].
Qed.

Lemma process_query_by_query (lower : string -> string)
  (randint : Z -> Z -> Z) (request request' : LLMIntegration.QueryRequest.t) :
  LLMIntegration.QueryRequest.query request'
    = LLMIntegration.QueryRequest.query request ->
  LLMIntegration.QueryResponse.response
    (LLMIntegration.process_query lower randint request')
  = LLMIntegration.QueryResponse.response
      (LLMIntegration.process_query lower randint request).
Proof.
  intros Hq. unfold LLMIntegration.process_query.
  cbn [LLMIntegration.QueryResponse.response]. rewrite Hq. reflexivity.
Qed.

(** X21.  [process_query] answers every request, and its answer is never
    empty.  The text is chosen by the query alone: the context, the
    temperature and the token limit of the request are not read, so two
    requests with the same query get the same text.  The model tag and
    the confidence are constants. *)
Theorem process_query_answers (lower : string -> string)
  (randint : Z -> Z -> Z) (request : LLMIntegration.QueryRequest.t) :
  LLMIntegration.QueryResponse.response
    (LLMIntegration.process_query lower randint request) <> "" /\
  (forall request',
     LLMIntegration.QueryRequest.query request'
       = LLMIntegration.QueryRequest.query request ->
     LLMIntegration.QueryResponse.response
       (LLMIntegration.process_query lower randint request')
     = LLMIntegration.QueryResponse.response
         (LLMIntegration.process_query lower randint request)) /\
  LLMIntegration.QueryResponse.model
    (LLMIntegration.process_query lower randint request)
    = "gpt-4-turbo-preview" /\
  LLMIntegration.QueryResponse.confidence
    (LLMIntegration.process_query lower randint request)
    = LLMIntegration.f0_92.
Proof.
  split; [apply process_query_not_empty|].
  split; [|split; reflexivity].
  intros request' Hq. apply process_query_by_query. exact Hq.
Qed.

(** X22.  The orchestrator and the response generator composed.  When the
    answers with status 200 to the generator requests of the
    orchestrator carry the text of [process_query] for the request sent
    (the query and the context, the other fields at their defaults), the
    answer of every response of [process_text_query] is not empty, and
    it is the apology or the text that [process_query] gives for the
    query alone: it does not depend on the listings that were found. *)
Theorem answer_from_generator (lower : string -> string)
  (randint : Z -> Z -> Z) (svc : Services) (request : QueryRequest.t)
  (w : World) (response : QueryResponse.t) (w' : World) :
  (forall q context r,
     post_process_query svc q context = Ok r ->
     Response.status_code r = 200 ->
     LLMResult.response (Response.json r)
       = Some (LLMIntegration.QueryResponse.response
                 (LLMIntegration.process_query lower randint
                    (LLMIntegration.QueryRequest.mk q (Some context)
                       LLMIntegration.f0_7 500)))) ->
  process_text_query svc request w = (Ok response, w') ->
  QueryResponse.answer response <> "" /\
  (QueryResponse.answer response = apology \/
   QueryResponse.answer response
     = LLMIntegration.QueryResponse.response
         (LLMIntegration.process_query lower randint
            (LLMIntegration.QueryRequest.of_query
               (QueryRequest.query request)))).
Proof.
  intros Hgen H. apply process_text_query_ok in H.
  destruct H as (llm & Hllm & -> & _). cbn [QueryResponse.answer].
  unfold answer_of.
  destruct (Z.eqb_spec (Response.status_code llm) 200) as [H200|].
  - rewrite (Hgen _ _ llm Hllm H200). split.
    + apply process_query_not_empty.
    + right. apply process_query_by_query. reflexivity.
  - split; [discriminate|]. left. reflexivity.
Qed.

(** X23.  [chat_completion]: a request without messages and a request whose
    last message is not from the user are refused with status 400;
    otherwise the call answers with a text that is not empty.  Only the
    last message is read: for the same draw of the token count, the
    earlier messages, the temperature and the token limit do not change
    the answer.  A last message whose lowered
    text contains [hi] anywhere, as in "Dubai Hills" or "this", gets the
    greeting, whatever else it asks. *)
Theorem chat_completion_spec (lower : string -> string)
  (randint : Z -> Z -> Z) :
  (forall temperature max_tokens,
     LLMIntegration.chat_completion lower randint
       (LLMIntegration.ChatRequest.mk [] temperature max_tokens)
     = Raise (HTTPException 400 "No messages provided")) /\
  (forall history last temperature max_tokens,
     LLMIntegration.ChatMessage.role last <> "user" ->
     LLMIntegration.chat_completion lower randint
       (LLMIntegration.ChatRequest.mk (history ++ [last]) temperature
          max_tokens)
     = Raise (HTTPException 400 "Last message must be from user")) /\
  (forall history last temperature max_tokens,
     LLMIntegration.ChatMessage.role last = "user" ->
     exists answer,
       LLMIntegration.chat_completion lower randint
         (LLMIntegration.ChatRequest.mk (history ++ [last]) temperature
            max_tokens)
       = Ok answer /\
       LLMIntegration.ChatResponse.response answer <> "" /\
       LLMIntegration.ChatResponse.model answer = "gpt-4-turbo-preview") /\
  (forall history history' last temperature temperature' max_tokens
          max_tokens',
     LLMIntegration.chat_completion lower randint
       (LLMIntegration.ChatRequest.mk (history ++ [last]) temperature
          max_tokens)
     = LLMIntegration.chat_completion lower randint
         (LLMIntegration.ChatRequest.mk (history' ++ [last]) temperature'
            max_tokens')) /\
  (forall history content temperature max_tokens,
     LLMIntegration.is_in "hi" (lower content) = true ->
     LLMIntegration.chat_completion lower randint
       (LLMIntegration.ChatRequest.mk
          (history ++ [LLMIntegration.ChatMessage.mk "user" content])
          temperature max_tokens)
     = Ok (LLMIntegration.ChatResponse.mk LLMIntegration.response_greeting
             "gpt-4-turbo-preview" (randint 100 300))).
Proof.
  destruct responses_not_empty as (_ & _ & _ & _ & Hg & Hb & Hl & Ht).
  split; [reflexivity|]. split; [|split; [|split]].
  - intros history last temperature max_tokens Hrole.
    unfold LLMIntegration.chat_completion.
    cbn [LLMIntegration.ChatRequest.messages]. rewrite rev_unit.
    apply String.eqb_neq in Hrole. rewrite Hrole. reflexivity.
  - intros history last temperature max_tokens Hrole.
    unfold LLMIntegration.chat_completion.
    cbn [LLMIntegration.ChatRequest.messages]. rewrite rev_unit.
    apply String.eqb_eq in Hrole. rewrite Hrole. cbn [negb].
    eexists. split; [reflexivity|].
    cbn [LLMIntegration.ChatResponse.response
         LLMIntegration.ChatResponse.model].
    split; [|reflexivity].
    destruct (existsb _ _); [exact Hg|].
    destruct (LLMIntegration.is_in "budget" _); [exact Hb|].
    destruct (LLMIntegration.is_in "location" _); [exact Hl|].
    destruct (existsb _ _); [exact Ht|].
    apply process_query_not_empty.
  - intros history history' last temperature temperature' max_tokens
      max_tokens'.
    unfold LLMIntegration.chat_completion.
    cbn [LLMIntegration.ChatRequest.messages]. rewrite !rev_unit.
    reflexivity.
  - intros history content temperature max_tokens Hhi.
    unfold LLMIntegration.chat_completion.
    cbn [LLMIntegration.ChatRequest.messages]. rewrite rev_unit.
    cbn [LLMIntegration.ChatMessage.role LLMIntegration.ChatMessage.content
         String.eqb Ascii.eqb Bool.eqb negb existsb].
    rewrite Hhi, orb_true_r. reflexivity.
Qed.

(* ================================================================== *)
(** * The population script *)
(* ================================================================== *)

Lemma Forall_embedded_cons (new : WebScraper.PropertyDB.t)
  (ls : list WebScraper.PropertyDB.t) (es : list PropertyEmbedding.t) :
  Forall (fun row => exists listing,
            In listing ls /\ embedded_from listing row) es ->
  Forall (fun row => exists listing,
            In listing (new :: ls) /\ embedded_from listing row) es.
Proof.
  intros Hall. eapply Forall_impl; [|exact Hall].
  intros row (l & Hl & Hrow). exists l. split; [right|]; auto.
Qed.

Lemma populate_loop_grows (c : Conditions)
  (properties : list PopulateSampleData.SampleProperty.t) :
  forall i d printed,
    let d' := snd (PopulateSampleData.populate_loop Deployment (live c) i
                     properties d printed) in
    exists listings embeddings,
      WebScraper.properties (store d')
        = WebScraper.properties (store d) ++ listings /\
      rows (index d') = rows (index d) ++ embeddings /\
      (List.length embeddings <= List.length listings
       <= List.length properties)%nat /\
      Forall (fun row => exists listing,
                In listing listings /\ embedded_from listing row)
        embeddings /\
      (model c = None -> embeddings = []) /\
      ((forall n, reachable c n = true) ->
       forall encode, model c = Some encode ->
       List.length listings = List.length properties /\
       Forall2 embedded_from listings embeddings).
Proof.
  induction properties as [|prop rest IH]; intros i d printed; simpl.
  - exists [], []. rewrite !app_nil_r.
    split; [reflexivity|]. split; [reflexivity|]. split; [simpl; lia|].
    split; [constructor|]. split; [reflexivity|].
    intros _ _ _. split; [reflexivity|constructor].
  - destruct (reachable c (requests d)) eqn:Hr1.
    2:{ match goal with
        | |- context [PopulateSampleData.populate_loop _ _ _ _ ?d1 ?p1] =>
            destruct (IH (S i) d1 p1)
              as (ls & es & Hs & He & Hlen & Hall & Hnone & Hfull)
        end.
        exists ls, es. cbn [store index] in *.
        split; [exact Hs|]. split; [exact He|]. split; [lia|].
        split; [exact Hall|]. split; [exact Hnone|].
        intros Hup. rewrite Hup in Hr1. discriminate. }
    cbn [Response.status_code Response.json Z.eqb Pos.eqb].
    set (n := requests d).
    set (new := WebScraper.PropertyDB.mk
                  (WebScraper.next_property_id (store d)) _ _ _ _ _ _ _ _ _
                  _ _ _).
    cbn [requests store index].
    destruct (reachable c (S n)) eqn:Hr2.
    2:{ match goal with
        | |- context [PopulateSampleData.populate_loop _ _ _ _ ?d1 ?p1] =>
            destruct (IH (S i) d1 p1)
              as (ls & es & Hs & He & Hlen & Hall & Hnone & Hfull)
        end.
        cbn [store index WebScraper.properties] in *.
        exists (new :: ls), es.
        split; [rewrite Hs, <- app_assoc; reflexivity|]. split; [exact He|]. split; [simpl; lia|].
        split; [apply Forall_embedded_cons; exact Hall|].
        split; [exact Hnone|].
        intros Hup. rewrite Hup in Hr2. discriminate. }
    destruct (model c) as [encode|] eqn:Hmodel;
      cbn [create_embedding Response.status_code status_of Z.eqb Pos.eqb
           EmbedRequest.property_id EmbedRequest.text];
      match goal with
      | |- context [PopulateSampleData.populate_loop _ _ _ _ ?d1 ?p1] =>
          destruct (IH (S i) d1 p1)
            as (ls & es & Hs & He & Hlen & Hall & Hnone & Hfull)
      end;
      cbn [store index WebScraper.properties rows] in *.
    + set (row := PropertyEmbedding.mk (next_id (index d)) _ _ _) in *.
      exists (new :: ls), (row :: es).
      assert (Hrow : embedded_from new row) by (split; reflexivity).
      split; [rewrite Hs, <- app_assoc; reflexivity|].
      split; [rewrite He, <- app_assoc; reflexivity|]. split; [simpl; lia|].
      split.
      { constructor.
        - exists new. split; [left; reflexivity|exact Hrow].
        - apply Forall_embedded_cons; exact Hall. }
      split; [discriminate|].
      intros Hup encode' Hsome.
      destruct (Hfull Hup encode eq_refl) as [Hl HF2].
      split; [simpl; f_equal; exact Hl|constructor; assumption].
    + exists (new :: ls), es.
      split; [rewrite Hs, <- app_assoc; reflexivity|]. split; [exact He|]. split; [simpl; lia|].
      split; [apply Forall_embedded_cons; exact Hall|].
      split; [exact Hnone|].
      intros _ encode Hcontra. discriminate.
Qed.

(** X24.  The script and the two services it fills.  Run against the listing
    store and the embedding index of the repository, under any
    conditions, the script only appends to the two tables; it adds at
    most one listing per sample and at most one embedding per added
    listing; and every embedding it adds carries the identifier of a
    listing added in the same run and the text built from that listing
    (title, description, location and type). *)
Theorem populate_embeds_added_listings (c : Conditions)
  (properties : list PopulateSampleData.SampleProperty.t) (d : Deployment) :
  let d' := snd (PopulateSampleData.populate_sample_data Deployment (live c)
                   properties d) in
  exists listings embeddings,
    WebScraper.properties (store d')
      = WebScraper.properties (store d) ++ listings /\
    rows (index d') = rows (index d) ++ embeddings /\
    (List.length embeddings <= List.length listings
     <= List.length properties)%nat /\
    Forall (fun row => exists listing,
              In listing listings /\ embedded_from listing row)
      embeddings.
Proof.
  intros d'.
  destruct (populate_loop_grows c properties 0%nat d [])
    as (ls & es & Hs & He & Hlen & Hall & _).
  exists ls, es. auto.
Qed.

Lemma populate_loop_no_model (c : Conditions) :
  model c = None ->
  (forall n, reachable c n = true) ->
  forall properties i d printed,
    exists listings d',
      PopulateSampleData.populate_loop Deployment (live c) i properties d
        printed
      = (printed
         ++ flat_map
              (fun listing =>
                 [ PopulateSampleData.AddedProperty
                     (WebScraper.PropertyDB.title listing);
                   PopulateSampleData.FailedEmbedding
                     (WebScraper.PropertyDB.id listing) ]) listings,
         d') /\
      WebScraper.properties (store d')
        = WebScraper.properties (store d) ++ listings /\
      index d' = index d /\
      List.length listings = List.length properties.
Proof.
  intros Hmodel Hup properties.
  induction properties as [|prop rest IH]; intros i d printed.
  - exists [], d. cbn [PopulateSampleData.populate_loop flat_map].
    rewrite !app_nil_r. auto.
  - cbn [PopulateSampleData.populate_loop].
    cbn [live PopulateSampleData.post_scrape PopulateSampleData.post_embed].
    rewrite (Hup (requests d)).
    cbn [WebScraper.scrape_property Response.status_code Response.json
         Z.eqb Pos.eqb requests index store].
    rewrite (Hup (S (requests d))), Hmodel.
    cbn [create_embedding status_of Response.status_code Z.eqb Pos.eqb
         requests index store].
    set (new := WebScraper.PropertyDB.mk
                  (WebScraper.next_property_id (store d)) _ _ _ _ _ _ _ _ _
                  _ _ _).
    match goal with
    | |- context [PopulateSampleData.populate_loop _ _ _ _ ?d1 ?p1] =>
        destruct (IH (S i) d1 p1) as (ls & d' & Hrun & Hs & Hi & Hlen)
    end.
    exists (new :: ls), d'. rewrite Hrun.
    cbn [store index WebScraper.properties] in Hs, Hi.
    split.
    { cbn [flat_map app]. rewrite <- !app_assoc. reflexivity. }
    split; [rewrite Hs, <- app_assoc; reflexivity|].
    split; [exact Hi|]. cbn [List.length]. rewrite Hlen. reflexivity.
Qed.

(** X25.  The script without the model.  When the embedding index runs
    without its model, the index stays as it was, whatever gets through.
    When every request gets through, every embedding request is answered
    503 and the script goes on: it adds one listing per sample to the
    store and prints, for each of them, that the listing was added and
    that its embedding failed.  So the listings of such a run cannot be
    found by a search once the model is there. *)
Theorem populate_without_model (c : Conditions)
  (properties : list PopulateSampleData.SampleProperty.t) (d : Deployment) :
  model c = None ->
  let run := PopulateSampleData.populate_sample_data Deployment (live c)
               properties d in
  rows (index (snd run)) = rows (index d) /\
  ((forall n, reachable c n = true) ->
   exists listings,
     WebScraper.properties (store (snd run))
       = WebScraper.properties (store d) ++ listings /\
     List.length listings = List.length properties /\
     fst run
       = flat_map
           (fun listing =>
              [ PopulateSampleData.AddedProperty
                  (WebScraper.PropertyDB.title listing);
                PopulateSampleData.FailedEmbedding
                  (WebScraper.PropertyDB.id listing) ]) listings).
Proof.
  intros Hmodel run. split.
  - destruct (populate_loop_grows c properties 0%nat d [])
      as (ls & es & Hs & He & Hlen & Hall & Hnone & _).
    unfold run, PopulateSampleData.populate_sample_data.
    rewrite He, (Hnone Hmodel), app_nil_r. reflexivity.
  - intros Hup.
    destruct (populate_loop_no_model c Hmodel Hup properties 0%nat d [])
      as (ls & d' & Hrun & Hs & _ & Hlen).
    exists ls. unfold run, PopulateSampleData.populate_sample_data.
    rewrite Hrun. cbn [fst snd app]. auto.
Qed.

(** X26.  The script when everything answers.  With the model loaded and every
    request getting through, the script adds one listing per sample and
    one embedding per listing, in the same order, each embedding under
    the identifier and with the text of its listing. *)
Theorem populate_complete (c : Conditions) (encode : string -> vector)
  (properties : list PopulateSampleData.SampleProperty.t) (d : Deployment) :
  model c = Some encode ->
  (forall n, reachable c n = true) ->
  let d' := snd (PopulateSampleData.populate_sample_data Deployment (live c)
                   properties d) in
  exists listings embeddings,
    WebScraper.properties (store d')
      = WebScraper.properties (store d) ++ listings /\
    rows (index d') = rows (index d) ++ embeddings /\
    List.length listings = List.length properties /\
    Forall2 embedded_from listings embeddings.
Proof.
  intros Hmodel Hup d'.
  destruct (populate_loop_grows c properties 0%nat d [])
    as (ls & es & Hs & He & Hlen & Hall & Hnone & Hfull).
  destruct (Hfull Hup encode Hmodel) as [Hl HF2].
  exists ls, es. auto.
Qed.

(* ================================================================== *)
(** * The transcription stage *)
(* ================================================================== *)

Lemma write_file_read (files : AudioTranscription.Files)
  (path content : string) :
  read_file (AudioTranscription.write_file files path content) path
    = Some content.
Proof.
  unfold read_file.
  induction files as [|[p c] rest IH]; simpl.
  - rewrite String.eqb_refl. reflexivity.
  - destruct (String.eqb p path) eqn:Hp; simpl; rewrite Hp; auto.
Qed.

Lemma write_file_other (files : AudioTranscription.Files)
  (path content other : string) :
  other <> path ->
  read_file (AudioTranscription.write_file files path content) other
    = read_file files other.
Proof.
  intros Hne. unfold read_file.
  induction files as [|[p c] rest IH]; simpl.
  - destruct (String.eqb_spec path other); [congruence|reflexivity].
  - destruct (String.eqb_spec p path) as [->|Hp]; simpl.
    + destruct (String.eqb_spec path other); [congruence|reflexivity].
    + destruct (String.eqb p other); auto.
Qed.

Lemma audio_prefix_not_empty (content_type : string) :
  String.prefix "audio/" content_type = true ->
  negb (String.eqb content_type "") = true.
Proof. destruct content_type; [discriminate|reflexivity]. Qed.

(** X27.  [upload_audio_file].  An upload without a content type, or with one
    that does not begin with [audio/], is refused with status 400 and
    nothing is written.  Any other upload is accepted: the response
    carries the fresh identifier, the name of the file as sent and the
    length of the content, and afterwards the file
    [/app/uploads/<identifier><extension of the name>] holds the content
    while every other file is as before. *)
Theorem upload_audio_file_spec (uuid : string)
  (file : AudioTranscription.Upload.t) (files : AudioTranscription.Files) :
  let is_audio :=
    match AudioTranscription.Upload.content_type file with
    | Some content_type => String.prefix "audio/" content_type
    | None => false
    end in
  let path :=
    ("/app/uploads/" ++ uuid
     ++ AudioTranscription.splitext_ext
          (AudioTranscription.Upload.filename file))%string in
  let run := AudioTranscription.upload_audio_file uuid file files in
  (is_audio = false ->
   run = (Raise (HTTPException 400 "File must be an audio file"), files)) /\
  (is_audio = true ->
   fst run
     = Ok (AudioTranscription.UploadResponse.mk uuid
             (AudioTranscription.Upload.filename file)
             (Z.of_nat
                (String.length (AudioTranscription.Upload.content file)))) /\
   read_file (snd run) path
     = Some (AudioTranscription.Upload.content file) /\
   forall other, other <> path ->
     read_file (snd run) other = read_file files other).
Proof.
  intros is_audio path run. unfold run, is_audio, path.
  unfold AudioTranscription.upload_audio_file.
  destruct (AudioTranscription.Upload.content_type file) as [ct|].
  - split; intros H.
    + rewrite H, andb_false_r. reflexivity.
    + rewrite H, (audio_prefix_not_empty ct H). cbn [andb negb fst snd].
      split; [reflexivity|]. split.
      * apply write_file_read.
      * intros other Hne. apply write_file_other. exact Hne.
  - split; intros H; [reflexivity|discriminate H].
Qed.

(** X28.  [transcribe_audio] answers with one of its eight phrases, whatever
    the request, with confidence 0.95 and the language of the request;
    and each of the eight phrases is the answer for some draw. *)
Theorem transcribe_audio_spec (request : AudioTranscription.TranscriptionRequest.t) :
  (forall pick,
     let r := AudioTranscription.transcribe_audio pick request in
     In (AudioTranscription.TranscriptionResponse.transcription r)
       AudioTranscription.mock_transcriptions /\
     AudioTranscription.TranscriptionResponse.confidence r
       = AudioTranscription.f0_95 /\
     AudioTranscription.TranscriptionResponse.language r
       = AudioTranscription.TranscriptionRequest.language request) /\
  (forall phrase,
     In phrase AudioTranscription.mock_transcriptions ->
     exists pick,
       AudioTranscription.TranscriptionResponse.transcription
         (AudioTranscription.transcribe_audio pick request) = phrase).
Proof.
  split.
  - intros pick r. unfold r, AudioTranscription.transcribe_audio.
    cbn [AudioTranscription.TranscriptionResponse.transcription
         AudioTranscription.TranscriptionResponse.confidence
         AudioTranscription.TranscriptionResponse.language].
    split; [|split; reflexivity].
    apply nth_In. apply Nat.mod_upper_bound. discriminate.
  - intros phrase Hin. apply (In_nth _ _ ""%string) in Hin.
    destruct Hin as (n & Hn & Hnth). exists n.
    unfold AudioTranscription.transcribe_audio.
    cbn [AudioTranscription.TranscriptionResponse.transcription].
    rewrite Nat.mod_small by exact Hn. exact Hnth.
Qed.

Lemma process_voice_query_run (svc : Services) (file : UploadFile.t)
  (w : World) (response : VoiceQueryResponse.t) (w' : World) :
  process_voice_query svc file w = (Ok response, w') ->
  exists up tr text w1 w2,
    post_upload_audio svc file = Ok up /\
    Response.status_code up = 200 /\
    post_transcribe_file svc (UploadResult.file_id (Response.json up))
      = Ok tr /\
    Response.status_code tr = 200 /\
    process_text_query svc
      (QueryRequest.of_query
         (TranscriptionResult.transcription (Response.json tr))) w1
      = (Ok text, w2) /\
    VoiceQueryResponse.transcription response
      = TranscriptionResult.transcription (Response.json tr) /\
    VoiceQueryResponse.query response
      = TranscriptionResult.transcription (Response.json tr) /\
    VoiceQueryResponse.confidence response
      = TranscriptionResult.confidence (Response.json tr).
Proof.
  intros H. unfold process_voice_query in H.
  rewrite bind_now in H. apply try_except_ok in H.
  apply bind_ok in H. destruct H as (up & w1 & Hup & H).
  apply http_ok in Hup. destruct Hup as [Hup ->].
  destruct (Z.eqb_spec (Response.status_code up) 200) as [Hup200|];
    [|discriminate H].
  cbn [negb] in H.
  apply bind_ok in H. destruct H as (tr & w2 & Htr & H).
  apply http_ok in Htr. destruct Htr as [Htr ->].
  destruct (Z.eqb_spec (Response.status_code tr) 200) as [Htr200|];
    [|discriminate H].
  cbn [negb] in H.
  apply bind_ok in H. destruct H as (text & w3 & Htext & H).
  rewrite bind_now in H. unfold ret in H. injection H as <- <-.
  exists up, tr, text. eexists. exists w3.
  split; [exact Hup|]. split; [exact Hup200|]. split; [exact Htr|].
  split; [exact Htr200|]. split; [exact Htext|].
  split; [reflexivity|]. split; reflexivity.
Qed.

(** X29.  The orchestrator and the transcription stage composed.  When the
    answers with status 200 to the upload and to the transcription of a
    file are what [upload_audio_file], on the part that the orchestrator
    forwards, and [transcribe_uploaded_file] return, a voice query
    returns a response only when the forwarded part carries a content
    type that begins with [audio/]: the content type of the file itself
    when it has one, and otherwise the type guessed from its name, which
    must not be empty.  The transcript is then the one fixed phrase of
    [transcribe_uploaded_file] with confidence 0.92, whatever the audio
    holds. *)
Theorem voice_query_fixed_transcript (guess_type : string -> option string)
  (svc : Services) (file : UploadFile.t)
  (w : World) (response : VoiceQueryResponse.t) (w' : World) :
  (forall up,
     post_upload_audio svc file = Ok up ->
     Response.status_code up = 200 ->
     exists uuid files r,
       fst (AudioTranscription.upload_audio_file uuid
              (forwarded guess_type file) files)
         = Ok r) ->
  (forall file_id tr,
     post_transcribe_file svc file_id = Ok tr ->
     Response.status_code tr = 200 ->
     Response.json tr
       = transcription_read
           (AudioTranscription.transcribe_uploaded_file file_id "en")) ->
  process_voice_query svc file w = (Ok response, w') ->
  (exists sent,
     AudioTranscription.Upload.content_type (forwarded guess_type file)
       = Some sent /\
     String.prefix "audio/" sent = true /\
     match UploadFile.content_type file with
     | Some own => sent = own
     | None =>
         UploadFile.filename file <> "" /\
         guess_type (UploadFile.filename file) = Some sent
     end) /\
  VoiceQueryResponse.transcription response
    = "Show me 3-bedroom villas in Dubai under AED 2 million with swimming pool" /\
  VoiceQueryResponse.query response
    = VoiceQueryResponse.transcription response /\
  VoiceQueryResponse.confidence response = AudioTranscription.f0_92.
Proof.
  intros Hupload Htranscribe Hrun.
  apply process_voice_query_run in Hrun.
  destruct Hrun as (up & tr & text & w1 & w2 & Hup & Hup200 & Htr & Htr200
                    & _ & Ht & Hq & Hc).
  destruct (Hupload up Hup Hup200) as (uuid & files & r & Hr).
  rewrite <- Ht in Hq.
  rewrite (Htranscribe _ tr Htr Htr200) in Ht, Hc.
  split; [|split; [exact Ht|split; [exact Hq|exact Hc]]].
  unfold AudioTranscription.upload_audio_file in Hr.
  destruct (AudioTranscription.Upload.content_type (forwarded guess_type file))
    as [sent|] eqn:Hsent; [|discriminate Hr].
  destruct (String.prefix "audio/" sent) eqn:Hprefix;
    [|rewrite andb_false_r in Hr; discriminate Hr].
  exists sent. split; [reflexivity|]. split; [exact Hprefix|].
  unfold forwarded in Hsent.
  cbn [AudioTranscription.Upload.content_type] in Hsent.
  destruct (UploadFile.content_type file) as [own|].
  - congruence.
  - destruct (String.eqb_spec (UploadFile.filename file) "") as [|Hname];
      [discriminate Hsent|].
    split; [exact Hname|].
    destruct (guess_type (UploadFile.filename file)) as [guessed|];
      [congruence|].
    injection Hsent as <-. discriminate Hprefix.
Qed.

(* ================================================================== *)
(** * The statements above on concrete inputs *)
(* ================================================================== *)


Import MoreExamples.

(** [search_properties_size] for a limit of [-1] on the index of two
    rows: the last entry is dropped. *)
Lemma search_properties_size_witness :
  match search_properties (Some encode_ex) (SearchRequest.mk "T" (-1)) db_WT
  with
  | Ok results => List.length results = 1%nat
  | Raise _ => False
  end.
Proof.
  destruct (search_properties (Some encode_ex) (SearchRequest.mk "T" (-1))
              db_WT) as [results|e] eqn:Hrun.
  - exact (search_properties_size (Some encode_ex)
             (SearchRequest.mk "T" (-1)) db_WT results Hrun).
  - vm_compute in Hrun. discriminate Hrun.
Defined.

(** [search_properties_ties] on the index in which listing 1 was embedded
    twice: the two rows that tie with similarity 1.0 stand in scan
    order. *)
Lemma search_properties_ties_witness :
  exists scored ranked,
    Forall2 (scores (encode_ex "x")) (rows db_twice) scored /\
    search_properties (Some encode_ex) (SearchRequest.mk "x" 5) db_twice
      = Ok (slice_to ranked 5) /\
    forall k, filter (tied k) ranked = filter (tied k) scored.
Proof.
  destruct (search_properties_ties encode_ex (SearchRequest.mk "x" 5)
              db_twice)
    as (scored & ranked & Hall & Hrun & _ & _ & Hties & _).
  - apply Forall_forall. intros e He. vm_compute in He.
    destruct He as [<-|[<-|[<-|[]]]].
    + eexists. split; [vm_compute; reflexivity|]. vm_compute. reflexivity.
    + eexists. split; [vm_compute; reflexivity|]. vm_compute. reflexivity.
    + eexists. split; [vm_compute; reflexivity|]. vm_compute. reflexivity.
  - exists scored, ranked. split; [exact Hall|]. split; [exact Hrun|].
    exact Hties.
Defined.

Example search_properties_ties_scan_order :
  search_properties (Some encode_ex) (SearchRequest.mk "x" 5) db_twice
    = Ok [ SearchResult.mk 1 "first text" f1;
           SearchResult.mk 2 "other listing" f1;
           SearchResult.mk 1 "second text" f0 ].
Proof. vm_compute. reflexivity. Qed.

Lemma db_W_wf : session_wf db_W.
Proof.
  split.
  - constructor; [reflexivity|constructor].
  - constructor; [intros []|constructor].
Qed.

(** [create_embedding_keys] for a second embedding on the index that
    holds one. *)
Lemma create_embedding_keys_witness :
  session_wf db_W /\
  session_wf db_WT /\
  forall response,
    fst (create_embedding (Some encode_ex) (EmbedRequest.mk 8 "T") db_W)
      = Ok response ->
    ~ In (EmbedResponse.embedding_id response)
        (map PropertyEmbedding.id (rows db_W)).
Proof.
  split; [exact db_W_wf|].
  exact (create_embedding_keys (Some encode_ex) (EmbedRequest.mk 8 "T") db_W
           db_W_wf).
Defined.

(** [find_similar_properties_size] on the index in which listing 1 was
    embedded twice: one entry, for the one row of another listing. *)
Lemma find_similar_properties_size_witness :
  match find_similar_properties (Some encode_ex) (SimilarityRequest.mk 1 5)
          db_twice
  with
  | Ok results => List.length results = 1%nat
  | Raise _ => False
  end.
Proof.
  destruct (find_similar_properties (Some encode_ex)
              (SimilarityRequest.mk 1 5) db_twice) as [results|e] eqn:Hrun.
  - exact (find_similar_properties_size (Some encode_ex)
             (SimilarityRequest.mk 1 5) db_twice results Hrun).
  - vm_compute in Hrun. discriminate Hrun.
Defined.

(** [search_error_status_degrades] on the deployment whose search
    answers 503. *)
Lemma search_error_status_degrades_witness :
  process_text_query svc_search_503 query_villa world0
    = (Ok (QueryResponse.mk "villa with pool" "Here are the best options."
             [] [] (fsub f1 f0)),
       mkWorld [ GetProperties; PostSearch "villa with pool" 5;
                 PostProcessQuery "villa with pool" [] ] 2).
Proof.
  apply (search_error_status_degrades svc_search_503 query_villa world0
           (Response.mk 200 listings) (Response.mk 503 [])
           (Response.mk 200
              (LLMResult.mk (Some "Here are the best options.")))).
  - reflexivity.
  - reflexivity.
  - discriminate.
  - reflexivity.
Defined.

Lemma svc_indexed_search (q : string) (n : Z)
  (r : Response.t (list SearchResult.t)) :
  post_search svc_indexed q n = Ok r ->
  Response.status_code r = 200 ->
  search_properties (Some encode_ex) (SearchRequest.mk q n) db_three
    = Ok (Response.json r).
Proof.
  intros H H200. unfold svc_indexed in H. cbn [post_search] in H.
  unfold search_properties in *.
  cbn [SearchRequest.query SearchRequest.limit] in *.
  destruct (score_rows (encode_ex q) (rows db_three) []) as [v|e] eqn:E.
  - cbn [serve] in H. injection H as <-. reflexivity.
  - apply score_rows_raises in E. subst e. cbn [serve] in H.
    injection H as <-. discriminate H200.
Qed.

(** [matching_properties_ranked] on the deployment whose search is served
    by the embedding index with its model loaded. *)
Lemma matching_properties_ranked_witness :
  match process_text_query svc_indexed query_villa world0 with
  | (Ok response, _) =>
      (List.length (QueryResponse.matching_properties response) <= 5)%nat /\
      StronglySorted by_score (QueryResponse.matching_properties response)
  | (Raise _, _) => False
  end.
Proof.
  destruct (process_text_query svc_indexed query_villa world0)
    as [[response|e] w'] eqn:Hrun.
  - destruct (matching_properties_ranked svc_indexed query_villa world0
                response w' (Some encode_ex) db_three svc_indexed_search
                ltac:(discriminate) Hrun) as [Hlen Hsorted].
    split; [exact Hlen|]. apply Hsorted.
    intros encode Hencode. injection Hencode as <-.
    apply Forall_forall. intros row Hrow.
    vm_compute in Hrow.
    destruct Hrow as [<-|[<-|[<-|[]]]];
      (eexists; split; [vm_compute; reflexivity|]); reflexivity.
  - vm_compute in Hrun. discriminate Hrun.
Defined.

(** [generator_context] on the deployment in which every service
    answers. *)
Lemma generator_context_witness :
  match process_text_query svc_up query_villa world0 with
  | (Ok response, w') =>
      let matching := QueryResponse.matching_properties response in
      calls w'
        = [ GetProperties; PostSearch "villa with pool" 5;
            PostProcessQuery "villa with pool"
              (map (fun sp => context_entry (ScoredProperty.prop sp))
                 matching) ]
          ++ map similarity_call (expanded true matching) /\
      clock w' = 2%nat
  | (Raise _, _) => False
  end.
Proof.
  destruct (process_text_query svc_up query_villa world0)
    as [[response|e] w'] eqn:Hrun.
  - destruct (generator_context svc_up query_villa world0 response w' Hrun)
      as (Hcalls & _ & Hclock).
    split; [exact Hcalls|exact Hclock].
  - vm_compute in Hrun. discriminate Hrun.
Defined.

(** [voice_query_requests] on the deployment in which every service
    answers. *)
Lemma voice_query_requests_witness :
  match process_voice_query svc_up audio world0 with
  | (Ok response, w') => clock w' = 4%nat
  | (Raise _, _) => False
  end.
Proof.
  destruct (process_voice_query svc_up audio world0)
    as [[response|e] w'] eqn:Hrun.
  - destruct (voice_query_requests svc_up audio world0 response w' Hrun)
      as (up & _ & _ & Hclock).
    exact Hclock.
  - vm_compute in Hrun. discriminate Hrun.
Defined.

Lemma store_two_wf : store_wf store_two.
Proof.
  split.
  - constructor; [reflexivity|]. constructor; [reflexivity|constructor].
  - constructor.
    + intros [H|[]]. discriminate H.
    + constructor; [intros []|constructor].
Qed.

(** [scrape_then_get] on the store that holds two listings. *)
Lemma scrape_then_get_witness :
  let request := WebScraper.ScrapeRequest.mk "https://example.com/property-3" in
  let listing := fst (WebScraper.scrape_property 0 30 request store_two) in
  let db' := snd (WebScraper.scrape_property 0 30 request store_two) in
  Property.id listing = 3 /\
  WebScraper.get_property 3 store_two
    = Raise (HTTPException 404 "Property not found") /\
  WebScraper.get_property 3 db' = Ok listing.
Proof.
  intros request listing db'.
  destruct (scrape_then_get 0 30 request store_two store_two_wf)
    as (Hid & Hbefore & Hafter & _).
  split; [exact Hid|]. split; [exact Hbefore|exact Hafter].
Defined.

(** [store_keys_unique] on the store that holds two listings. *)
Lemma store_keys_unique_witness :
  store_wf store_two /\
  NoDup (map Property.id (WebScraper.get_all_properties store_two)).
Proof.
  split; [exact store_two_wf|].
  exact (proj1 (proj2 (store_keys_unique store_two store_two_wf))).
Defined.

(** [answer_from_generator] on the deployment whose answers come from
    [process_query]. *)
Lemma answer_from_generator_witness :
  match process_text_query svc_generated query_villa world0 with
  | (Ok response, _) => QueryResponse.answer response <> ""
  | (Raise _, _) => False
  end.
Proof.
  destruct (process_text_query svc_generated query_villa world0)
    as [[response|e] w'] eqn:Hrun.
  - refine (proj1 (answer_from_generator LLMIntegration.ascii_lower
                     (fun low high => low) svc_generated query_villa world0
                     response w' _ Hrun)).
    intros q context r H _. unfold svc_generated in H.
    cbn [post_process_query] in H. unfold generate in H.
    injection H as <-. reflexivity.
  - vm_compute in Hrun. discriminate Hrun.
Defined.

(** [populate_without_model] for two samples on an empty deployment. *)
Lemma populate_without_model_witness :
  let run := PopulateSampleData.populate_sample_data Deployment
               (live conditions_no_model) samples deployment0 in
  rows (index (snd run)) = [] /\
  exists listings,
    WebScraper.properties (store (snd run)) = listings /\
    List.length listings = 2%nat.
Proof.
  intros run.
  destruct (populate_without_model conditions_no_model samples deployment0
              eq_refl) as [Hindex Hstore].
  split; [exact Hindex|].
  destruct (Hstore (fun n => eq_refl)) as (listings & Hs & Hlen & _).
  exists listings. split; [exact Hs|exact Hlen].
Defined.

(** [populate_complete] for two samples on an empty deployment. *)
Lemma populate_complete_witness :
  let d' := snd (PopulateSampleData.populate_sample_data Deployment
                   (live conditions_up) samples deployment0) in
  exists listings embeddings,
    WebScraper.properties (store d') = listings /\
    rows (index d') = embeddings /\
    List.length listings = 2%nat /\
    Forall2 embedded_from listings embeddings.
Proof.
  exact (populate_complete conditions_up encode_ex samples deployment0
           eq_refl (fun n => eq_refl)).
Defined.

(** [voice_query_fixed_transcript] on the deployment whose upload and
    transcription are served by the transcription stage, for a recording
    that arrived without a content type: the part is forwarded with the
    type guessed from the name, and the query returns. *)
Lemma voice_query_fixed_transcript_witness :
  match process_voice_query svc_voice recording_untyped world0 with
  | (Ok response, _) =>
      VoiceQueryResponse.transcription response
        = "Show me 3-bedroom villas in Dubai under AED 2 million with swimming pool" /\
      VoiceQueryResponse.confidence response = AudioTranscription.f0_92 /\
      guess_ex "query.wav" = Some "audio/x-wav"
  | (Raise _, _) => False
  end.
Proof.
  destruct (process_voice_query svc_voice recording_untyped world0)
    as [[response|e] w'] eqn:Hrun.
  - assert (Hupload : forall up,
              post_upload_audio svc_voice recording_untyped = Ok up ->
              Response.status_code up = 200 ->
              exists uuid files r,
                fst (AudioTranscription.upload_audio_file uuid
                       (forwarded guess_ex recording_untyped) files) = Ok r).
    { intros up _ _. exists "file-1", []. eexists. reflexivity. }
    assert (Htranscribe : forall file_id tr,
              post_transcribe_file svc_voice file_id = Ok tr ->
              Response.status_code tr = 200 ->
              Response.json tr
                = transcription_read
                    (AudioTranscription.transcribe_uploaded_file file_id
                       "en")).
    { intros file_id tr H _. unfold svc_voice in H.
      cbn [post_transcribe_file] in H. injection H as <-. reflexivity. }
    destruct (voice_query_fixed_transcript guess_ex svc_voice
                recording_untyped world0 response w'
                Hupload Htranscribe Hrun) as (_ & Ht & _ & Hc).
    split; [exact Ht|]. split; [exact Hc|reflexivity].
  - vm_compute in Hrun. discriminate Hrun.
Defined.

(** The same deployment refuses a document: the transcription stage
    answers the upload with 400, and the voice query fails. *)
Example voice_query_document_refused :
  fst (process_voice_query svc_voice document world0)
    = Raise (HTTPException 500
               "Error processing voice query: 400: Failed to upload audio file").
Proof. vm_compute. reflexivity. Qed.
